(** * Manga metadata extractors: GalaxyAction and Ziz

    A shallow embedding of the two site parsers (GalaxyAction's
    [MangaReaderParser], Ziz's [ZizParser] and [ZizHelpers]) and of the
    weekly discover section of GalaxyAction's extension class, with the
    properties of their normalizers and list extractors.

    Conventions.
    - A JavaScript string is a [string]; each [ascii] stands for one code
      unit, so the development covers text whose code units are below 256.
    - A document is represented by what the selector queries of a function
      return on it: the matched nodes in document order, each with the
      texts and attributes the function reads ([None] for an attribute
      that is absent, the empty string for the text of an empty selection).
    - Built-ins whose definition lies outside the repository (case mapping,
      [Date] parsing, [JSON.parse], number arithmetic, the host's entity
      decoder) are the fields of the class [Runtime]; every function is
      parametric in it.
    - [new Date()] reads a clock; the clock is threaded explicitly. *)

From Stdlib Require Import String Ascii List Bool Arith ZArith NArith Lia.
From Stdlib Require Import Permutation Sorted.
From Stdlib Require QArith DecimalString.
Import ListNotations.

Local Open Scope list_scope.
Local Open Scope string_scope.

Set Implicit Arguments.

(** ** String built-ins of the language *)

Module JS.

(** [s.startsWith(p)] *)
Definition startsWith (s p : string) : bool := String.prefix p s.

(** [s.includes(needle)] *)
Fixpoint includes (s needle : string) : bool :=
  String.prefix needle s ||
  match s with
  | EmptyString => false
  | String _ t => includes t needle
  end.

(** [s.endsWith(p)] *)
Fixpoint endsWith (s p : string) : bool :=
  String.eqb s p ||
  match s with
  | EmptyString => false
  | String _ t => endsWith t p
  end.

(** Occurrence of one code unit. *)
Fixpoint mem (c : ascii) (s : string) : bool :=
  match s with
  | EmptyString => false
  | String d t => Ascii.eqb d c || mem c t
  end.

(** [s.split(sep)] for a separator of one code unit; the result is never
    empty: the empty string is split into the list holding it. *)
Fixpoint split (sep : ascii) (s : string) : list string :=
  match s with
  | EmptyString => [EmptyString]
  | String c t =>
      if Ascii.eqb c sep then EmptyString :: split sep t
      else match split sep t with
           | h :: r => String c h :: r
           | [] => [String c EmptyString]
           end
  end.

(** Truthiness of a string: non-empty. *)
Definition truthy (s : string) : bool := negb (String.eqb s "").

(** [parts.filter(Boolean)] *)
Definition filterBoolean (parts : list string) : list string :=
  filter truthy parts.

(** [a || b] on strings. *)
Definition or (a b : string) : string := if truthy a then a else b.

(** An attribute that may be absent, or else the empty string. *)
Definition orEmpty (a : option string) : string :=
  match a with Some s => s | None => "" end.

(** White space of [trim] and of the class [\s], for code units below
    256: TAB, LF, VT, FF, CR, SPACE and NBSP. *)
Definition isWhiteSpace (c : ascii) : bool :=
  let n := N_of_ascii c in
  ((9 <=? n) && (n <=? 13) || (n =? 32) || (n =? 160))%N.

Fixpoint trimStart (s : string) : string :=
  match s with
  | EmptyString => EmptyString
  | String c t => if isWhiteSpace c then trimStart t else s
  end.

(** Drops the white space at the end; [String c t] is kept whole when
    what follows [c] is not white space only. *)
Fixpoint trimEnd (s : string) : string :=
  match s with
  | EmptyString => EmptyString
  | String c t =>
      match trimEnd t with
      | EmptyString => if isWhiteSpace c then EmptyString else String c EmptyString
      | r => String c r
      end
  end.

(** [s.trim()] *)
Definition trim (s : string) : string := trimEnd (trimStart s).

(** [s.charAt(0)] *)
Definition charAt0 (s : string) : string :=
  match s with
  | EmptyString => EmptyString
  | String c _ => String c EmptyString
  end.

(** [s.slice(1)] *)
Definition slice1 (s : string) : string :=
  match s with
  | EmptyString => EmptyString
  | String _ t => t
  end.

(** The rest of [s] after the prefix [p], when [s] starts with [p]. *)
Fixpoint stripPrefix (p s : string) : option string :=
  match p, s with
  | EmptyString, _ => Some s
  | String a p', String b s' => if Ascii.eqb a b then stripPrefix p' s' else None
  | String _ _, EmptyString => None
  end.

(** Longest prefix whose code units satisfy [f], and the rest. *)
Fixpoint span (f : ascii -> bool) (s : string) : string * string :=
  match s with
  | EmptyString => (EmptyString, EmptyString)
  | String c t =>
      if f c then let (a, b) := span f t in (String c a, b)
      else (EmptyString, s)
  end.

(** Replacing [/\/$/] by the empty string: one slash at the very end is
    removed. *)
Fixpoint stripTrailingSlash (s : string) : string :=
  match s with
  | EmptyString => EmptyString
  | String c EmptyString => if Ascii.eqb c "/" then EmptyString else s
  | String c t => String c (stripTrailingSlash t)
  end.

(** [s.replace(/x/g, y)] for single code units. *)
Fixpoint replaceChar (x y : ascii) (s : string) : string :=
  match s with
  | EmptyString => EmptyString
  | String c t => String (if Ascii.eqb c x then y else c) (replaceChar x y t)
  end.

Definition isDigit (c : ascii) : bool :=
  let n := N_of_ascii c in ((48 <=? n) && (n <=? 57))%N.

(** Line terminators, which [.] of a regular expression does not match. *)
Definition isLineTerminator (c : ascii) : bool :=
  let n := N_of_ascii c in ((n =? 10) || (n =? 13))%N.

(** ASCII case folding of one code unit, as in a [/i] expression. *)
Definition foldCase (c : ascii) : ascii :=
  let n := N_of_ascii c in
  if ((65 <=? n) && (n <=? 90))%N then ascii_of_N (n + 32) else c.

(** [stripPrefix] with the [/i] flag; [p] is given in lower case. *)
Fixpoint stripPrefixCI (p s : string) : option string :=
  match p, s with
  | EmptyString, _ => Some s
  | String a p', String b s' =>
      if Ascii.eqb a (foldCase b) then stripPrefixCI p' s' else None
  | String _ _, EmptyString => None
  end.

(** [s.replace(/\s+/g, r)]: every run of white space becomes [r]. *)
Fixpoint replaceSpaces (r : ascii) (inRun : bool) (s : string) : string :=
  match s with
  | EmptyString => EmptyString
  | String c t =>
      if isWhiteSpace c then
        if inRun then replaceSpaces r true t
        else String r (replaceSpaces r true t)
      else String c (replaceSpaces r false t)
  end.

(** The first [length p] code units of [s] and the rest, when they are
    [p] up to ASCII case; [p] is given in lower case. *)
Fixpoint takeCI (p s : string) : option (string * string) :=
  match p, s with
  | EmptyString, _ => Some (EmptyString, s)
  | String a p', String b s' =>
      if Ascii.eqb a (foldCase b) then
        match takeCI p' s' with
        | Some (m, r) => Some (String b m, r)
        | None => None
        end
      else None
  | String _ _, EmptyString => None
  end.

End JS.

(** ** Values of [JSON.parse], as far as the extractors look at them *)

#[warnings="-register-all"]
Inductive JSON : Type :=
| JString (s : string)
| JArray (items : list JSON)
| JOther.   (* null, a boolean, a number or an object *)

(** ** The runtime the parsers run on *)

Class Runtime : Type := {
  (** [String.prototype.toLowerCase] and [toUpperCase] *)
  toLowerCase : string -> string;
  toUpperCase : string -> string;
  (** [Application.decodeHTMLEntities] and [encodeURI] *)
  decodeHTMLEntities : string -> string;
  encodeURI : string -> string;
  (** [new Date(s).getTime()]; [None] when it is NaN *)
  Date_parse : string -> option Z;
  (** [JSON.parse]; [None] when it throws *)
  JSON_parse : string -> option JSON;
  (** the number type with [parseFloat] and the arithmetic in use *)
  number : Type;
  parseFloat : string -> number;
  isNaN : number -> bool;
  num_of_Z : Z -> number;
  num_mul : number -> number -> number;
  num_div : number -> number -> number;
  num_sub : number -> number -> number;
  (** truthiness of a number: neither zero nor NaN *)
  num_truthy : number -> bool;
  (** sign of a comparator result: [Lt] negative, [Gt] positive, [Eq] for
      zero and NaN *)
  num_sign : number -> comparison
}.

(** A point in time, in milliseconds. *)
Definition Date := Z.

(** The clock: the reading of the [n]-th coming call of [new Date()]. *)
Definition Clock := nat -> Date.

(** [new Date()]: the current reading, and the clock afterwards. *)
Definition newDate (clk : Clock) : Date * Clock :=
  (clk 0, fun n => clk (S n)).

Inductive ContentRating : Type := EVERYONE | MATURE | ADULT.

Record Tag : Type := { tag_id : string; tag_title : string }.

Record TagSection : Type :=
  { section_id : string; section_title : string; tags : list Tag }.

(** The double quote, the single quote and the backslash. *)
Definition DQ : ascii := ascii_of_nat 34.
Definition SQ : ascii := ascii_of_nat 39.
Definition BSL : ascii := ascii_of_nat 92.

(** [s] between two quotes [q]. *)
Definition quoted (q : ascii) (s : string) : string :=
  String q (s ++ String q EmptyString).

(** ** Records shared by the two parsers *)

Section Records.
Context {RT : Runtime}.

Record MangaInfo : Type := {
  shareUrl : string;
  primaryTitle : string;
  secondaryTitles : list string;
  thumbnailUrl : string;
  author : string;
  artist : string;
  tagGroups : list TagSection;
  synopsis : string;
  contentRating : ContentRating;
  status : string;
  rating : option number    (* the key is absent when [None] *)
}.

Record SourceManga : Type := { mangaId : string; mangaInfo : MangaInfo }.

Record Chapter : Type := {
  sourceManga : SourceManga;
  chapterId : string;
  langCode : string;
  chapNum : number;
  title : string;
  publishDate : Date;
  sortingIndex : nat
}.

Record ChapterDetails : Type :=
  { details_id : string; details_mangaId : string; pages : list string }.

Record SearchResultItem : Type := {
  result_mangaId : string;
  result_imageUrl : string;
  result_title : string;
  result_subtitle : option string
}.

Inductive DiscoverSectionType : Type :=
| featured | simpleCarousel | prominentCarousel | chapterUpdates | genres.

Record DiscoverSection : Type := {
  discover_id : string;
  discover_title : string;
  discover_type : DiscoverSectionType
}.

Inductive DiscoverSectionItem : Type :=
| featuredCarouselItem (mangaId imageUrl title supertitle : string)
| prominentCarouselItem (mangaId imageUrl title subtitle : string)
| simpleCarouselItem (mangaId imageUrl title : string) (subtitle : option string).

(** The object passed as [source]: the extension itself. *)
Record Source : Type := {
  domain : string;
  language : string;
  defaultContentRating : ContentRating;
  searchMangaSelector : string;
  usePostIds : bool
}.

End Records.

(** [items.each(callback)] where the callback may push one item
    ([Some]) or return without pushing ([None]); [i] is the index. *)
Fixpoint eachPush {A B : Type} (f : nat -> A -> option B) (i : nat)
    (nodes : list A) : list B :=
  match nodes with
  | [] => []
  | obj :: rest =>
      match f i obj with
      | Some b => b :: eachPush f (S i) rest
      | None => eachPush f (S i) rest
      end
  end.

(** ** GalaxyAction: [MangaReaderParser] *)

Module GalaxyAction.

Definition DOMAIN : string := "https://galaxyaction.net".
Definition LANGUAGE : string := "en".
Definition SEARCH_MANGA_SELECTOR : string := ".bsx".

(** *** What the parser reads from a document *)

(** One [span.mgen a]: its text and its [href]. *)
Record GenreNode : Type := { genre_text : string; genre_href : option string }.

(** The manga page. [ratingValue] is [None] when
    [.num[itemprop='ratingValue']] selects nothing, and otherwise holds
    the [content] attribute and the text; [numscore] is the text of the
    first [.numscore], if there is one. *)
Record DetailsDoc : Type := {
  entryTitle : string;
  authorLink : string;
  artistLink : string;
  description : string;
  thumbSrc : option string;
  statusImptdt : string;
  mgen : list GenreNode;
  ratingValue : option (option string * string);
  numscore : option string
}.

(** One [li[data-num]]: the [href] of its anchor and the texts of
    [.chapternum] and [.chapterdate]. *)
Record ChapterNode : Type := {
  chapter_href : option string;
  chapternum : string;
  chapterdate : string
}.

(** One [#readerarea img]. *)
Record ImgNode : Type := { img_src : option string; img_data_src : option string }.

(** The reader page: the [html()] of every script, and the images. *)
Record ReaderDoc : Type := {
  scripts : list (option string);
  readerarea : list ImgNode
}.

(** One search card: the [href] of its anchor, the text of [.tt], the
    [src] of [.limit img], the text of [.epxs]. *)
Record CardNode : Type := {
  card_href : option string;
  card_tt : string;
  card_img : option string;
  card_epxs : string
}.

(** A listing page answers a selector with the cards it matches. *)
Definition ListingDoc : Type := string -> list CardNode.


(** *** Helpers *)

(** [idCleaner]: the last non-empty path segment of the URL without its
    query string. *)
Definition idCleaner (url : string) : string :=
  if negb (JS.truthy url) then ""
  else
    let cleanUrl := hd "" (JS.split "?" url) in
    let parts := JS.filterBoolean (JS.split "/" cleanUrl) in
    match parts with
    | [] => cleanUrl
    | _ => last parts ""
    end.

(** [isValidImageUrl] *)
Definition isValidImageUrl (url : string) : bool :=
  JS.truthy url
  && negb (String.eqb (JS.trim url) "")
  && negb (JS.includes url "readerarea.svg")
  && negb (JS.includes url "data:image/svg").

(** [isValidImageUrl] on an element of a parsed array, which need not be
    a string. *)
Definition validImage (j : JSON) : option string :=
  match j with
  | JString url => if isValidImageUrl url then Some url else None
  | _ => None
  end.

(** The expression of [href.match]: at the start [http], an optional
    [s], [://], a host of one or more code units other than a slash,
    and then the group: a slash and whatever follows up to the end of
    the text, on one line. *)
Definition pathOfAbsolute (href : string) : option string :=
  match JS.stripPrefix "http" href with
  | None => None
  | Some r =>
      let r := match r with
               | String c t => if Ascii.eqb c "s" then t else r
               | EmptyString => r
               end in
      match JS.stripPrefix "://" r with
      | None => None
      | Some r =>
          let (host, path) := JS.span (fun c => negb (Ascii.eqb c "/")) r in
          if JS.truthy host && JS.truthy path
             && negb (existsb JS.isLineTerminator (list_ascii_of_string path))
          then Some path else None
      end
  end.

(** [\d+\.?\d?(?:[-_]\d+)?] at the head of [s], every part taking as
    much as it can: the text matched and the rest. *)
Definition numberAt (s : string) : option (string * string) :=
  let (d, r1) := JS.span JS.isDigit s in
  if negb (JS.truthy d) then None
  else
    let (dot, r2) :=
      match r1 with
      | String c t => if Ascii.eqb c "." then (".", t) else ("", r1)
      | EmptyString => ("", r1)
      end in
    let (d2, r3) :=
      match r2 with
      | String c t => if JS.isDigit c then (String c "", t) else ("", r2)
      | EmptyString => ("", r2)
      end in
    let (tail, r4) :=
      match r3 with
      | String c t =>
          if Ascii.eqb c "-" || Ascii.eqb c "_" then
            let (d3, r) := JS.span JS.isDigit t in
            if JS.truthy d3 then (String c d3, r) else ("", r3)
          else ("", r3)
      | EmptyString => ("", r3)
      end in
    Some (d ++ dot ++ d2 ++ tail, r4).

(** [.*?] followed by the number: the number at the first digit, unless
    a line terminator comes before it. *)
Fixpoint lazyNumber (s : string) : option string :=
  match numberAt s with
  | Some (g, _) => Some g
  | None =>
      match s with
      | EmptyString => None
      | String c t => if JS.isLineTerminator c then None else lazyNumber t
      end
  end.

(** The two alternatives of
    [/(?:chapter|ch.*?)(\d+\.?\d?(?:[-_]\d+)?)|(\d+\.?\d?(?:[-_]\d+)?)$/]
    at the head of [s]: group 1 ([inl]) or group 2 ([inr]). *)
Definition chapNumAt (s : string) : option (string + string) :=
  let viaChapter :=
    match JS.stripPrefix "chapter" s with
    | Some r => match numberAt r with Some (g, _) => Some g | None => None end
    | None => None
    end in
  let viaCh :=
    match viaChapter with
    | Some g => Some g
    | None =>
        match JS.stripPrefix "ch" s with
        | Some r => lazyNumber r
        | None => None
        end
    end in
  match viaCh with
  | Some g => Some (inl g)
  | None =>
      match numberAt s with
      | Some (g, EmptyString) => Some (inr g)
      | _ => None
      end
  end.

(** The leftmost match of that expression. *)
Fixpoint chapNumRegex (s : string) : option (string + string) :=
  match chapNumAt s with
  | Some m => Some m
  | None =>
      match s with
      | EmptyString => None
      | String _ t => chapNumRegex t
      end
  end.

(** The text handed to [parseFloat]. *)
Definition chapNumText (chapterId : string) : string :=
  match chapNumRegex chapterId with
  | Some (inl g1) => JS.replaceChar "_" "." (JS.replaceChar "-" "." g1)
  | Some (inr g2) => g2
  | None => "0"
  end.

(** [/"images"\s*:\s*(\[[^\]]*\])/] at the head of [s]. *)
Definition imagesAt (s : string) : option string :=
  match JS.stripPrefix (quoted DQ "images") s with
  | None => None
  | Some r =>
      match JS.trimStart r with
      | String c r =>
          if Ascii.eqb c ":" then
            match JS.trimStart r with
            | String c r =>
                if Ascii.eqb c "[" then
                  let (body, r) := JS.span (fun c => negb (Ascii.eqb c "]")) r in
                  match r with
                  | String _ _ => Some ("[" ++ body ++ "]")
                  | EmptyString => None
                  end
                else None
            | EmptyString => None
            end
          else None
      | EmptyString => None
      end
  end.

(** The group of the leftmost match: [imagesMatch[1]]. *)
Fixpoint imagesRegex (s : string) : option string :=
  match imagesAt s with
  | Some g => Some g
  | None =>
      match s with
      | EmptyString => None
      | String _ t => imagesRegex t
      end
  end.

(** [.replace(/,]/g, "]")] *)
Fixpoint replaceCommaBracket (s : string) : string :=
  match s with
  | EmptyString => EmptyString
  | String c t =>
      match t with
      | String d t' =>
          if Ascii.eqb c "," && Ascii.eqb d "]"
          then String "]" (replaceCommaBracket t')
          else String c (replaceCommaBracket t)
      | EmptyString => s
      end
  end.

(** [.replace(/,\s*]/g, "]")]. [pending] holds a comma and the white
    space read after it, for as long as a bracket may still follow. *)
Fixpoint replaceCommaSpaceBracket (pending : option string) (s : string) : string :=
  match s with
  | EmptyString => JS.orEmpty pending
  | String c t =>
      match pending with
      | None =>
          if Ascii.eqb c "," then replaceCommaSpaceBracket (Some ",") t
          else String c (replaceCommaSpaceBracket None t)
      | Some p =>
          if JS.isWhiteSpace c
          then replaceCommaSpaceBracket (Some (p ++ String c "")) t
          else if Ascii.eqb c "]" then String "]" (replaceCommaSpaceBracket None t)
          else if Ascii.eqb c "," then p ++ replaceCommaSpaceBracket (Some ",") t
          else p ++ String c (replaceCommaSpaceBracket None t)
      end
  end.

(** [cleanArray] *)
Definition cleanArray (matched : string) : string :=
  replaceCommaSpaceBracket None
    (replaceCommaBracket (JS.replaceChar SQ DQ matched)).

(** The fallback of [extractImagesFromScript]: every run of one or more
    code units other than a double quote and a backslash that stands
    between two double quotes, found from left to right, a closing quote
    not serving as the next opening one. [cur] holds what was read since
    an opening quote. *)
Fixpoint urlMatches (cur : option string) (s : string) : list string :=
  match s with
  | EmptyString => []
  | String c t =>
      match cur with
      | None =>
          if Ascii.eqb c DQ then urlMatches (Some "") t else urlMatches None t
      | Some acc =>
          if Ascii.eqb c DQ then
            if JS.truthy acc then acc :: urlMatches None t
            else urlMatches (Some "") t
          else if Ascii.eqb c BSL then urlMatches None t
          else urlMatches (Some (acc ++ String c "")) t
      end
  end.

Section Parser.
Context {RT : Runtime}.

(** [parseDate]: the date of the text, or the present time. *)
Definition parseDate (dateString : string) (clk : Clock) : Date * Clock :=
  if negb (JS.truthy dateString) then newDate clk
  else
    let date := JS.trim dateString in
    if JS.includes date "ago" || JS.includes date "just now" then newDate clk
    else
      match Date_parse date with
      | None => newDate clk
      | Some parsedDate => (parsedDate, clk)
      end.

(** The status of [parseMangaDetails]. *)
Definition statusOf (statusImptdt : string) : string :=
  if JS.truthy statusImptdt then
    let normalized := toLowerCase statusImptdt in
    if existsb (String.eqb normalized) ["completed"; "finished"] then "Completed"
    else if existsb (String.eqb normalized) ["hiatus"; "on hold"] then "Hiatus"
    else if existsb (String.eqb normalized) ["cancelled"; "dropped"] then "Cancelled"
    else toUpperCase (JS.charAt0 statusImptdt) ++ JS.slice1 statusImptdt
  else "Ongoing".

(** What the loop over [span.mgen a] pushes for one node: the genre
    keyword and the tag. *)
Definition genreOf (obj : GenreNode) : option (string * Tag) :=
  let title := JS.trim (genre_text obj) in
  let id := idCleaner (JS.orEmpty (genre_href obj)) in
  if negb (JS.truthy title) || negb (JS.truthy id) then None
  else Some (toLowerCase title, {| tag_id := id; tag_title := title |}).

Definition genreKeywordsOf (doc : DetailsDoc) : list string :=
  map fst (eachPush (fun _ => genreOf) 0 (mgen doc)).

Definition genresOf (doc : DetailsDoc) : list Tag :=
  map snd (eachPush (fun _ => genreOf) 0 (mgen doc)).

(** The content rating of [parseMangaDetails], from the keywords. *)
Definition contentRatingOf (genreKeywords : list string) : ContentRating :=
  if existsb (fun g => existsb (String.eqb g) ["adult"; "18+"; "nsfw"]) genreKeywords
  then ADULT
  else if existsb (fun g => existsb (String.eqb g) ["mature"; "ecchi"]) genreKeywords
  then MATURE
  else EVERYONE.

(** The rating of [parseMangaDetails]. *)
Definition ratingOf (doc : DetailsDoc) : option number :=
  let scaled (ratingStr : string) :=
    let parsed := parseFloat ratingStr in
    if isNaN parsed then None else Some (num_div parsed (num_of_Z 10)) in
  match ratingValue doc with
  | Some (content, text) =>
      scaled (match content with
              | Some c => if JS.truthy c then c else text
              | None => text
              end)
  | None =>
      match numscore doc with
      | Some text => scaled text
      | None => None
      end
  end.

(** [parseMangaDetails] *)
Definition parseMangaDetails (doc : DetailsDoc) (mangaId : string)
    (source : Source) : SourceManga :=
  let title := decodeHTMLEntities (JS.trim (entryTitle doc)) in
  let author := decodeHTMLEntities (JS.trim (authorLink doc)) in
  let artist := decodeHTMLEntities (JS.trim (artistLink doc)) in
  let synopsis := decodeHTMLEntities (JS.trim (description doc)) in
  let shareUrl := domain source ++ "/manga/" ++ mangaId in
  let image := JS.orEmpty (thumbSrc doc) in
  let status := statusOf (JS.trim (statusImptdt doc)) in
  let genreKeywords := genreKeywordsOf doc in
  let filteredGenres :=
    filter (fun g => negb (String.eqb (tag_id g) "debug"
                           && String.eqb (tag_title g) "DEBUG"))
           (genresOf doc) in
  {| mangaId := mangaId;
     mangaInfo :=
       {| shareUrl := shareUrl;
          primaryTitle := title;
          secondaryTitles := [];
          thumbnailUrl := image;
          author := author;
          artist := artist;
          tagGroups := [ {| section_id := "genres"; section_title := "Genres";
                            tags := filteredGenres |} ];
          synopsis := synopsis;
          contentRating := contentRatingOf genreKeywords;
          status := status;
          rating := ratingOf doc |} |}.

(** The test that makes the callback of [parseChapterList] return
    at once. *)
Definition badHref (href : string) : bool :=
  negb (JS.truthy href)
  || JS.startsWith href "#"
  || JS.includes href "{{"
  || JS.includes href "}}".

(** [chapterId] from a good [href]. *)
Definition chapterIdOf (href : string) : string :=
  if JS.startsWith href "http" then
    match pathOfAbsolute href with
    | Some path => path
    | None => href
    end
  else href.

(** The callback of [parseChapterList] at index [i]. *)
Definition chapterOf (sourceManga : SourceManga) (source : Source)
    (total i : nat) (obj : ChapterNode) (clk : Clock) : option Chapter * Clock :=
  let sortingIndex := total - i in
  let href := JS.orEmpty (chapter_href obj) in
  if badHref href then (None, clk)
  else
    let chapterId := chapterIdOf href in
    let chapName := JS.trim (chapternum obj) in
    let chapterDate := JS.trim (chapterdate obj) in
    let chapNum := parseFloat (chapNumText chapterId) in
    let (mangaTime, clk) := parseDate chapterDate clk in
    if negb (JS.truthy chapterId) || String.eqb chapterId "#" then (None, clk)
    else
      (Some {| sourceManga := sourceManga;
               chapterId := chapterId;
               langCode := language source;
               chapNum := chapNum;
               title := if JS.truthy chapName
                        then decodeHTMLEntities chapName else "";
               publishDate := mangaTime;
               sortingIndex := sortingIndex |}, clk).

(** [nodeArray.each] with that callback, from index [i] on. *)
Fixpoint eachChapter (sourceManga : SourceManga) (source : Source)
    (total i : nat) (nodes : list ChapterNode) (clk : Clock)
    : list Chapter * Clock :=
  match nodes with
  | [] => ([], clk)
  | obj :: rest =>
      let (pushed, clk) := chapterOf sourceManga source total i obj clk in
      let (chapters, clk) := eachChapter sourceManga source total (S i) rest clk in
      (match pushed with
       | Some c => c :: chapters
       | None => chapters
       end, clk)
  end.

(** [parseChapterList] on the [li[data-num]] nodes of the page. *)
Definition parseChapterList (nodeArray : list ChapterNode)
    (sourceManga : SourceManga) (source : Source) (clk : Clock)
    : list Chapter * Clock :=
  eachChapter sourceManga source (length nodeArray) 0 nodeArray clk.

(** [extractImagesFromScript] *)
Definition extractImagesFromScript (doc : ReaderDoc) : list string :=
  match find (fun script => JS.includes script "ts_reader.run")
             (map JS.orEmpty (scripts doc)) with
  | None => []
  | Some scriptContent =>
      match imagesRegex scriptContent with
      | None => []
      | Some matched =>
          match JSON_parse (cleanArray matched) with
          | Some (JArray imageArray) =>
              eachPush (fun _ => validImage) 0 imageArray
          | Some _ => []
          | None =>
              filter isValidImageUrl (urlMatches None matched)
          end
      end
  end.

(** [extractImagesFromReader] *)
Definition extractImagesFromReader (doc : ReaderDoc) : list string :=
  eachPush (fun _ obj =>
              let src := JS.or (JS.orEmpty (img_src obj))
                               (JS.or (JS.orEmpty (img_data_src obj)) "") in
              if isValidImageUrl src then Some src else None)
           0 (readerarea doc).

(** [parseChapterDetails]. An array is truthy even when it is empty,
    so [extractImagesFromScript($) || extractImagesFromReader($)] is
    its left operand. *)
Definition parseChapterDetails (doc : ReaderDoc) (chapter : Chapter)
    : ChapterDetails :=
  let images := extractImagesFromScript doc in
  {| details_id := chapterId chapter;
     details_mangaId := mangaId (sourceManga chapter);
     pages := images |}.

(** What [parseSearchResults] and [parseDiscoverSections] read from
    one card, unless they skip it. *)
Definition cardOf (obj : CardNode) : option (string * string * string * string) :=
  let href := JS.orEmpty (card_href obj) in
  let title := JS.trim (card_tt obj) in
  let image := encodeURI (JS.orEmpty (card_img obj)) in
  let subtitle := JS.trim (card_epxs obj) in
  if negb (JS.truthy href) || negb (JS.truthy title) then None
  else
    let mangaId := idCleaner href in
    if negb (JS.truthy mangaId) || String.eqb mangaId "undefined"
       || String.eqb mangaId "null"
    then None
    else Some (mangaId, image, decodeHTMLEntities title,
               decodeHTMLEntities subtitle).

(** [parseSearchResults] *)
Definition parseSearchResults (doc : ListingDoc) (source : Source)
    : list SearchResultItem :=
  let selector := JS.or (searchMangaSelector source) ".bsx" in
  eachPush (fun _ obj =>
              match cardOf obj with
              | Some (mangaId, image, title, subtitle) =>
                  Some {| result_mangaId := mangaId;
                          result_imageUrl := image;
                          result_title := title;
                          result_subtitle := Some subtitle |}
              | None => None
              end)
           0 (doc selector).

(** [parseDiscoverSections] *)
Definition parseDiscoverSections (doc : ListingDoc) (section : DiscoverSection)
    (source : Source) : list DiscoverSectionItem :=
  let selector := JS.or (searchMangaSelector source) ".bsx" in
  eachPush (fun _ obj =>
              match cardOf obj with
              | Some (mangaId, image, title, subtitle) =>
                  match discover_type section with
                  | featured =>
                      Some (featuredCarouselItem mangaId image title subtitle)
                  | prominentCarousel =>
                      Some (prominentCarouselItem mangaId image title subtitle)
                  | simpleCarousel =>
                      Some (simpleCarouselItem mangaId image title (Some subtitle))
                  | _ => None
                  end
              | None => None
              end)
           0 (doc selector).

End Parser.

(** *** The weekly section of [getDiscoverSectionItems] *)



(** The extension object, which the extension passes as [source]. *)
Definition extension : Source := {|
  domain := DOMAIN;
  language := LANGUAGE;
  defaultContentRating := EVERYONE;
  searchMangaSelector := SEARCH_MANGA_SELECTOR;
  usePostIds := false
|}.



(** The decimal numeral of a page number. *)
Definition decimal (n : nat) : string :=
  DecimalString.NilEmpty.string_of_uint (Nat.to_uint n).

Section Extension.
Context {RT : Runtime}.


End Extension.

End GalaxyAction.

(** ** Ziz: [ZizHelpers] and [ZizParser] *)

Module Ziz.

Definition DOMAIN : string := "https://zzizz.xyz".
Definition LANGUAGE : string := "en".

(** *** Constants *)

Module STATUS_MAPPING.
Definition ONGOING : list string := ["in release"; "ongoing"; "publishing"].
Definition COMPLETED : list string := ["completed"; "finished"].
Definition HIATUS : list string := ["hiatus"; "on hold"].
Definition CANCELLED : list string := ["cancelled"; "dropped"].
End STATUS_MAPPING.

Module CONTENT_RATING_GENRES.
(** The second keyword has the code unit 233, e with an acute accent. *)
Definition ADULT : list string :=
  ["harem"; "har" ++ String (ascii_of_nat 233) "m"].
End CONTENT_RATING_GENRES.

Module API_ENDPOINTS.
Definition READER_BASE : string := "/api/reader/page_data/".
End API_ENDPOINTS.

(** *** What the parser reads from a document *)

(** The manga page: the text of the first [h1], of the author and artist
    links, of the [.prose] after the synopsis heading, the [src] of the
    cover, the text of the status paragraph, the texts of the genre spans
    and the text of [#header-rating-value]. *)
Record DetailsDoc : Type := {
  h1 : string;
  authorLink : string;
  artistLink : string;
  prose : string;
  coverSrc : option string;
  statusParagraph : string;
  genreSpans : list string;
  headerRating : string
}.

(** One [.chapter-item]: its [href], the text of its [h3] and of its
    date paragraph. *)
Record ChapterNode : Type := {
  chapter_href : option string;
  chapter_h3 : string;
  chapter_date : string
}.

(** The reader page: the [data-page-id] of every [.page-canvas] and the
    [html()] of every script. *)
Record ReaderDoc : Type := {
  canvases : list (option string);
  scripts : list (option string)
}.

(** One anchor of [.content-grid]: its [href], the text of its title
    element, the [src] of its first image. *)
Record AnchorNode : Type := {
  anchor_href : option string;
  anchor_title : string;
  anchor_img : option string
}.

(** The search page: whether the no-result selector matches anything, and
    the anchors of the grid. *)
Record SearchDoc : Type := {
  noResults : bool;
  gridAnchors : list AnchorNode
}.

(** One card of [#updatesGridContainer .bg-neutral-800]: the text of its
    [h2], the [src] of its first image, the [href] of its first anchor
    and, when [div.mt-3.space-y-2 > a] selects something in it, the text
    of [p.text-white] in the first such link. *)
Record UpdateCard : Type := {
  update_h2 : string;
  update_img : option string;
  update_href : option string;
  update_chapter : option string
}.

(** One anchor of the grid of latest projects, or one
    [.manga-item, .manga-card]: the text of its title element, the [src]
    of its first image, the [href] it links to, and the texts of its [p]
    and [span] elements. *)
Record ProjectCard : Type := {
  project_title : string;
  project_img : option string;
  project_href : option string;
  project_labels : list string
}.

(** The home page. *)
Record HomeDoc : Type := {
  updatesGrid : list UpdateCard;
  projectsGrid : list ProjectCard;
  mangaItems : list ProjectCard
}.

(** *** [ZizHelpers] *)

(** [buildFullUrl] *)
Definition buildFullUrl (relativeUrl domain : string) : string :=
  if negb (JS.truthy relativeUrl) then ""
  else if JS.startsWith relativeUrl "http" then relativeUrl
  else domain ++ relativeUrl.

(** [ensureTrailingSlash] *)
Definition ensureTrailingSlash (url : string) : string :=
  if JS.endsWith url "/" then url else url ++ "/".

(** The group [([^/]+)] after the literal [p] at the head of [s]. *)
Definition groupAfter (p s : string) : option string :=
  match JS.stripPrefix p s with
  | Some r =>
      let g := fst (JS.span (fun c => negb (Ascii.eqb c "/")) r) in
      if JS.truthy g then Some g else None
  | None => None
  end.

(** [/(?:\/manga\/|\/reader\/manga\/)([^/]+)/] anchored at the head. *)
Definition mangaSlugAt (s : string) : option string :=
  match groupAfter "/manga/" s with
  | Some g => Some g
  | None => groupAfter "/reader/manga/" s
  end.

(** The group of the leftmost match of that expression in [s]. *)
Fixpoint mangaSlugMatch (s : string) : option string :=
  match mangaSlugAt s with
  | Some g => Some g
  | None =>
      match s with
      | EmptyString => None
      | String _ t => mangaSlugMatch t
      end
  end.

(** [cleanMangaId]; [ZizParser.idCleaner] has the same body. *)
Definition cleanMangaId (url : string) : string :=
  if negb (JS.truthy url) then ""
  else
    let cleanUrl := JS.stripTrailingSlash (hd "" (JS.split "?" url)) in
    match mangaSlugMatch cleanUrl with
    | Some g => g
    | None => last (JS.filterBoolean (JS.split "/" cleanUrl)) ""
    end.

Definition idCleaner (url : string) : string := cleanMangaId url.

(** One or more white spaces and then one or more digits at the head of
    [s]: the digits. *)
Definition spacesDigits (s : string) : option string :=
  let (ws, r) := JS.span JS.isWhiteSpace s in
  let (d, _) := JS.span JS.isDigit r in
  if JS.truthy ws && JS.truthy d then Some d else None.

(** The group of the leftmost match of [/Chapter\s+(\d+)/], with the
    flag [i] when [ignoreCase]. *)
Fixpoint chapterNumberMatch (ignoreCase : bool) (s : string) : option string :=
  match match (if ignoreCase then JS.stripPrefixCI "chapter" s
               else JS.stripPrefix "Chapter" s) with
        | Some r => spacesDigits r
        | None => None
        end with
  | Some g => Some g
  | None =>
      match s with
      | EmptyString => None
      | String _ t => chapterNumberMatch ignoreCase t
      end
  end.

(** A word character of a regular expression. *)
Definition isWordChar (c : ascii) : bool :=
  let n := N_of_ascii c in
  (JS.isDigit c || (65 <=? n) && (n <=? 90) || (97 <=? n) && (n <=? 122)
   || (n =? 95))%N.

(** [chapter], an optional [s] and a word boundary at the head of [s],
    whatever the case. *)
Definition chaptersAt (s : string) : bool :=
  let boundary t :=
    match t with
    | EmptyString => true
    | String c _ => negb (isWordChar c)
    end in
  match JS.stripPrefixCI "chapter" s with
  | None => false
  | Some r =>
      match r with
      | String c t => if Ascii.eqb (JS.foldCase c) "s" then boundary t else boundary r
      | EmptyString => true
      end
  end.

(** [/\bChapters?\b/i.test(s)]; [prevWord] tells whether the code unit
    before [s] is a word character. *)
Fixpoint chaptersTest (prevWord : bool) (s : string) : bool :=
  (negb prevWord && chaptersAt s)
  || match s with
     | EmptyString => false
     | String c t => chaptersTest (isWordChar c) t
     end.

(** The group of the leftmost match of
    [/reader\/manga\/[^/]+\/(\d+)/i]. *)
Fixpoint readerUrlMatch (s : string) : option string :=
  match match JS.stripPrefixCI "reader/manga/" s with
        | Some r =>
            let (slug, r) := JS.span (fun c => negb (Ascii.eqb c "/")) r in
            match r with
            | String _ r =>
                let (d, _) := JS.span JS.isDigit r in
                if JS.truthy slug && JS.truthy d then Some d else None
            | EmptyString => None
            end
        | None => None
        end with
  | Some g => Some g
  | None =>
      match s with
      | EmptyString => None
      | String _ t => readerUrlMatch t
      end
  end.

(** [/(\d+\s+(?:day|hour|minute)s?\s+ago)/i] at the head of [s]: the
    text matched. *)
Definition relativeDateAt (s : string) : option string :=
  let (d, r) := JS.span JS.isDigit s in
  let (w1, r) := JS.span JS.isWhiteSpace r in
  let unit :=
    match JS.takeCI "day" r with
    | Some u => Some u
    | None =>
        match JS.takeCI "hour" r with
        | Some u => Some u
        | None => JS.takeCI "minute" r
        end
    end in
  match unit with
  | None => None
  | Some (u, r) =>
      let (s', r) :=
        match JS.takeCI "s" r with
        | Some (x, r') => (x, r')
        | None => ("", r)
        end in
      let (w2, r) := JS.span JS.isWhiteSpace r in
      match JS.takeCI "ago" r with
      | Some (a, _) =>
          if JS.truthy d && JS.truthy w1 && JS.truthy w2
          then Some (d ++ w1 ++ u ++ s' ++ w2 ++ a) else None
      | None => None
      end
  end.

(** The leftmost match of that expression. *)
Fixpoint relativeDateMatch (s : string) : option string :=
  match relativeDateAt s with
  | Some g => Some g
  | None =>
      match s with
      | EmptyString => None
      | String _ t => relativeDateMatch t
      end
  end.

(** The expression of [parseChapterDetails] at the head of [s]:
    [pageApiUrlBase], an equals sign with optional white space around it,
    a single or double quote, the group of one or more code units that are
    not such quotes, and a quote again. *)
Definition pageApiAt (s : string) : option string :=
  let isQuote c := Ascii.eqb c DQ || Ascii.eqb c SQ in
  match JS.stripPrefix "pageApiUrlBase" s with
  | None => None
  | Some r =>
      match JS.trimStart r with
      | String c r =>
          if Ascii.eqb c "=" then
            match JS.trimStart r with
            | String q r =>
                if isQuote q then
                  let (g, r) := JS.span (fun c => negb (isQuote c)) r in
                  match r with
                  | String _ _ => if JS.truthy g then Some g else None
                  | EmptyString => None
                  end
                else None
            | EmptyString => None
            end
          else None
      | EmptyString => None
      end
  end.

(** The group of the leftmost match of that expression. *)
Fixpoint pageApiMatch (s : string) : option string :=
  match pageApiAt s with
  | Some g => Some g
  | None =>
      match s with
      | EmptyString => None
      | String _ t => pageApiMatch t
      end
  end.

Section Parser.
Context {RT : Runtime}.

(** [normalizeStatus] *)
Definition normalizeStatus (statusText : string) : string :=
  if negb (JS.truthy statusText) then "Ongoing"
  else
    let normalized := toLowerCase statusText in
    if existsb (fun status => String.eqb status normalized) STATUS_MAPPING.ONGOING
    then "Ongoing"
    else statusText.

(** [calculateRating] *)
Definition calculateRating (ratingText : string) : option number :=
  if negb (JS.truthy ratingText) || String.eqb ratingText "N/A" then None
  else
    let parsed := parseFloat ratingText in
    if isNaN parsed then None
    else Some (num_div (num_mul parsed (num_of_Z 2)) (num_of_Z 10)).

(** [determineContentRating] *)
Definition determineContentRating (genres : list string) : ContentRating :=
  let genreKeywords := map toLowerCase genres in
  if existsb (fun g =>
                existsb (fun adultGenre => String.eqb adultGenre g)
                        CONTENT_RATING_GENRES.ADULT)
             genreKeywords
  then ADULT
  else EVERYONE.

(** [parseFloat(digits) || 0] *)
Definition numberOrZero (digits : string) : number :=
  let n := parseFloat digits in
  if num_truthy n then n else num_of_Z 0.

(** [extractChapterNumber] *)
Definition extractChapterNumber (chapterTitle chapterId : string)
    : number * string :=
  match chapterNumberMatch true chapterTitle with
  | Some g => (numberOrZero g, "Chapter " ++ g)
  | None =>
      match readerUrlMatch chapterId with
      | Some g => (numberOrZero g, "Chapter " ++ g)
      | None => (num_of_Z 0, "")
      end
  end.

(** [parseRelativeDate] *)
Definition parseRelativeDate (dateString : string) (clk : Clock) : Date * Clock :=
  if negb (JS.truthy dateString) then newDate clk
  else
    match Date_parse dateString with
    | Some date => (date, clk)
    | None => newDate clk
    end.

(** *** [ZizParser] *)

(** What the loop over the genre spans pushes for one span. *)
Definition genreOf (text : string) : option (string * Tag) :=
  let title := JS.trim text in
  if negb (JS.truthy title) then None
  else Some (toLowerCase title,
             {| tag_id := JS.replaceSpaces "-" false (toLowerCase title);
                tag_title := title |}).

Definition genreKeywordsOf (doc : DetailsDoc) : list string :=
  map fst (eachPush (fun _ => genreOf) 0 (genreSpans doc)).

Definition genresOf (doc : DetailsDoc) : list Tag :=
  map snd (eachPush (fun _ => genreOf) 0 (genreSpans doc)).

(** [parseMangaDetails] *)
Definition parseMangaDetails (doc : DetailsDoc) (mangaId : string)
    (source : Source) : SourceManga :=
  let title := decodeHTMLEntities (JS.trim (h1 doc)) in
  let author := decodeHTMLEntities (JS.trim (authorLink doc)) in
  let artist := decodeHTMLEntities (JS.trim (artistLink doc)) in
  let synopsis :=
    decodeHTMLEntities (JS.or (JS.trim (prose doc)) "No description available") in
  let shareUrl := domain source ++ "/manga/" ++ mangaId ++ "/" in
  let image := JS.orEmpty (coverSrc doc) in
  let fullImageUrl := buildFullUrl image (domain source) in
  let statusText := JS.trim (statusParagraph doc) in
  let status := normalizeStatus statusText in
  let genreKeywords := genreKeywordsOf doc in
  let contentRating := determineContentRating genreKeywords in
  let ratingText := JS.trim (headerRating doc) in
  {| mangaId := mangaId;
     mangaInfo :=
       {| shareUrl := shareUrl;
          primaryTitle := title;
          secondaryTitles := [];
          thumbnailUrl := fullImageUrl;
          author := author;
          artist := artist;
          tagGroups := [ {| section_id := "genres"; section_title := "Genres";
                            tags := genresOf doc |} ];
          synopsis := synopsis;
          contentRating := contentRating;
          status := status;
          rating := calculateRating ratingText |} |}.

(** The test that makes the callback of [parseChapterList] return at
    once. *)
Definition badHref (href : string) : bool :=
  negb (JS.truthy href) || JS.startsWith href "#".

(** [chapterId] from a good [href]. *)
Definition chapterIdOf (href : string) : string :=
  ensureTrailingSlash
    (if JS.startsWith href "http" then
       match GalaxyAction.pathOfAbsolute href with
       | Some path => path
       | None => href
       end
     else href).

(** The callback of [parseChapterList]; [pushed] is the length of
    [chapters] when it runs. *)
Definition chapterOf (sourceManga : SourceManga) (source : Source)
    (pushed : nat) (obj : ChapterNode) (clk : Clock) : option Chapter * Clock :=
  let href := JS.orEmpty (chapter_href obj) in
  if badHref href then (None, clk)
  else
    let chapterId := chapterIdOf href in
    let chapterTitle := JS.trim (chapter_h3 obj) in
    let (chapNum, chapName) := extractChapterNumber chapterTitle chapterId in
    let dateText := JS.trim (chapter_date obj) in
    let chapterDate := JS.orEmpty (relativeDateMatch dateText) in
    let (mangaTime, clk) := parseRelativeDate chapterDate clk in
    if negb (JS.truthy chapterId) || String.eqb chapterId "#" then (None, clk)
    else
      (Some {| sourceManga := sourceManga;
               chapterId := chapterId;
               langCode := language source;
               chapNum := chapNum;
               title := if JS.truthy chapName
                        then decodeHTMLEntities chapName else "";
               publishDate := mangaTime;
               sortingIndex := pushed + 1 |}, clk).

(** The loop over the [.chapter-item] nodes; [pushed] chapters were
    collected before [nodes]. *)
Fixpoint eachChapter (sourceManga : SourceManga) (source : Source)
    (pushed : nat) (nodes : list ChapterNode) (clk : Clock)
    : list Chapter * Clock :=
  match nodes with
  | [] => ([], clk)
  | obj :: rest =>
      match chapterOf sourceManga source pushed obj clk with
      | (Some c, clk) =>
          let (chapters, clk) := eachChapter sourceManga source (S pushed) rest clk in
          (c :: chapters, clk)
      | (None, clk) => eachChapter sourceManga source pushed rest clk
      end
  end.

(** The comparator [(a, b) => b.chapNum - a.chapNum], by its sign. *)
Definition byNumberDescending (a b : Chapter) : comparison :=
  num_sign (num_sub (chapNum b) (chapNum a)).

(** [chapters.sort(compare)]: a stable sort; [a] is put before the
    first [b] that the comparator does not order before it. *)
Fixpoint insertSorted (compare : Chapter -> Chapter -> comparison)
    (a : Chapter) (sorted : list Chapter) : list Chapter :=
  match sorted with
  | [] => [a]
  | b :: rest =>
      match compare a b with
      | Gt => b :: insertSorted compare a rest
      | _ => a :: sorted
      end
  end.

Fixpoint sort (compare : Chapter -> Chapter -> comparison)
    (chapters : list Chapter) : list Chapter :=
  match chapters with
  | [] => []
  | a :: rest => insertSorted compare a (sort compare rest)
  end.

Definition withSortingIndex (c : Chapter) (n : nat) : Chapter :=
  {| sourceManga := sourceManga c;
     chapterId := chapterId c;
     langCode := langCode c;
     chapNum := chapNum c;
     title := title c;
     publishDate := publishDate c;
     sortingIndex := n |}.

(** [chapters.forEach((chapter, index) => chapter.sortingIndex =
    chapters.length - index)], from [index] on. *)
Fixpoint reindex (len index : nat) (chapters : list Chapter) : list Chapter :=
  match chapters with
  | [] => []
  | c :: rest => withSortingIndex c (len - index) :: reindex len (S index) rest
  end.

(** [parseChapterList] on the [.chapter-item] nodes of the page. *)
Definition parseChapterList (items : list ChapterNode)
    (sourceManga : SourceManga) (source : Source) (clk : Clock)
    : list Chapter * Clock :=
  let (chapters, clk) := eachChapter sourceManga source 0 items clk in
  let chapters := sort byNumberDescending chapters in
  (reindex (length chapters) 0 chapters, clk).

(** [parseChapterDetails] *)
Definition parseChapterDetails (doc : ReaderDoc) (chapter : Chapter)
    : ChapterDetails :=
  let pages :=
    match canvases doc with
    | [] => []
    | _ =>
        let pageApiUrlBase :=
          fold_left (fun base script =>
                       match pageApiMatch (JS.orEmpty script) with
                       | Some g => g
                       | None => base
                       end)
                    (scripts doc) API_ENDPOINTS.READER_BASE in
        eachPush (fun _ canvas =>
                    match canvas with
                    | Some pageId =>
                        if JS.truthy pageId then
                          Some (if JS.startsWith pageApiUrlBase "http"
                                then pageApiUrlBase ++ pageId ++ "/"
                                else DOMAIN ++ pageApiUrlBase ++ pageId ++ "/")
                        else None
                    | None => None
                    end)
                 0 (canvases doc)
    end in
  {| details_id := chapterId chapter;
     details_mangaId := mangaId (sourceManga chapter);
     pages := pages |}.

(** The anchors that [.content-grid a[href*='/manga/']] selects. *)
Definition searchResultsOf (doc : SearchDoc) : list AnchorNode :=
  filter (fun a => match anchor_href a with
                   | Some h => JS.includes h "/manga/"
                   | None => false
                   end)
         (gridAnchors doc).

(** [parseSearchResults] *)
Definition parseSearchResults (doc : SearchDoc) : list SearchResultItem :=
  if noResults doc then []
  else
    eachPush (fun _ obj =>
                let href := JS.orEmpty (anchor_href obj) in
                let title := JS.trim (anchor_title obj) in
                let image := JS.orEmpty (anchor_img obj) in
                if negb (JS.truthy title) || negb (JS.truthy href) then None
                else
                  let mangaId := cleanMangaId href in
                  let fullImageUrl := buildFullUrl image "https://zzizz.xyz" in
                  Some {| result_mangaId := mangaId;
                          result_imageUrl := fullImageUrl;
                          result_title := decodeHTMLEntities title;
                          result_subtitle := None |})
             0 (searchResultsOf doc).

(** The subtitle that the loop over the [p] and [span] elements of a
    card finds: the first text with the word Chapter or Chapters. *)
Definition chaptersLabel (obj : ProjectCard) : option string :=
  find (chaptersTest false) (map JS.trim (project_labels obj)).

(** The item of a project card or of a general manga item. *)
Definition projectItemOf (obj : ProjectCard) : option DiscoverSectionItem :=
  let title := JS.trim (project_title obj) in
  let image := JS.orEmpty (project_img obj) in
  let href := JS.orEmpty (project_href obj) in
  let subtitle := chaptersLabel obj in
  if negb (JS.truthy title) || negb (JS.truthy href) then None
  else
    let mangaId := idCleaner href in
    let fullImageUrl :=
      if JS.startsWith image "http" then image else DOMAIN ++ image in
    Some (simpleCarouselItem mangaId fullImageUrl (decodeHTMLEntities title)
            (match subtitle with
             | Some text =>
                 if JS.truthy text then Some (decodeHTMLEntities text) else None
             | None => None
             end)).

(** The item of a card of the latest updates. *)
Definition updateItemOf (obj : UpdateCard) : option DiscoverSectionItem :=
  let title := JS.trim (update_h2 obj) in
  let image := JS.orEmpty (update_img obj) in
  let href := JS.orEmpty (update_href obj) in
  let subtitle :=
    match update_chapter obj with
    | Some text =>
        match chapterNumberMatch false (JS.trim text) with
        | Some g => Some ("Chapter " ++ g)
        | None => None
        end
    | None => None
    end in
  if negb (JS.truthy title) || negb (JS.truthy href) then None
  else
    let mangaId := cleanMangaId href in
    let fullImageUrl := buildFullUrl image DOMAIN in
    Some (simpleCarouselItem mangaId fullImageUrl (decodeHTMLEntities title)
            subtitle).

(** [parseDiscoverSections] *)
Definition parseDiscoverSections (doc : HomeDoc) (section : DiscoverSection)
    : list DiscoverSectionItem :=
  let id := discover_id section in
  if String.eqb id "latest_updates" then
    eachPush (fun _ => updateItemOf) 0 (updatesGrid doc)
  else if String.eqb id "latest_projects" then
    eachPush (fun _ => projectItemOf) 0 (projectsGrid doc)
  else if String.eqb id "trending_day" || String.eqb id "trending_week"
          || String.eqb id "trending_all" then []
  else eachPush (fun _ => projectItemOf) 0 (mangaItems doc).

End Parser.

(** The extension object, which the extension passes as [source]. *)
Definition extension : Source := {|
  domain := DOMAIN;
  language := LANGUAGE;
  defaultContentRating := MATURE;
  searchMangaSelector := ".content-grid a[href*='/manga/']";
  usePostIds := false
|}.

End Ziz.

(** ** A reference runtime

    A runtime to evaluate the parsers on concrete documents. It agrees
    with the language on the texts it is used on here: case mapping of
    ASCII and Latin-1 letters, ISO calendar dates, decimal numerals
    without exponent (as exact rationals), JSON arrays of string
    literals; entity decoding and URI encoding are the identity, as they
    are on text without ampersand and without reserved characters. *)

Module Reference.

Definition lowerUnit (c : ascii) : ascii :=
  let n := N_of_ascii c in
  if ((65 <=? n) && (n <=? 90) || (192 <=? n) && (n <=? 222) && negb (n =? 215))%N
  then ascii_of_N (n + 32) else c.

Definition upperUnit (c : ascii) : ascii :=
  let n := N_of_ascii c in
  if ((97 <=? n) && (n <=? 122) || (224 <=? n) && (n <=? 254) && negb (n =? 247))%N
  then ascii_of_N (n - 32) else c.

Fixpoint mapUnits (f : ascii -> ascii) (s : string) : string :=
  match s with
  | EmptyString => EmptyString
  | String c t => String (f c) (mapUnits f t)
  end.

(** The value of a run of decimal digits after the value [acc]. *)
Fixpoint digitsValue (acc : Z) (s : string) : Z :=
  match s with
  | EmptyString => acc
  | String c t => digitsValue (10 * acc + (Z.of_N (N_of_ascii c) - 48))%Z t
  end.

(** Days from 1970-01-01 to the civil date [y]-[m]-[d]. *)
Definition daysFromCivil (y m d : Z) : Z :=
  (let y := if m <=? 2 then y - 1 else y in
   let era := y / 400 in
   let yoe := y - era * 400 in
   let doy := (153 * (if m >? 2 then m - 3 else m + 9) + 2) / 5 + d - 1 in
   let doe := yoe * 365 + yoe / 4 - yoe / 100 + doy in
   era * 146097 + doe - 719468)%Z.

(** [YYYY-MM-DD], read as midnight UTC. *)
Definition parseIsoDate (s : string) : option Z :=
  let digits n t := (substring 0 n t, substring n (String.length t - n) t) in
  let allDigits t := forallb JS.isDigit (list_ascii_of_string t) in
  let (y, r) := digits 4 s in
  let (m, r') := digits 2 (substring 1 (String.length r - 1) r) in
  let d := substring 1 (String.length r' - 1) r' in
  if (String.length s =? 10)%nat && allDigits y && allDigits m && allDigits d
     && String.eqb (substring 0 1 r) "-" && String.eqb (substring 0 1 r') "-"
  then
    let mv := digitsValue 0 m in
    let dv := digitsValue 0 d in
    if ((1 <=? mv) && (mv <=? 12) && (1 <=? dv) && (dv <=? 31))%Z
    then Some (daysFromCivil (digitsValue 0 y) mv dv * 86400000)%Z
    else None
  else None.

(** A number: a rational, or [None] for NaN. *)
Definition num : Type := option QArith_base.Q.

Definition parseDecimal (s : string) : num :=
  let s := JS.trimStart s in
  let (neg, s) :=
    match s with
    | String c t => if Ascii.eqb c "-" then (true, t)
                    else if Ascii.eqb c "+" then (false, t) else (false, s)
    | EmptyString => (false, s)
    end in
  let (ip, r) := JS.span JS.isDigit s in
  let fp :=
    match r with
    | String c t => if Ascii.eqb c "." then fst (JS.span JS.isDigit t) else ""
    | EmptyString => ""
    end in
  if negb (JS.truthy ip) && negb (JS.truthy fp) then None
  else
    let v := QArith_base.Qmake (digitsValue 0 (ip ++ fp))
                               (Z.to_pos (10 ^ Z.of_nat (String.length fp))) in
    Some (if neg then QArith_base.Qopp v else v).

Definition lift2 (f : QArith_base.Q -> QArith_base.Q -> QArith_base.Q)
    (a b : num) : num :=
  match a, b with
  | Some x, Some y => Some (f x y)
  | _, _ => None
  end.

Definition divide (a b : num) : num :=
  match a, b with
  | Some x, Some y =>
      if QArith_base.Qeq_bool y (QArith_base.Qmake 0 1) then None
      else Some (QArith_base.Qdiv x y)
  | _, _ => None
  end.

Definition sign (a : num) : comparison :=
  match a with
  | Some x => QArith_base.Qcompare x (QArith_base.Qmake 0 1)
  | None => Eq
  end.

(** A string literal of JSON after its opening quote: the text and the
    rest after the closing quote. Escapes by [\u] are not covered. *)
Fixpoint stringLiteral (s : string) : option (string * string) :=
  match s with
  | EmptyString => None
  | String c t =>
      if Ascii.eqb c DQ then Some (EmptyString, t)
      else if Ascii.eqb c BSL then
        match t with
        | String e t' =>
            let unescaped :=
              if Ascii.eqb e DQ || Ascii.eqb e BSL || Ascii.eqb e "/" then Some e
              else if Ascii.eqb e "n" then Some (ascii_of_nat 10)
              else if Ascii.eqb e "t" then Some (ascii_of_nat 9)
              else if Ascii.eqb e "r" then Some (ascii_of_nat 13)
              else if Ascii.eqb e "b" then Some (ascii_of_nat 8)
              else if Ascii.eqb e "f" then Some (ascii_of_nat 12)
              else None in
            match unescaped, stringLiteral t' with
            | Some u, Some (v, r) => Some (String u v, r)
            | _, _ => None
            end
        | EmptyString => None
        end
      else if (N_of_ascii c <? 32)%N then None
      else
        match stringLiteral t with
        | Some (v, r) => Some (String c v, r)
        | None => None
        end
  end.

(** White space of JSON. *)
Definition jsonSpace (c : ascii) : bool :=
  let n := N_of_ascii c in ((n =? 32) || (n =? 9) || (n =? 10) || (n =? 13))%N.

(** The elements of an array of string literals after its opening
    bracket; [first] when no element was read yet. *)
Fixpoint stringElements (fuel : nat) (first : bool) (s : string)
    : option (list JSON) :=
  match fuel with
  | O => None
  | S fuel =>
      match snd (JS.span jsonSpace s) with
      | String c t =>
          if Ascii.eqb c "]" then
            if first && forallb jsonSpace (list_ascii_of_string t)
            then Some [] else None
          else if Ascii.eqb c DQ then
            match stringLiteral t with
            | Some (v, r) =>
                match snd (JS.span jsonSpace r) with
                | String d r' =>
                    if Ascii.eqb d "," then
                      match stringElements fuel false r' with
                      | Some l => Some (JString v :: l)
                      | None => None
                      end
                    else if Ascii.eqb d "]"
                            && forallb jsonSpace (list_ascii_of_string r')
                    then Some [JString v]
                    else None
                | EmptyString => None
                end
            | None => None
            end
          else None
      | EmptyString => None
      end
  end.

Definition parseStringArray (s : string) : option JSON :=
  match snd (JS.span jsonSpace s) with
  | String c t =>
      if Ascii.eqb c "[" then
        match stringElements (S (String.length t)) true t with
        | Some l => Some (JArray l)
        | None => None
        end
      else None
  | EmptyString => None
  end.

Definition runtime : Runtime := {|
  toLowerCase := mapUnits lowerUnit;
  toUpperCase := mapUnits upperUnit;
  decodeHTMLEntities := fun s => s;
  encodeURI := fun s => s;
  Date_parse := parseIsoDate;
  JSON_parse := parseStringArray;
  number := num;
  parseFloat := parseDecimal;
  isNaN := fun a => match a with Some _ => false | None => true end;
  num_of_Z := fun z => Some (QArith_base.Qmake z 1);
  num_mul := lift2 QArith_base.Qmult;
  num_div := divide;
  num_sub := lift2 QArith_base.Qminus;
  num_truthy := fun a => match sign a with Eq => false | _ => true end;
  num_sign := sign
|}.

End Reference.

(** ** The extension classes *)

(** The group of the leftmost match of [/\/manga\/([^/]+)/]. *)
Fixpoint mangaPathMatch (s : string) : option string :=
  match Ziz.groupAfter "/manga/" s with
  | Some g => Some g
  | None =>
      match s with
      | EmptyString => None
      | String _ t => mangaPathMatch t
      end
  end.

(** [cleanId] of [getMangaDetails]; the two extensions compute it with
    the same statements. Replacing the first [/manga/] of a text that
    starts with it removes that prefix. *)
Definition cleanIdOf (mangaId : string) : string :=
  if JS.startsWith mangaId "http" then
    match mangaPathMatch mangaId with
    | Some g => g
    | None => mangaId
    end
  else
    match JS.stripPrefix "/manga/" mangaId with
    | Some rest => rest
    | None => mangaId
    end.

(** The value of a search filter: the entries of an object of selections,
    in the order of [Object.entries], or a string. *)
Inductive FilterValue : Type :=
| Selection (entries : list (string * string))
| Text (value : string).

Record SearchFilterValue : Type :=
  { filter_id : string; filter_value : FilterValue }.

(** A search query; [query_sort] and [query_order] are the properties
    [sort] and [order] that the code reads off the object, the empty
    string standing for an absent one, as for the title. *)
Record SearchQuery : Type := {
  query_title : string;
  query_filters : option (list SearchFilterValue);
  query_sort : string;
  query_order : string
}.

(** [{ id, label }] of a sorting method. *)
Record SortOption : Type := { sort_id : string; sort_label : string }.

(** [{ id, value }] of a filter option. *)
Record FilterOption : Type := { option_id : string; option_value : string }.

(** The filters built for the interface. *)
Inductive SearchFilter : Type :=
| multiselect (id title : string) (options : list FilterOption)
| dropdown (id title : string) (options : list FilterOption) (value : string).

(** The genre ids selected as included, in the order of the entries. *)
Definition includedGenres (entries : list (string * string)) : list string :=
  map fst (filter (fun e => String.eqb (snd e) "included") entries).

(** The sorting value that [extractSearchParams] sends, of both
    extensions. *)
Definition orderValueOf (validSorts : list string)
    (sortingMethod : option SortOption) (query : SearchQuery) : string :=
  let orderValue :=
    match sortingMethod with
    | Some m =>
        if JS.truthy (sort_id m) then sort_id m
        else JS.or (query_sort query) (JS.or (query_order query) "")
    | None => JS.or (query_sort query) (JS.or (query_order query) "")
    end in
  if negb (existsb (String.eqb orderValue) validSorts) then "" else orderValue.

Module GalaxyActionExtension.

Module CONSTANTS.
Definition VALID_SORTS : list string :=
  [""; "title"; "titlereverse"; "update"; "latest"; "popular"].
End CONSTANTS.

(** One input of a filter with the label next to it: its value and the
    text of the label. *)
Record InputNode : Type := { input_val : option string; input_label : string }.

(** The filter inputs of the page [/manga]: genres, status and type. *)
Record FilterPage : Type := {
  genreInputs : list InputNode;
  statusInputs : list InputNode;
  typeInputs : list InputNode
}.

Record FilterOptions : Type := {
  cached_genres : list FilterOption;
  cached_status : list FilterOption;
  cached_type : list FilterOption
}.

(** The fields of the extension that [getSearchFilters] reads and writes.
    [genreIdLabelMap] lists the assignments made, the latest first, so
    that the first entry found for a key is its value. *)
Record FilterState : Type := {
  filterOptionsCache : option FilterOptions;
  genreIdLabelMap : list (string * string)
}.

Record Cookie : Type := {
  cookie_name : string;
  cookie_value : string;
  cookie_domain : string;
  cookie_path : string;
  cookie_expires : Date
}.

(** [buildSearchFilters] *)
Definition buildSearchFilters (genreOptions statusOptions typeOptions : list FilterOption)
    : list SearchFilter :=
  [ multiselect "genre" "Genre" genreOptions;
    dropdown "status" "Status" statusOptions "";
    dropdown "type" "Type" typeOptions "" ].

(** The option of a status or type input: pushed when the label is not
    empty. *)
Definition labelledOption (el : InputNode) : option FilterOption :=
  let id := JS.orEmpty (input_val el) in
  let label := JS.trim (input_label el) in
  if JS.truthy label then Some {| option_id := id; option_value := label |}
  else None.

(** The option of a genre input: pushed when id and label are not empty. *)
Definition genreOption (el : InputNode) : option FilterOption :=
  let id := JS.orEmpty (input_val el) in
  let label := JS.trim (input_label el) in
  if JS.truthy id && JS.truthy label
  then Some {| option_id := id; option_value := label |}
  else None.

(** [saveCloudflareBypassCookies]; the jar lists the cookies handed to
    [setCookie], in order. *)
Definition saveCloudflareBypassCookies (cookies jar : list Cookie) : list Cookie :=
  (jar ++ cookies)%list.

(** [injectCloudflareCookies]: the message of the error thrown, or the
    jar afterwards. [Date.now()] reads the clock. *)
Definition injectCloudflareCookies (cfClearanceValue : string)
    (jar : list Cookie) (clk : Clock) : (string + list Cookie) * Clock :=
  if negb (JS.truthy cfClearanceValue)
     || String.eqb (JS.trim cfClearanceValue) ""
  then (inl "cf_clearance value cannot be empty", clk)
  else
    let (now, clk) := newDate clk in
    let cloudflareCookie :=
      {| cookie_name := "cf_clearance";
         cookie_value := JS.trim cfClearanceValue;
         cookie_domain := "galaxyaction.net";
         cookie_path := "/";
         cookie_expires := (now + 24 * 60 * 60 * 1000)%Z |} in
    (inr (saveCloudflareBypassCookies [cloudflareCookie] jar), clk).

Section Requests.
Context {RT : Runtime}.
Variable encodeURIComponent : string -> string.

(** [getMangaDetails]; [fetch url] is the page that the request for [url]
    brings. *)
Definition getMangaDetails (fetch : string -> GalaxyAction.DetailsDoc)
    (mangaId : string) : SourceManga :=
  let cleanId := cleanIdOf mangaId in
  let url := domain GalaxyAction.extension ++ "/manga/" ++ cleanId in
  GalaxyAction.parseMangaDetails (fetch url) cleanId GalaxyAction.extension.

(** [getChapterDetails] *)
Definition getChapterDetails (fetch : string -> GalaxyAction.ReaderDoc)
    (chapter : Chapter) : ChapterDetails :=
  let url := domain GalaxyAction.extension ++ chapterId chapter in
  GalaxyAction.parseChapterDetails (fetch url) chapter.

(** The parameters that [extractSearchParams] pushes for one filter. *)
Definition filterParams (f : SearchFilterValue) : list string :=
  match filter_value f with
  | Selection entries =>
      if String.eqb (filter_id f) "genre"
      then map (fun genreId => "genre[]=" ++ encodeURIComponent genreId)
               (includedGenres entries)
      else []
  | Text value =>
      if String.eqb (filter_id f) "status" && JS.truthy value
      then ["status=" ++ encodeURIComponent value]
      else if String.eqb (filter_id f) "type" && JS.truthy value
      then ["type=" ++ encodeURIComponent value]
      else []
  end.

(** [extractSearchParams] *)
Definition extractSearchParams (query : SearchQuery)
    (sortingMethod : option SortOption) : list string :=
  let fromFilters :=
    match query_filters query with
    | Some filters => flat_map filterParams filters
    | None => []
    end in
  let fromTitle :=
    if JS.truthy (query_title query)
       && negb (String.eqb (JS.trim (query_title query)) "")
    then ["s=" ++ encodeURIComponent (JS.trim (query_title query))]
    else [] in
  let orderValue := orderValueOf CONSTANTS.VALID_SORTS sortingMethod query in
  app fromFilters (app fromTitle ["order=" ++ encodeURIComponent orderValue]).

(** [getSearchFilters]: the filters, and the fields of the extension
    afterwards. *)
Definition getSearchFilters (fetch : string -> FilterPage) (st : FilterState)
    : list SearchFilter * FilterState :=
  match filterOptionsCache st with
  | Some cache =>
      (buildSearchFilters (cached_genres cache) (cached_status cache)
                          (cached_type cache), st)
  | None =>
      let page := fetch (domain GalaxyAction.extension ++ "/manga") in
      let genreOptions := eachPush (fun _ => genreOption) 0 (genreInputs page) in
      let statusOptions := eachPush (fun _ => labelledOption) 0 (statusInputs page) in
      let typeOptions := eachPush (fun _ => labelledOption) 0 (typeInputs page) in
      let labelMap :=
        fold_left (fun m o => (toLowerCase (option_value o), option_id o) :: m)
                  genreOptions [] in
      (buildSearchFilters genreOptions statusOptions typeOptions,
       {| filterOptionsCache :=
            Some {| cached_genres := genreOptions;
                    cached_status := statusOptions;
                    cached_type := typeOptions |};
          genreIdLabelMap := labelMap |})
  end.

End Requests.

End GalaxyActionExtension.

Module ZizExtension.

Module CONSTANTS.
Definition VALID_SORTS : list string :=
  [""; "latest"; "popular"; "rating"; "name_asc"; "name_desc"].
End CONSTANTS.

Definition FALLBACK_SORT_OPTIONS : list SortOption :=
  [ {| sort_id := "latest"; sort_label := "Most Recent" |};
    {| sort_id := "popular"; sort_label := "Most Popular" |};
    {| sort_id := "rating"; sort_label := "Best Rating" |};
    {| sort_id := "name_asc"; sort_label := "Name (A-Z)" |};
    {| sort_id := "name_desc"; sort_label := "Name (Z-A)" |} ].

Definition DEFAULT_SORT_OPTIONS : list SortOption :=
  {| sort_id := ""; sort_label := "Default" |} :: FALLBACK_SORT_OPTIONS.

(** One anchor that the selector of the sorting links matches: its
    [href] and its text. *)
Record LinkNode : Type := { link_href : option string; link_text : string }.

(** The group of [/sort=([^&]+)/] at the head of [s]. *)
Definition sortParamAt (s : string) : option string :=
  match JS.stripPrefix "sort=" s with
  | Some r =>
      let g := fst (JS.span (fun c => negb (Ascii.eqb c "&")) r) in
      if JS.truthy g then Some g else None
  | None => None
  end.

(** The group of the leftmost match of that expression. *)
Fixpoint sortParamMatch (s : string) : option string :=
  match sortParamAt s with
  | Some g => Some g
  | None =>
      match s with
      | EmptyString => None
      | String _ t => sortParamMatch t
      end
  end.

Section Requests.
Context {RT : Runtime}.
Variable encodeURIComponent : string -> string.
(** [decodeURIComponent]; [None] when it throws. *)
Variable decodeURIComponent : string -> option string.

(** [getMangaDetails] *)
Definition getMangaDetails (fetch : string -> Ziz.DetailsDoc)
    (mangaId : string) : SourceManga :=
  let cleanId := cleanIdOf mangaId in
  let url := domain Ziz.extension ++ "/manga/" ++ cleanId ++ "/" in
  Ziz.parseMangaDetails (fetch url) cleanId Ziz.extension.

(** The parameters that [extractSearchParams] pushes for one filter. *)
Definition filterParams (f : SearchFilterValue) : list string :=
  match filter_value f with
  | Selection entries =>
      if String.eqb (filter_id f) "genre"
      then map (fun genreId => "genre=" ++ encodeURIComponent genreId)
               (includedGenres entries)
      else []
  | Text _ => []
  end.

(** [extractSearchParams] *)
Definition extractSearchParams (query : SearchQuery)
    (sortingMethod : option SortOption) : list string :=
  let fromFilters :=
    match query_filters query with
    | Some filters => flat_map filterParams filters
    | None => []
    end in
  let fromTitle :=
    if JS.truthy (query_title query)
       && negb (String.eqb (JS.trim (query_title query)) "")
    then ["q=" ++ encodeURIComponent (JS.trim (query_title query))]
    else [] in
  let orderValue := orderValueOf CONSTANTS.VALID_SORTS sortingMethod query in
  app fromFilters (app fromTitle ["sort=" ++ encodeURIComponent orderValue]).

(** [mapSortLabelToId] *)
Definition mapSortLabelToId (label : string) : string :=
  let labelLower := toLowerCase label in
  if JS.includes labelLower "most recent" || JS.includes labelLower "recent"
  then "latest"
  else if JS.includes labelLower "most popular" || JS.includes labelLower "popular"
  then "popular"
  else if JS.includes labelLower "best rating" || JS.includes labelLower "rating"
  then "rating"
  else if JS.includes labelLower "name (a-z)" || JS.includes labelLower "a-z"
  then "name_asc"
  else if JS.includes labelLower "name (z-a)" || JS.includes labelLower "z-a"
  then "name_desc"
  else JS.replaceSpaces "-" false (toLowerCase label).

(** The callback of the loop over the sorting links: [None] when it
    throws, and otherwise the option it pushes, if any. *)
Definition sortOptionOf (el : LinkNode) : option (option SortOption) :=
  let href := JS.orEmpty (link_href el) in
  let label := JS.trim (link_text el) in
  let id :=
    if JS.includes href "sort=" then
      match sortParamMatch href with
      | Some g => decodeURIComponent g
      | None => Some (mapSortLabelToId label)
      end
    else Some (mapSortLabelToId label) in
  match id with
  | None => None
  | Some id =>
      Some (if JS.truthy label && negb (String.eqb label "Sort By")
            then Some {| sort_id := id; sort_label := label |}
            else None)
  end.

(** The loop: [None] when a callback throws. *)
Fixpoint eachSortOption (els : list LinkNode) : option (list SortOption) :=
  match els with
  | [] => Some []
  | el :: rest =>
      match sortOptionOf el with
      | None => None
      | Some pushed =>
          match eachSortOption rest with
          | None => None
          | Some options =>
              Some (match pushed with
                    | Some o => o :: options
                    | None => options
                    end)
          end
      end
  end.

(** [getSortingOptions]: the options, and [sortingOptionsCache]
    afterwards. [fetch url] is [None] when the request throws. *)
Definition getSortingOptions (fetch : string -> option (list LinkNode))
    (sortingOptionsCache : option (list SortOption))
    : list SortOption * option (list SortOption) :=
  match sortingOptionsCache with
  | Some cached => (cached, sortingOptionsCache)
  | None =>
      match fetch (domain Ziz.extension ++ "/mangas/") with
      | None => (DEFAULT_SORT_OPTIONS, None)
      | Some els =>
          match eachSortOption els with
          | None => (DEFAULT_SORT_OPTIONS, None)
          | Some found =>
              let sortingOptions :=
                match found with
                | [] => FALLBACK_SORT_OPTIONS
                | _ => found
                end in
              (sortingOptions, Some sortingOptions)
          end
      end
  end.

End Requests.

End ZizExtension.

(** ** Vocabulary of the statements *)

(** Some code unit of [s] is not a slash. *)
Fixpoint nonSlash (s : string) : bool :=
  match s with
  | EmptyString => false
  | String c t => negb (Ascii.eqb c "/") || nonSlash t
  end.

(** A URL with a path segment: before any question mark stands a code
    unit other than a slash. Every absolute URL and every path to a manga
    page has one. *)
Fixpoint hasSegment (url : string) : bool :=
  match url with
  | EmptyString => false
  | String c t =>
      if Ascii.eqb c "?" then false
      else if Ascii.eqb c "/" then hasSegment t
      else true
  end.

(** A slug: a non-empty text without slash and without question mark. *)
Definition slug (r : string) : Prop :=
  JS.truthy r = true /\ JS.mem "/" r = false /\ JS.mem "?" r = false.

(** Every code unit of [s] is white space; so for the empty string. *)
Fixpoint onlyWhiteSpace (s : string) : bool :=
  match s with
  | EmptyString => true
  | String c t => JS.isWhiteSpace c && onlyWhiteSpace t
  end.

(** The items that [f] yields on [nodes], in the order of the nodes. *)
Definition yielded {A B : Type} (f : A -> option B) (nodes : list A) : list B :=
  flat_map (fun a => match f a with Some b => [b] | None => [] end) nodes.

(** The rating [r] of the keywords, by an adult and a mature set:
    [ADULT] iff a keyword is in the adult set, [MATURE] iff none is and a
    keyword is in the mature set, [EVERYONE] otherwise. *)
Definition ratedBy (adult mature keywords : list string) (r : ContentRating) : Prop :=
  let hit set := exists k, In k keywords /\ In k set in
  (r = ADULT <-> hit adult)
  /\ (r = MATURE <-> ~ hit adult /\ hit mature)
  /\ (r = EVERYONE <-> ~ hit adult /\ ~ hit mature).

(** The keyword sets written out in [parseMangaDetails] of GalaxyAction. *)
Definition galaxyAdult : list string := ["adult"; "18+"; "nsfw"].
Definition galaxyMature : list string := ["mature"; "ecchi"].

(** [s] lies in none of the four buckets of [STATUS_MAPPING]. *)
Definition unmapped (s : string) : Prop :=
  ~ In s Ziz.STATUS_MAPPING.ONGOING /\ ~ In s Ziz.STATUS_MAPPING.COMPLETED
  /\ ~ In s Ziz.STATUS_MAPPING.HIATUS /\ ~ In s Ziz.STATUS_MAPPING.CANCELLED.

(** [n], [n - 1], ..., [1]. *)
Fixpoint countdown (n : nat) : list nat :=
  match n with
  | O => []
  | S m => n :: countdown m
  end.

(** The positions, counted from [i], of the nodes that [good] accepts. *)
Fixpoint keptPositions {A : Type} (good : A -> bool) (i : nat) (nodes : list A)
    : list nat :=
  match nodes with
  | [] => []
  | a :: rest =>
      if good a then i :: keptPositions good (S i) rest
      else keptPositions good (S i) rest
  end.

(** The entries that [parseChapterList] of GalaxyAction keeps: the href
    is present and not empty, does not begin with a hash sign, and holds
    neither of the two placeholder marks. *)
Definition galaxyKeeps (obj : GalaxyAction.ChapterNode) : bool :=
  let href := JS.orEmpty (GalaxyAction.chapter_href obj) in
  JS.truthy href && negb (JS.startsWith href "#")
  && negb (JS.includes href "{{") && negb (JS.includes href "}}").

(** The entries that [parseChapterList] of Ziz keeps: the href is present
    and not empty and does not begin with a hash sign. *)
Definition zizKeeps (obj : Ziz.ChapterNode) : bool :=
  let href := JS.orEmpty (Ziz.chapter_href obj) in
  JS.truthy href && negb (JS.startsWith href "#").

(** The entries that the specification excludes: the href is absent or
    empty, is a hash sign, or holds one of the two placeholder marks. *)
Definition specExcludes (href : option string) : bool :=
  let h := JS.orEmpty href in
  String.eqb h "" || String.eqb h "#" || JS.includes h "{{" || JS.includes h "}}".

Section Undated.
Context {RT : Runtime}.

(** A chapter with its [publishDate] blanked. *)
Definition undated (c : Chapter) : Chapter :=
  {| sourceManga := sourceManga c;
     chapterId := chapterId c;
     langCode := langCode c;
     chapNum := chapNum c;
     title := title c;
     publishDate := 0%Z;
     sortingIndex := sortingIndex c |}.

(** The chapter that [parseChapterList] of GalaxyAction pushes for the
    entry [obj] at position [i] of [total], dated [t]. *)
Definition galaxyChapter (sm : SourceManga) (source : Source) (total i : nat)
    (obj : GalaxyAction.ChapterNode) (t : Date) : Chapter :=
  let id := GalaxyAction.chapterIdOf (JS.orEmpty (GalaxyAction.chapter_href obj)) in
  let name := JS.trim (GalaxyAction.chapternum obj) in
  {| sourceManga := sm;
     chapterId := id;
     langCode := language source;
     chapNum := parseFloat (GalaxyAction.chapNumText id);
     title := if JS.truthy name then decodeHTMLEntities name else "";
     publishDate := t;
     sortingIndex := total - i |}.

(** The chapter that the loop of [parseChapterList] of Ziz pushes for the
    entry [obj], as the chapter number [n], dated [t]. *)
Definition zizChapter (sm : SourceManga) (source : Source) (n : nat)
    (obj : Ziz.ChapterNode) (t : Date) : Chapter :=
  let id := Ziz.chapterIdOf (JS.orEmpty (Ziz.chapter_href obj)) in
  let found := Ziz.extractChapterNumber (JS.trim (Ziz.chapter_h3 obj)) id in
  {| sourceManga := sm;
     chapterId := id;
     langCode := language source;
     chapNum := fst found;
     title := if JS.truthy (snd found) then decodeHTMLEntities (snd found) else "";
     publishDate := t;
     sortingIndex := n + 1 |}.

(** A date text that [parseDate] of GalaxyAction reads without looking
    at the clock: not empty, with neither [ago] nor [just now], and
    parsed by [Date]. *)
Definition galaxyDated (obj : GalaxyAction.ChapterNode) : Prop :=
  let text := JS.trim (GalaxyAction.chapterdate obj) in
  text <> ""
  /\ JS.includes (JS.trim text) "ago" = false
  /\ JS.includes (JS.trim text) "just now" = false
  /\ exists t, Date_parse (JS.trim text) = Some t.

(** The date that the callback of Ziz reads for an entry. *)
Definition zizDate (obj : Ziz.ChapterNode) (clk : Clock) : Date * Clock :=
  Ziz.parseRelativeDate
    (JS.orEmpty (Ziz.relativeDateMatch (JS.trim (Ziz.chapter_date obj)))) clk.

(** [parseChapterList] of Ziz after its loop: the sort and the new
    indices. *)
Definition sortedAndNumbered (chapters : list Chapter) : list Chapter :=
  let sorted := Ziz.sort Ziz.byNumberDescending chapters in
  Ziz.reindex (length sorted) 0 sorted.

End Undated.

(** Two clocks with the same readings. *)
Definition sameReadings (clk1 clk2 : Clock) : Prop := forall n, clk1 n = clk2 n.

(** The date that the text of a GalaxyAction entry gives by itself: none
    when the text is empty, holds [ago] or [just now], or is not parsed
    by [Date]. *)
Definition galaxyOwnDate {RT : Runtime} (obj : GalaxyAction.ChapterNode)
    : option Date :=
  let text := JS.trim (GalaxyAction.chapterdate obj) in
  if JS.truthy text && negb (JS.includes (JS.trim text) "ago")
     && negb (JS.includes (JS.trim text) "just now")
  then Date_parse (JS.trim text)
  else None.

(** The same for a Ziz entry, whose date is read from the part of the
    text that has the form of a relative date: none when there is no
    such part or [Date] does not parse it. *)
Definition zizOwnDate {RT : Runtime} (obj : Ziz.ChapterNode) : option Date :=
  let text := JS.orEmpty (Ziz.relativeDateMatch (JS.trim (Ziz.chapter_date obj))) in
  if JS.truthy text then Date_parse text else None.

(** The dates of a list of entries: its own date for an entry that has
    one, and for the others the readings of the clock in turn, from the
    reading [n] on. *)
Fixpoint stamped (own : list (option Date)) (clk : Clock) (n : nat) : list Date :=
  match own with
  | [] => []
  | Some t :: rest => t :: stamped rest clk n
  | None :: rest => clk n :: stamped rest clk (S n)
  end.

(** The id of a chapter with its date. *)
Definition dated {RT : Runtime} (c : Chapter) : string * Date :=
  (chapterId c, publishDate c).

(** A GalaxyAction entry with the date text [text]. *)
Definition galaxyEntry (n : nat) (text : string) : GalaxyAction.ChapterNode :=
  {| GalaxyAction.chapter_href :=
       Some ("/solo-chapter-" ++ GalaxyAction.decimal n ++ "/");
     GalaxyAction.chapternum := "Chapter " ++ GalaxyAction.decimal n;
     GalaxyAction.chapterdate := text |}.

(** Four GalaxyAction entries: the first and the last without a date of
    their own, the second with one, the third dropped. *)
Definition galaxyMixed : list GalaxyAction.ChapterNode :=
  [ galaxyEntry 4 "3 hours ago";
    galaxyEntry 3 "1970-01-02";
    {| GalaxyAction.chapter_href := Some "#";
       GalaxyAction.chapternum := "Chapter 2";
       GalaxyAction.chapterdate := "" |};
    galaxyEntry 1 "" ].

(** A clock that reads 100, 101, 102, ... *)
Definition ticking : Clock := fun n => (100 + Z.of_nat n)%Z.

(** The literals of [urls] between quotes [q], separated by a comma and
    the white space [gap]. *)
Fixpoint joined (q : ascii) (gap : string) (urls : list string) : string :=
  match urls with
  | [] => ""
  | [u] => quoted q u
  | u :: rest => quoted q u ++ "," ++ gap ++ joined q gap rest
  end.

(** The text of an array of [urls]: between quotes [q], with the white
    space [gap] after the commas and, when [trailing] is [Some tail],
    with a comma and the white space [tail] after the last element. With
    double quotes and no trailing comma it is the well-formed array. *)
Definition imageArray (q : ascii) (trailing : option string) (gap : string)
    (urls : list string) : string :=
  "[" ++ joined q gap urls
      ++ match trailing with Some tail => "," ++ tail | None => "" end
      ++ "]".

(** A URL as it can stand between quotes of either kind in the text that
    the expression for the array matches: with no quote and no closing
    bracket. *)
Definition plainUrl (u : string) : Prop :=
  JS.mem DQ u = false /\ JS.mem SQ u = false /\ JS.mem "]" u = false.

(** The text that [extractImagesFromScript] takes for the array:
    [imagesMatch[1]]. *)
Definition matchedImages (doc : GalaxyAction.ReaderDoc) : option string :=
  match find (fun script => JS.includes script "ts_reader.run")
             (map JS.orEmpty (GalaxyAction.scripts doc)) with
  | Some scriptContent => GalaxyAction.imagesRegex scriptContent
  | None => None
  end.

(** *** Sample documents *)

(** A GalaxyAction manga page on which every selector comes up empty. *)
Definition blankGalaxyDetails : GalaxyAction.DetailsDoc := {|
  GalaxyAction.entryTitle := "";
  GalaxyAction.authorLink := "";
  GalaxyAction.artistLink := "";
  GalaxyAction.description := "";
  GalaxyAction.thumbSrc := None;
  GalaxyAction.statusImptdt := "";
  GalaxyAction.mgen := [];
  GalaxyAction.ratingValue := None;
  GalaxyAction.numscore := None
|}.

(** The same for Ziz. *)
Definition blankZizDetails : Ziz.DetailsDoc := {|
  Ziz.h1 := "";
  Ziz.authorLink := "";
  Ziz.artistLink := "";
  Ziz.prose := "";
  Ziz.coverSrc := None;
  Ziz.statusParagraph := "";
  Ziz.genreSpans := [];
  Ziz.headerRating := ""
|}.

(** A GalaxyAction listing whose only card links to the root of the
    site. *)
Definition rootCardListing : GalaxyAction.ListingDoc :=
  fun selector =>
    if String.eqb selector ".bsx"
    then [ {| GalaxyAction.card_href := Some "/";
              GalaxyAction.card_tt := "Home";
              GalaxyAction.card_img := None;
              GalaxyAction.card_epxs := "" |} ]
    else [].

(** A Ziz search page whose only anchor is a link relative to the
    current page, made of a query string alone. *)
Definition queryAnchorSearch : Ziz.SearchDoc := {|
  Ziz.noResults := false;
  Ziz.gridAnchors :=
    [ {| Ziz.anchor_href := Some "?from=/manga/solo";
         Ziz.anchor_title := "Solo";
         Ziz.anchor_img := None |} ]
|}.

(** A GalaxyAction manga page with the status text [st] and the one
    genre [genre]. *)
Definition galaxyPage (st genre : string) : GalaxyAction.DetailsDoc := {|
  GalaxyAction.entryTitle := "Title";
  GalaxyAction.authorLink := "";
  GalaxyAction.artistLink := "";
  GalaxyAction.description := "";
  GalaxyAction.thumbSrc := None;
  GalaxyAction.statusImptdt := st;
  GalaxyAction.mgen :=
    [ {| GalaxyAction.genre_text := genre;
         GalaxyAction.genre_href := Some "https://galaxyaction.net/genres/tag/" |} ];
  GalaxyAction.ratingValue := None;
  GalaxyAction.numscore := None
|}.

(** A Ziz manga page with the status text [st] and the one genre
    [genre]. *)
Definition zizPage (st genre : string) : Ziz.DetailsDoc := {|
  Ziz.h1 := "Title";
  Ziz.authorLink := "";
  Ziz.artistLink := "";
  Ziz.prose := "";
  Ziz.coverSrc := None;
  Ziz.statusParagraph := st;
  Ziz.genreSpans := [genre];
  Ziz.headerRating := ""
|}.



(** Three GalaxyAction chapter entries, the second with a hash sign for
    href. *)
Definition galaxyThree : list GalaxyAction.ChapterNode :=
  [ {| GalaxyAction.chapter_href := Some "/solo-chapter-3/";
       GalaxyAction.chapternum := "Chapter 3";
       GalaxyAction.chapterdate := "2024-01-05" |};
    {| GalaxyAction.chapter_href := Some "#";
       GalaxyAction.chapternum := "Chapter 2";
       GalaxyAction.chapterdate := "2024-01-04" |};
    {| GalaxyAction.chapter_href := Some "/solo-chapter-1/";
       GalaxyAction.chapternum := "Chapter 1";
       GalaxyAction.chapterdate := "2024-01-03" |} ].

(** Five GalaxyAction chapter entries, the fourth a template row. *)
Definition galaxyFive : list GalaxyAction.ChapterNode :=
  map (fun i =>
         {| GalaxyAction.chapter_href :=
              Some (if (i =? 4)%nat then "{{link}}"
                    else "/solo-chapter-" ++ GalaxyAction.decimal i ++ "/");
            GalaxyAction.chapternum := "Chapter " ++ GalaxyAction.decimal i;
            GalaxyAction.chapterdate := "2024-01-05" |})
      (seq 1 5).

(** Five Ziz chapter entries, the second without href. *)
Definition zizFive : list Ziz.ChapterNode :=
  map (fun i =>
         {| Ziz.chapter_href :=
              if (i =? 2)%nat then None
              else Some ("/reader/manga/solo/" ++ GalaxyAction.decimal i ++ "/");
            Ziz.chapter_h3 := "Chapter " ++ GalaxyAction.decimal i;
            Ziz.chapter_date := "3 days ago" |})
      (seq 1 5).

(** Four GalaxyAction chapter entries, all of them with a good href. *)
Definition galaxyFour : list GalaxyAction.ChapterNode :=
  map (fun i =>
         {| GalaxyAction.chapter_href :=
              Some ("/solo-chapter-" ++ GalaxyAction.decimal (5 - i) ++ "/");
            GalaxyAction.chapternum := "Chapter " ++ GalaxyAction.decimal (5 - i);
            GalaxyAction.chapterdate := "2024-01-05" |})
      (seq 1 4).

(** One GalaxyAction entry whose href begins with a hash sign. *)
Definition galaxyFragment : list GalaxyAction.ChapterNode :=
  [ {| GalaxyAction.chapter_href := Some "#comments";
       GalaxyAction.chapternum := "Chapter 1";
       GalaxyAction.chapterdate := "" |} ].

(** One Ziz entry whose href holds a placeholder. *)
Definition zizTemplate : list Ziz.ChapterNode :=
  [ {| Ziz.chapter_href := Some "/reader/manga/solo/{{chapter}}/";
       Ziz.chapter_h3 := "Chapter {{chapter}}";
       Ziz.chapter_date := "" |} ].

(** One entry per site with a date text that is not an absolute date: on
    GalaxyAction it holds [ago], on Ziz it has no relative date of the
    expected form, so that no text is handed to [Date]. *)
Definition galaxyRelative : list GalaxyAction.ChapterNode :=
  [ {| GalaxyAction.chapter_href := Some "/solo-chapter-1/";
       GalaxyAction.chapternum := "Chapter 1";
       GalaxyAction.chapterdate := "2 days ago" |} ].

Definition zizRelative : list Ziz.ChapterNode :=
  [ {| Ziz.chapter_href := Some "/reader/manga/solo/1/";
       Ziz.chapter_h3 := "Chapter 1";
       Ziz.chapter_date := "yesterday" |} ].

(** The manga that the sample chapter lists belong to. *)
Definition sampleManga : SourceManga (RT := Reference.runtime) :=
  GalaxyAction.parseMangaDetails blankGalaxyDetails "solo" GalaxyAction.extension.

(** A clock that stands still at [t]. *)
Definition stoppedAt (t : Date) : Clock := fun _ => t.

(** A reader page whose script calls [ts_reader.run] with the array
    text [array] for images. *)
Definition readerPage (array : string) : GalaxyAction.ReaderDoc := {|
  GalaxyAction.scripts :=
    [ None;
      Some ("ts_reader.run({" ++ quoted DQ "sources" ++ ":[{"
            ++ quoted DQ "images" ++ ":" ++ array ++ "}]});") ];
  GalaxyAction.readerarea := []
|}.

Definition sampleUrls : list string :=
  ["https://cdn.example/solo/1.jpg"; "https://cdn.example/solo/2.jpg"].

(** Two URLs of which the second holds brackets. *)
Definition bracketUrls : list string :=
  ["https://cdn.example/solo/1.jpg"; "https://cdn.example/solo/a[2].jpg"].

(** The sorting id that a search asks for: the id of the sorting method
    when there is one and it is not empty, and otherwise the property
    [sort] of the query or, when that is empty, its property [order]. *)
Definition requestedSort (sortingMethod : option SortOption)
    (query : SearchQuery) : string :=
  match sortingMethod with
  | Some m =>
      if JS.truthy (sort_id m) then sort_id m
      else JS.or (query_sort query) (query_order query)
  | None => JS.or (query_sort query) (query_order query)
  end.

(** What may follow the slug in the address of a manga page: nothing,
    or a slash and more. *)
Definition pathRest (rest : string) : bool :=
  match rest with
  | EmptyString => true
  | String c _ => Ascii.eqb c "/"
  end.

(** The filters that successive calls of [getSearchFilters] return, the
    site answering the call number [i] with the element [i] of
    [fetches]. *)
Fixpoint filterRuns {RT : Runtime}
    (fetches : list (string -> GalaxyActionExtension.FilterPage))
    (st : GalaxyActionExtension.FilterState) : list (list SearchFilter) :=
  match fetches with
  | [] => []
  | fetch :: rest =>
      let (filters, st) := GalaxyActionExtension.getSearchFilters fetch st in
      filters :: filterRuns rest st
  end.

(** The options that successive calls of [getSortingOptions] of Ziz
    return, likewise. *)
Fixpoint sortingRuns {RT : Runtime} (decodeURIComponent : string -> option string)
    (fetches : list (string -> option (list ZizExtension.LinkNode)))
    (cache : option (list SortOption)) : list (list SortOption) :=
  match fetches with
  | [] => []
  | fetch :: rest =>
      let (options, cache) :=
        ZizExtension.getSortingOptions decodeURIComponent fetch cache in
      options :: sortingRuns decodeURIComponent rest cache
  end.

(** A sorting link whose [sort=] parameter [decodeURIComponent] throws
    on. *)
Definition undecodable (decodeURIComponent : string -> option string)
    (el : ZizExtension.LinkNode) : bool :=
  let href := JS.orEmpty (ZizExtension.link_href el) in
  JS.includes href "sort="
  && match ZizExtension.sortParamMatch href with
     | Some g =>
         match decodeURIComponent g with
         | Some _ => false
         | None => true
         end
     | None => false
     end.

(** A link that gives no sorting option: its text is blank or is the
    heading [Sort By]. *)
Definition unlabelled (el : ZizExtension.LinkNode) : bool :=
  let label := JS.trim (ZizExtension.link_text el) in
  negb (JS.truthy label) || String.eqb label "Sort By".

(** Options that are some, each with a label. *)
Definition labelled (options : list SortOption) : Prop :=
  options <> [] /\ Forall (fun o => sort_label o <> "") options.

(** The fields that the three kinds of items have in common. *)
Definition item_mangaId (item : DiscoverSectionItem) : string :=
  match item with
  | featuredCarouselItem mangaId _ _ _ => mangaId
  | prominentCarouselItem mangaId _ _ _ => mangaId
  | simpleCarouselItem mangaId _ _ _ => mangaId
  end.

Definition item_imageUrl (item : DiscoverSectionItem) : string :=
  match item with
  | featuredCarouselItem _ imageUrl _ _ => imageUrl
  | prominentCarouselItem _ imageUrl _ _ => imageUrl
  | simpleCarouselItem _ imageUrl _ _ => imageUrl
  end.

Definition item_title (item : DiscoverSectionItem) : string :=
  match item with
  | featuredCarouselItem _ _ title _ => title
  | prominentCarouselItem _ _ title _ => title
  | simpleCarouselItem _ _ title _ => title
  end.

(** The sections whose items [parseDiscoverSections] of GalaxyAction
    builds. *)
Definition isCarousel (type : DiscoverSectionType) : bool :=
  match type with
  | featured | prominentCarousel | simpleCarousel => true
  | _ => false
  end.

(** A reader page without the script of the reader, with one image in
    the reader area. *)
Definition readerWithoutScript : GalaxyAction.ReaderDoc := {|
  GalaxyAction.scripts := [ None; Some "window.dataLayer = [];" ];
  GalaxyAction.readerarea :=
    [ {| GalaxyAction.img_src := Some "https://cdn.example/solo/1.jpg";
         GalaxyAction.img_data_src := None |} ]
|}.

(** A listing with two cards, the second without title. *)
Definition twoCardListing : GalaxyAction.ListingDoc :=
  fun _ =>
    [ {| GalaxyAction.card_href := Some "https://galaxyaction.net/manga/solo-leveling/";
         GalaxyAction.card_tt := " Solo Leveling ";
         GalaxyAction.card_img := Some "https://cdn.example/solo.jpg";
         GalaxyAction.card_epxs := "Chapter 200" |};
      {| GalaxyAction.card_href := Some "https://galaxyaction.net/manga/untitled/";
         GalaxyAction.card_tt := "  ";
         GalaxyAction.card_img := None;
         GalaxyAction.card_epxs := "" |} ].

Definition featuredSection : DiscoverSection :=
  {| discover_id := "currently_trending";
     discover_title := "Trending";
     discover_type := featured |}.

(** A chapter of the sample manga. *)
Definition sampleChapter : Chapter (RT := Reference.runtime) := {|
  sourceManga := sampleManga;
  chapterId := "/solo-chapter-1/";
  langCode := "en";
  chapNum := @num_of_Z Reference.runtime 1;
  title := "Chapter 1";
  publishDate := 0%Z;
  sortingIndex := 1
|}.

(** The order that the comparator of Ziz leaves alone: no chapter is
    to be moved behind the one that follows it. *)
Definition listedDescending {RT : Runtime} (chapters : list Chapter) : Prop :=
  Sorted (fun a b => Ziz.byNumberDescending a b <> Gt) chapters.

(** Three Ziz entries from the newest down, the second a fragment
    link. *)
Definition zizNewestFirst : list Ziz.ChapterNode :=
  [ {| Ziz.chapter_href := Some "/reader/manga/solo/12/";
       Ziz.chapter_h3 := "Chapter 12";
       Ziz.chapter_date := "" |};
    {| Ziz.chapter_href := Some "#";
       Ziz.chapter_h3 := "Chapter 11";
       Ziz.chapter_date := "" |};
    {| Ziz.chapter_href := Some "https://zzizz.xyz/reader/manga/solo/7";
       Ziz.chapter_h3 := "Chapter 7";
       Ziz.chapter_date := "" |};
    {| Ziz.chapter_href := Some "/reader/manga/solo/7/";
       Ziz.chapter_h3 := "Chapter 7";
       Ziz.chapter_date := "" |} ].

(** [http://] or [https://]. *)
Definition scheme (secure : bool) : string :=
  if secure then "https://" else "http://".

(** A numeral: one or more digits. *)
Definition numeral (g : string) : Prop :=
  g <> "" /\ forall c, JS.mem c g = true -> JS.isDigit c = true.

(** An address that is absolute, as far as the parsers look: it starts
    with [http]. *)
Definition absolute (url : string) : Prop := JS.startsWith url "http" = true.

(** The tag that [parseMangaDetails] of GalaxyAction filters out. *)
Definition debugTag : Tag := {| tag_id := "debug"; tag_title := "DEBUG" |}.

(** The tags of the result, which has the one group of genres. *)
Definition genreTags {RT : Runtime} (manga : SourceManga) : list Tag :=
  flat_map tags (tagGroups (mangaInfo manga)).

(** A numeral of the chapter expression: digits, then optionally a dot,
    optionally one digit more, and optionally a hyphen or an underscore
    with digits. *)
Definition chapterNumeral (g : string) : Prop :=
  exists d dot d2 tail,
    g = d ++ dot ++ d2 ++ tail
    /\ numeral d
    /\ (dot = "" \/ dot = ".")
    /\ (d2 = "" \/ exists c, d2 = String c "" /\ JS.isDigit c = true)
    /\ (tail = ""
        \/ exists sep d3, tail = String sep d3
                          /\ (sep = "-"%char \/ sep = "_"%char) /\ numeral d3).

(** A text without digits and without line terminators. *)
Definition plainText (s : string) : Prop :=
  forall c, JS.mem c s = true ->
            JS.isDigit c = false /\ JS.isLineTerminator c = false.

(** A text with its ASCII letters in lower case, as an expression with
    the flag [i] compares it. *)
Fixpoint folded (s : string) : string :=
  match s with
  | EmptyString => EmptyString
  | String c t => String (JS.foldCase c) (folded t)
  end.

(** No code unit of [s] is the letter [letter], in either case. *)
Definition without (letter : ascii) (s : string) : Prop :=
  forall c, JS.mem c s = true -> JS.foldCase c <> letter.

(** What may follow a numeral, for the numeral to end there: nothing, or
    a code unit that is not a digit. *)
Definition endsNumeral (after : string) : bool :=
  match after with
  | EmptyString => true
  | String c _ => negb (JS.isDigit c)
  end.

(** * Properties *)

(** ** Facts about the string built-ins *)

Module JSFacts.
Import JS.

Lemma truthy_true (s : string) : truthy s = true <-> s <> "".
Proof.
  unfold truthy. destruct (String.eqb_spec s ""); simpl; split; congruence.
Qed.

Lemma truthy_false (s : string) : truthy s = false <-> s = "".
Proof.
  unfold truthy. destruct (String.eqb_spec s ""); simpl; split; congruence.
Qed.

Lemma append_assoc (s t u : string) : (s ++ t) ++ u = s ++ (t ++ u).
Proof. induction s as [|c s IH]; simpl; [reflexivity|now rewrite IH]. Qed.

Lemma append_empty_r (s : string) : s ++ "" = s.
Proof. induction s as [|c s IH]; simpl; [reflexivity|now rewrite IH]. Qed.

Lemma mem_app (c : ascii) (s t : string) : mem c (s ++ t) = mem c s || mem c t.
Proof.
  induction s as [|d s IH]; simpl; [reflexivity|].
  now rewrite IH, orb_assoc.
Qed.

Lemma includes_unit (c : ascii) (s : string) :
  includes s (String c "") = mem c s.
Proof.
  induction s as [|d s IH]; simpl; [reflexivity|].
  rewrite IH. destruct (ascii_dec c d) as [->|ne].
  - rewrite Ascii.eqb_refl. now destruct s.
  - destruct (Ascii.eqb_spec d c); [congruence|reflexivity].
Qed.

Lemma endsWith_unit (c : ascii) (s : string) :
  mem c s = false -> endsWith s (String c "") = false.
Proof.
  induction s as [|d s IH]; simpl; [reflexivity|].
  intros H. apply orb_false_iff in H as [Hd Hs].
  rewrite (IH Hs), Hd. reflexivity.
Qed.

Lemma split_not_nil (c : ascii) (s : string) : split c s <> [].
Proof.
  destruct s as [|d s]; simpl; [discriminate|].
  destruct (Ascii.eqb d c); [discriminate|].
  destruct (split c s); discriminate.
Qed.

(** Without separator the text is its only part. *)
Lemma split_none (c : ascii) (s : string) : mem c s = false -> split c s = [s].
Proof.
  induction s as [|d s IH]; simpl; [reflexivity|].
  intros H. apply orb_false_iff in H as [Hd Hs].
  now rewrite Hd, (IH Hs).
Qed.

(** No part holds the separator, and a part holds only code units of the
    text. *)
Lemma split_parts (c : ascii) (s x : string) :
  In x (split c s) ->
  mem c x = false /\ forall d, mem d x = true -> mem d s = true.
Proof.
  revert x. induction s as [|e s IH]; simpl; intros x Hx.
  - destruct Hx as [<-|[]]. split; [reflexivity|discriminate].
  - destruct (Ascii.eqb e c) eqn:E.
    + destruct Hx as [<-|Hx].
      * split; [reflexivity|discriminate].
      * destruct (IH _ Hx) as [H1 H2]. split; [exact H1|].
        intros d Hd. rewrite (H2 _ Hd). apply orb_true_r.
    + destruct (split c s) as [|h r] eqn:S.
      * now destruct (split_not_nil c s).
      * destruct Hx as [<-|Hx].
        -- destruct (IH h (or_introl eq_refl)) as [H1 H2]. split.
           ++ simpl. now rewrite E, H1.
           ++ intros d. simpl. intros Hd. apply orb_true_iff in Hd as [Hd|Hd].
              ** now rewrite Hd.
              ** rewrite (H2 _ Hd). apply orb_true_r.
        -- destruct (IH x (or_intror Hx)) as [H1 H2]. split; [exact H1|].
           intros d Hd. rewrite (H2 _ Hd). apply orb_true_r.
Qed.

Lemma hd_split_in (c : ascii) (s : string) : In (hd "" (split c s)) (split c s).
Proof.
  destruct (split c s) eqn:S; [now destruct (split_not_nil c s)|now left].
Qed.

(** The last part after a separator that is followed by none. *)
Lemma split_app_last (c : ascii) (s t d : string) :
  mem c t = false -> last (split c (s ++ String c t)) d = t.
Proof.
  intros Ht. induction s as [|e s IH]; simpl.
  - rewrite Ascii.eqb_refl, (split_none _ _ Ht). reflexivity.
  - destruct (Ascii.eqb e c).
    + destruct (split c (s ++ String c t)) eqn:S;
        [now destruct (split_not_nil c (s ++ String c t))|exact IH].
    + destruct (split c (s ++ String c t)) as [|h r] eqn:S;
        [now destruct (split_not_nil c (s ++ String c t))|].
      destruct r; [|exact IH].
      simpl in IH. subst h.
      (* the single part would hold the separator *)
      assert (In t (split c (s ++ String c t))) as Hin by (rewrite S; now left).
      assert (split c (s ++ String c t) = [t]) as S' by exact S.
      exfalso.
      assert (forall u v, length (split c (u ++ String c v)) >= 2)%nat as L.
      { clear. induction u as [|a u IHu]; intros v; simpl.
        - rewrite Ascii.eqb_refl. simpl.
          destruct (split c v) eqn:S; [now destruct (split_not_nil c v)|simpl; lia].
        - destruct (Ascii.eqb a c); simpl.
          + specialize (IHu v). lia.
          + specialize (IHu v). destruct (split c (u ++ String c v)); simpl in *; lia. }
      specialize (L s t). rewrite S' in L. simpl in L. lia.
Qed.

Lemma last_in {A : Type} (l : list A) (d : A) : l <> [] -> In (last l d) l.
Proof.
  induction l as [|a l IH]; [congruence|]. intros _.
  destruct l as [|b l]; [now left|].
  right. apply IH. discriminate.
Qed.

(** Filtering keeps the last element when the filter accepts it. *)
Lemma last_filter {A : Type} (f : A -> bool) (l : list A) (d : A) :
  l <> [] -> f (last l d) = true -> last (filter f l) d = last l d.
Proof.
  induction l as [|a l IH]; [congruence|]. intros _ H.
  destruct l as [|b l].
  - simpl in *. now rewrite H.
  - change (last (a :: b :: l) d) with (last (b :: l) d) in *.
    assert (filter f (b :: l) <> []) as Hne.
    { intros E. assert (In (last (b :: l) d) (filter f (b :: l))) as Hin.
      { apply filter_In. split; [apply last_in; discriminate|exact H]. }
      rewrite E in Hin. contradiction. }
    change (filter f (a :: b :: l))
      with (if f a then a :: filter f (b :: l) else filter f (b :: l)).
    destruct (f a).
    + destruct (filter f (b :: l)) eqn:F; [congruence|].
      change (last (a :: a0 :: l0) d) with (last (a0 :: l0) d).
      apply IH; [discriminate|exact H].
    + apply IH; [discriminate|exact H].
Qed.

Lemma stripTrailingSlash_app (s : string) : stripTrailingSlash (s ++ "/") = s.
Proof.
  induction s as [|c s IH]; [reflexivity|].
  simpl. destruct (s ++ "/") eqn:E.
  - destruct s; discriminate.
  - now rewrite IH.
Qed.

Lemma stripTrailingSlash_none (s : string) :
  mem "/" s = false -> stripTrailingSlash s = s.
Proof.
  induction s as [|c s IH]; [reflexivity|]. simpl.
  intros H. apply orb_false_iff in H as [Hc Hs].
  destruct s; [now rewrite Hc|]. now rewrite (IH Hs).
Qed.

(** Removing a slash at the end adds no code unit. *)
Lemma stripTrailingSlash_mem (d : ascii) (s : string) :
  mem d (stripTrailingSlash s) = true -> mem d s = true.
Proof.
  induction s as [|c s IH]; [discriminate|]. simpl.
  destruct s as [|c' s].
  - destruct (Ascii.eqb c "/"); [discriminate|exact (fun H => H)].
  - change (mem d (String c (stripTrailingSlash (String c' s))) = true ->
            Ascii.eqb c d || mem d (String c' s) = true).
    simpl mem at 1. intros H. apply orb_true_iff in H as [H|H].
    + now rewrite H.
    + rewrite (IH H). apply orb_true_r.
Qed.

Lemma span_fst_sat (f : ascii -> bool) (s : string) (d : ascii) :
  mem d (fst (span f s)) = true -> f d = true /\ mem d s = true.
Proof.
  induction s as [|c s IH]; simpl; [discriminate|].
  destruct (f c) eqn:F; [|discriminate].
  destruct (span f s) as [a b]. simpl in *.
  intros H. apply orb_true_iff in H as [H|H].
  - apply Ascii.eqb_eq in H. subst d. rewrite Ascii.eqb_refl. now split.
  - destruct (IH H) as [H1 H2]. rewrite H2, orb_true_r. now split.
Qed.

Lemma span_all (f : ascii -> bool) (s t : string) (c : ascii) :
  (forall d, mem d s = true -> f d = true) -> f c = false ->
  span f (s ++ String c t) = (s, String c t).
Proof.
  intros Hs Hc. induction s as [|e s IH]; simpl.
  - now rewrite Hc.
  - rewrite (Hs e) by (simpl; now rewrite Ascii.eqb_refl).
    rewrite IH; [reflexivity|].
    intros d Hd. apply Hs. simpl. now rewrite Hd, orb_true_r.
Qed.

Lemma span_whole (f : ascii -> bool) (s : string) :
  (forall d, mem d s = true -> f d = true) -> span f s = (s, "").
Proof.
  intros Hs. induction s as [|e s IH]; simpl; [reflexivity|].
  rewrite (Hs e) by (simpl; now rewrite Ascii.eqb_refl).
  rewrite IH; [reflexivity|].
  intros d Hd. apply Hs. simpl. now rewrite Hd, orb_true_r.
Qed.

Lemma stripPrefix_mem (p s r : string) (d : ascii) :
  stripPrefix p s = Some r -> mem d r = true -> mem d s = true.
Proof.
  revert s. induction p as [|a p IH]; intros s; simpl.
  - now intros [= ->].
  - destruct s as [|b s]; [discriminate|].
    destruct (Ascii.eqb a b); [|discriminate].
    intros H Hd. simpl. rewrite (IH _ H Hd). apply orb_true_r.
Qed.

End JSFacts.

(** ** The id cleaners *)

Module CleanerFacts.
Import JS JSFacts.

Lemma hasSegment_nonSlash (url : string) :
  hasSegment url = nonSlash (hd "" (split "?" url)).
Proof.
  induction url as [|c t IH]; simpl; [reflexivity|].
  destruct (Ascii.eqb c "?") eqn:Q; [reflexivity|].
  destruct (split "?" t) as [|h r] eqn:S; [now destruct (split_not_nil "?" t)|].
  simpl in *. destruct (Ascii.eqb c "/"); simpl; [exact IH|reflexivity].
Qed.

Lemma nonSlash_parts (s : string) :
  nonSlash s = true -> filterBoolean (split "/" s) <> [].
Proof.
  induction s as [|c t IH]; simpl; [discriminate|].
  destruct (Ascii.eqb c "/"); simpl.
  - exact IH.
  - intros _. destruct (split "/" t); simpl; discriminate.
Qed.

Lemma nonSlash_stripTrailingSlash (s : string) :
  nonSlash s = true -> nonSlash (stripTrailingSlash s) = true.
Proof.
  induction s as [|c t IH]; [discriminate|].
  destruct t as [|c' t].
  - simpl. destruct (Ascii.eqb c "/") eqn:E; simpl; rewrite ?E;
      [discriminate|reflexivity].
  - change (negb (Ascii.eqb c "/") || nonSlash (String c' t) = true ->
            negb (Ascii.eqb c "/") || nonSlash (stripTrailingSlash (String c' t)) = true).
    destruct (Ascii.eqb c "/"); simpl; [exact IH|reflexivity].
Qed.

Lemma part_slug (s x : string) :
  mem "?" s = false -> In x (filterBoolean (split "/" s)) -> slug x.
Proof.
  intros Hs Hx. apply filter_In in Hx as [Hx Ht].
  destruct (split_parts _ _ _ Hx) as [H1 H2].
  repeat split; [exact Ht|exact H1|].
  destruct (mem "?" x) eqn:E; [|reflexivity].
  now rewrite (H2 _ E) in Hs.
Qed.

Lemma beforeQuery_mem (url : string) : mem "?" (hd "" (split "?" url)) = false.
Proof. exact (proj1 (split_parts _ _ _ (hd_split_in "?" url))). Qed.

(** *** GalaxyAction *)

Lemma GA_slug_fixed (r : string) : slug r -> GalaxyAction.idCleaner r = r.
Proof.
  intros (Ht & Hs & Hq). unfold GalaxyAction.idCleaner.
  rewrite Ht. simpl negb. cbv iota.
  rewrite (split_none _ _ Hq). simpl hd.
  rewrite (split_none _ _ Hs). unfold filterBoolean. simpl. now rewrite Ht.
Qed.

(** The result is a slug, or a text made of slashes only. *)
Lemma GA_shape (url : string) :
  slug (GalaxyAction.idCleaner url)
  \/ (mem "?" (GalaxyAction.idCleaner url) = false
      /\ filterBoolean (split "/" (GalaxyAction.idCleaner url)) = []).
Proof.
  unfold GalaxyAction.idCleaner.
  destruct (truthy url); simpl negb; cbv iota; [|right; split; reflexivity].
  pose proof (beforeQuery_mem url) as Hq.
  destruct (filterBoolean (split "/" (hd "" (split "?" url)))) as [|p ps] eqn:P.
  - right. now split.
  - left. apply (part_slug _ _ Hq). rewrite P. apply last_in. discriminate.
Qed.

Lemma GA_idempotent (url : string) :
  GalaxyAction.idCleaner (GalaxyAction.idCleaner url) = GalaxyAction.idCleaner url.
Proof.
  destruct (GA_shape url) as [H|[Hq Hp]]; [now apply GA_slug_fixed|].
  set (r := GalaxyAction.idCleaner url) in *.
  unfold GalaxyAction.idCleaner.
  destruct (truthy r) eqn:T; simpl negb; cbv iota.
  - rewrite (split_none _ _ Hq). simpl hd. now rewrite Hp.
  - now apply truthy_false in T.
Qed.

Lemma GA_no_query (url : string) : mem "?" (GalaxyAction.idCleaner url) = false.
Proof. destruct (GA_shape url) as [(_ & _ & H)|[H _]]; exact H. Qed.

Lemma GA_segment_slug (url : string) :
  hasSegment url = true -> slug (GalaxyAction.idCleaner url).
Proof.
  intros H. rewrite hasSegment_nonSlash in H.
  pose proof (nonSlash_parts _ H) as Hne.
  unfold GalaxyAction.idCleaner.
  destruct (truthy url) eqn:T; simpl negb; cbv iota.
  - destruct (filterBoolean (split "/" (hd "" (split "?" url)))) as [|p ps] eqn:P;
      [congruence|].
    apply (part_slug _ _ (beforeQuery_mem url)). rewrite P. apply last_in. discriminate.
  - apply truthy_false in T. subst url. discriminate.
Qed.

(** Cleaning [prefix/id] gives back the slug [id]. *)
Lemma GA_clean_under (prefix id : string) :
  mem "?" prefix = false -> slug id ->
  GalaxyAction.idCleaner (prefix ++ "/" ++ id) = id.
Proof.
  intros Hp (Ht & Hs & Hq). unfold GalaxyAction.idCleaner.
  assert (truthy (prefix ++ "/" ++ id) = true) as T.
  { apply truthy_true. destruct prefix; discriminate. }
  rewrite T. simpl negb. cbv iota.
  rewrite (split_none "?" (prefix ++ "/" ++ id))
    by (rewrite mem_app, Hp; simpl; exact Hq).
  simpl hd.
  pose proof (split_app_last "/" prefix id "" Hs) as L.
  change (prefix ++ "/" ++ id) with (prefix ++ String "/" id).
  assert (split "/" (prefix ++ String "/" id) <> []) as Hne by apply split_not_nil.
  pose proof (@last_filter _ truthy _ "" Hne) as F. rewrite L in F.
  specialize (F Ht). unfold filterBoolean.
  destruct (filter truthy (split "/" (prefix ++ String "/" id))) eqn:E.
  - assert (In id (filter truthy (split "/" (prefix ++ String "/" id)))) as Hin.
    { apply filter_In. split; [|exact Ht].
      pose proof (@last_in _ _ "" Hne) as X. now rewrite L in X. }
    rewrite E in Hin. contradiction.
  - exact F.
Qed.

(** *** Ziz *)

Lemma groupAfter_spec (p s g : string) :
  Ziz.groupAfter p s = Some g ->
  truthy g = true /\ mem "/" g = false /\ forall d, mem d g = true -> mem d s = true.
Proof.
  unfold Ziz.groupAfter. destruct (stripPrefix p s) as [r|] eqn:P; [|discriminate].
  destruct (truthy (fst (span (fun c => negb (Ascii.eqb c "/")) r))) eqn:T;
    [|discriminate].
  intros [= <-]. split; [exact T|]. split.
  - destruct (mem "/" _) eqn:M; [|reflexivity].
    apply span_fst_sat in M as [M _]. discriminate.
  - intros d Hd. apply span_fst_sat in Hd as [_ Hd].
    exact (stripPrefix_mem _ _ _ P Hd).
Qed.

Lemma mangaSlugMatch_spec (s g : string) :
  Ziz.mangaSlugMatch s = Some g ->
  truthy g = true /\ mem "/" g = false /\ forall d, mem d g = true -> mem d s = true.
Proof.
  induction s as [|c s IH]; simpl; unfold Ziz.mangaSlugAt.
  - destruct (Ziz.groupAfter "/manga/" "") eqn:A1; [discriminate|].
    destruct (Ziz.groupAfter "/reader/manga/" "") eqn:A2; discriminate.
  - destruct (Ziz.groupAfter "/manga/" (String c s)) eqn:A1.
    { intros [= <-]. exact (groupAfter_spec _ _ A1). }
    destruct (Ziz.groupAfter "/reader/manga/" (String c s)) eqn:A2.
    { intros [= <-]. exact (groupAfter_spec _ _ A2). }
    intros H. destruct (IH H) as (H1 & H2 & H3).
    repeat split; [exact H1|exact H2|].
    intros d Hd. simpl. rewrite (H3 _ Hd). apply orb_true_r.
Qed.

Lemma mangaSlugMatch_none (s : string) :
  mem "/" s = false -> Ziz.mangaSlugMatch s = None.
Proof.
  induction s as [|c s IH]; [reflexivity|].
  simpl mem. intros H. apply orb_false_iff in H as [Hc Hs].
  cbn -[Ascii.eqb]. unfold Ziz.mangaSlugAt, Ziz.groupAfter.
  cbn -[Ascii.eqb]. rewrite Ascii.eqb_sym, Hc. now apply IH.
Qed.

(** The result is empty or a slug. *)
Lemma Ziz_shape (url : string) :
  Ziz.cleanMangaId url = "" \/ slug (Ziz.cleanMangaId url).
Proof.
  unfold Ziz.cleanMangaId.
  destruct (truthy url); simpl negb; cbv iota; [|now left].
  set (cleanUrl := stripTrailingSlash (hd "" (split "?" url))).
  assert (mem "?" cleanUrl = false) as Hq.
  { destruct (mem "?" cleanUrl) eqn:E; [|reflexivity].
    apply stripTrailingSlash_mem in E. now rewrite beforeQuery_mem in E. }
  destruct (Ziz.mangaSlugMatch cleanUrl) as [g|] eqn:M.
  - right. destruct (mangaSlugMatch_spec _ M) as (H1 & H2 & H3).
    repeat split; [exact H1|exact H2|].
    destruct (mem "?" g) eqn:E; [|reflexivity]. now rewrite (H3 _ E) in Hq.
  - destruct (filterBoolean (split "/" cleanUrl)) as [|p ps] eqn:P; [now left|].
    right. apply (part_slug _ _ Hq). rewrite P. apply last_in. discriminate.
Qed.

Lemma Ziz_slug_fixed (r : string) : slug r -> Ziz.cleanMangaId r = r.
Proof.
  intros (Ht & Hs & Hq). unfold Ziz.cleanMangaId.
  rewrite Ht. simpl negb. cbv iota.
  rewrite (split_none _ _ Hq). simpl hd.
  rewrite (stripTrailingSlash_none _ Hs), (mangaSlugMatch_none _ Hs).
  rewrite (split_none _ _ Hs). unfold filterBoolean. simpl. now rewrite Ht.
Qed.

Lemma Ziz_idempotent (url : string) :
  Ziz.cleanMangaId (Ziz.cleanMangaId url) = Ziz.cleanMangaId url.
Proof.
  destruct (Ziz_shape url) as [E|H]; [now rewrite E|now apply Ziz_slug_fixed].
Qed.

Lemma Ziz_no_unit (c : ascii) (url : string) :
  c = "/"%char \/ c = "?"%char -> mem c (Ziz.cleanMangaId url) = false.
Proof.
  intros Hc. destruct (Ziz_shape url) as [E|(_ & H1 & H2)]; [now rewrite E|].
  now destruct Hc as [-> | ->].
Qed.

Lemma Ziz_segment_slug (url : string) :
  hasSegment url = true -> slug (Ziz.cleanMangaId url).
Proof.
  intros H. destruct (Ziz_shape url) as [E|S]; [|exact S]. exfalso.
  rewrite hasSegment_nonSlash in H.
  pose proof (nonSlash_parts _ (nonSlash_stripTrailingSlash _ H)) as Hne.
  revert E. unfold Ziz.cleanMangaId.
  destruct (truthy url) eqn:T; simpl negb; cbv iota.
  - set (cleanUrl := stripTrailingSlash (hd "" (split "?" url))) in *.
    destruct (Ziz.mangaSlugMatch cleanUrl) as [g|] eqn:M.
    + intros ->. now destruct (mangaSlugMatch_spec _ M) as (H1 & _).
    + intros E.
      assert (In "" (filterBoolean (split "/" cleanUrl))) as Hin
        by (rewrite <- E; now apply last_in).
      apply filter_In in Hin as [_ Hin]. discriminate.
  - apply truthy_false in T. subst url. discriminate.
Qed.

Lemma Ziz_clean_slash (u g : string) :
  mem "?" u = false -> Ziz.mangaSlugMatch u = Some g ->
  Ziz.cleanMangaId (u ++ "/") = g.
Proof.
  intros Hq M. unfold Ziz.cleanMangaId.
  assert (truthy (u ++ "/") = true) as T
    by (apply truthy_true; destruct u; discriminate).
  rewrite T. cbn [negb].
  rewrite (split_none "?" (u ++ "/")) by (now rewrite mem_app, Hq).
  cbn [hd]. now rewrite stripTrailingSlash_app, M.
Qed.

Lemma mangaSlugMatch_step (c : ascii) (s : string) :
  Ziz.mangaSlugAt (String c s) = None ->
  Ziz.mangaSlugMatch (String c s) = Ziz.mangaSlugMatch s.
Proof. intros H. simpl. now rewrite H. Qed.

Lemma mangaSlugMatch_here (s g : string) :
  Ziz.mangaSlugAt s = Some g -> Ziz.mangaSlugMatch s = Some g.
Proof.
  intros H. destruct s; [cbv in H; discriminate|simpl; now rewrite H].
Qed.

Lemma mangaSlugAt_manga (id : string) :
  truthy id = true -> mem "/" id = false ->
  Ziz.mangaSlugAt ("/manga/" ++ id) = Some id.
Proof.
  intros Ht Hs. unfold Ziz.mangaSlugAt, Ziz.groupAfter.
  replace (stripPrefix "/manga/" ("/manga/" ++ id)) with (Some id) by reflexivity.
  rewrite span_whole.
  - cbn [fst]. now rewrite Ht.
  - intros d Hd. destruct (Ascii.eqb_spec d "/"); [subst; congruence|reflexivity].
Qed.

(** Cleaning the page address of the slug [id] gives back [id]. *)
Lemma Ziz_clean_share (id : string) :
  slug id -> Ziz.cleanMangaId (Ziz.DOMAIN ++ "/manga/" ++ id ++ "/") = id.
Proof.
  intros (Ht & Hs & Hq).
  replace (Ziz.DOMAIN ++ "/manga/" ++ id ++ "/")
    with ((Ziz.DOMAIN ++ "/manga/" ++ id) ++ "/")
    by (now rewrite !append_assoc).
  apply Ziz_clean_slash.
  - now rewrite !mem_app, Hq.
  - unfold Ziz.DOMAIN. cbn [append].
    repeat (rewrite mangaSlugMatch_step by reflexivity).
    apply mangaSlugMatch_here. exact (mangaSlugAt_manga id Ht Hs).
Qed.

End CleanerFacts.

Section CleanerClaims.
Context {RT : Runtime}.
Import CleanerFacts.

(** C6: [idCleaner] of GalaxyAction and [cleanMangaId] of Ziz are
    idempotent and their result holds no question mark, on every string;
    the result of [cleanMangaId] never ends with a slash, and the result
    of [idCleaner] does not end with a slash on a well-formed URL, one
    that has a path segment. *)
Theorem C6_id_cleaners_idempotent (url : string) :
  GalaxyAction.idCleaner (GalaxyAction.idCleaner url) = GalaxyAction.idCleaner url
  /\ Ziz.cleanMangaId (Ziz.cleanMangaId url) = Ziz.cleanMangaId url
  /\ JS.includes (GalaxyAction.idCleaner url) "?" = false
  /\ JS.includes (Ziz.cleanMangaId url) "?" = false
  /\ JS.endsWith (Ziz.cleanMangaId url) "/" = false
  /\ (hasSegment url = true -> JS.endsWith (GalaxyAction.idCleaner url) "/" = false).
Proof.
  split; [apply GA_idempotent|].
  split; [apply Ziz_idempotent|].
  split; [rewrite JSFacts.includes_unit; apply GA_no_query|].
  split; [rewrite JSFacts.includes_unit; apply Ziz_no_unit; now right|].
  split; [apply JSFacts.endsWith_unit, Ziz_no_unit; now left|].
  intros H. apply JSFacts.endsWith_unit.
  now destruct (GA_segment_slug _ H) as (_ & Hs & _).
Qed.

(** C7, amended: for an id that an extractor obtains from an href with a
    path segment, cleaning the share URL that [parseMangaDetails] builds
    from the id gives the id back; on GalaxyAction for any domain without
    question mark, on Ziz for the domain of the site. *)
Theorem C7_share_url_round_trip (docA : GalaxyAction.DetailsDoc)
    (docB : Ziz.DetailsDoc) (source : Source) (href : string) :
  hasSegment href = true ->
  (JS.mem "?" (domain source) = false ->
   GalaxyAction.idCleaner
     (shareUrl (mangaInfo
        (GalaxyAction.parseMangaDetails docA (GalaxyAction.idCleaner href) source)))
   = GalaxyAction.idCleaner href)
  /\ (domain source = Ziz.DOMAIN ->
      Ziz.cleanMangaId
        (shareUrl (mangaInfo
           (Ziz.parseMangaDetails docB (Ziz.cleanMangaId href) source)))
      = Ziz.cleanMangaId href).
Proof.
  intros H. split.
  - intros Hd. cbn [GalaxyAction.parseMangaDetails mangaInfo shareUrl].
    replace (domain source ++ "/manga/" ++ GalaxyAction.idCleaner href)
      with ((domain source ++ "/manga") ++ "/" ++ GalaxyAction.idCleaner href)
      by (now rewrite JSFacts.append_assoc).
    apply GA_clean_under; [|now apply GA_segment_slug].
    now rewrite JSFacts.mem_app, Hd.
  - intros Hd. cbn [Ziz.parseMangaDetails mangaInfo shareUrl]. rewrite Hd.
    apply Ziz_clean_share. now apply Ziz_segment_slug.
Qed.

End CleanerClaims.

Lemma C6_id_cleaners_idempotent_witness :
  hasSegment "https://galaxyaction.net/manga/solo-leveling/?ref=home" = true
  /\ JS.endsWith
       (GalaxyAction.idCleaner "https://galaxyaction.net/manga/solo-leveling/?ref=home")
       "/" = false.
Proof.
  split; [reflexivity|].
  apply (C6_id_cleaners_idempotent
           "https://galaxyaction.net/manga/solo-leveling/?ref=home").
  reflexivity.
Defined.

Lemma C7_share_url_round_trip_witness :
  GalaxyAction.idCleaner
    (shareUrl (mangaInfo
       (GalaxyAction.parseMangaDetails (RT := Reference.runtime) blankGalaxyDetails
          (GalaxyAction.idCleaner "/manga/solo-leveling/") GalaxyAction.extension)))
  = GalaxyAction.idCleaner "/manga/solo-leveling/"
  /\ Ziz.cleanMangaId
       (shareUrl (mangaInfo
          (Ziz.parseMangaDetails (RT := Reference.runtime) blankZizDetails
             (Ziz.cleanMangaId "/manga/solo-leveling/") Ziz.extension)))
     = Ziz.cleanMangaId "/manga/solo-leveling/".
Proof.
  destruct (@C7_share_url_round_trip Reference.runtime blankGalaxyDetails
              blankZizDetails GalaxyAction.extension "/manga/solo-leveling/" eq_refl)
    as [HA _].
  destruct (@C7_share_url_round_trip Reference.runtime blankGalaxyDetails
              blankZizDetails Ziz.extension "/manga/solo-leveling/" eq_refl)
    as [_ HB].
  split; [exact (HA eq_refl)|exact (HB eq_refl)].
Defined.

(** C7 as stated fails: from the card that links to the root,
    [parseSearchResults] of GalaxyAction produces the id made of a slash,
    and cleaning its share URL gives [manga]; from the anchor made of a
    query string, [parseSearchResults] of Ziz produces the empty id, and
    cleaning its share URL gives [manga]. *)
Lemma C7_share_url_round_trip_counterexample :
  map result_mangaId
      (GalaxyAction.parseSearchResults (RT := Reference.runtime)
         rootCardListing GalaxyAction.extension) = ["/"]
  /\ GalaxyAction.idCleaner
       (shareUrl (mangaInfo
          (GalaxyAction.parseMangaDetails (RT := Reference.runtime)
             blankGalaxyDetails "/" GalaxyAction.extension))) = "manga"
  /\ map result_mangaId
         (Ziz.parseSearchResults (RT := Reference.runtime) queryAnchorSearch) = [""]
  /\ Ziz.cleanMangaId
       (shareUrl (mangaInfo
          (Ziz.parseMangaDetails (RT := Reference.runtime)
             blankZizDetails "" Ziz.extension))) = "manga"
  /\ "manga" <> "/" /\ "manga" <> "".
Proof. repeat split; try reflexivity; discriminate. Qed.

(** ** Loops that push *)

Lemma eachPush_yielded {A B : Type} (f : A -> option B) (i : nat) (nodes : list A) :
  eachPush (fun _ => f) i nodes = yielded f nodes.
Proof.
  revert i. induction nodes as [|a l IH]; intros i; simpl; [reflexivity|].
  rewrite IH. now destruct (f a).
Qed.

Lemma eachPush_ext {A B : Type} (f g : nat -> A -> option B) (nodes : list A) :
  (forall i a, f i a = g i a) ->
  forall i, eachPush f i nodes = eachPush g i nodes.
Proof.
  intros H. induction nodes as [|a rest IH]; intros i; [reflexivity|].
  cbn [eachPush]. now rewrite H, IH.
Qed.

Lemma yielded_length {A B : Type} (f : A -> option B) (nodes : list A) :
  (length (yielded f nodes) <= length nodes)%nat.
Proof.
  induction nodes as [|a l IH]; simpl; [lia|].
  rewrite length_app. destruct (f a); simpl; lia.
Qed.

(** ** The image validator *)

Lemma trimStart_blank (s : string) :
  onlyWhiteSpace s = true -> JS.trimStart s = "".
Proof.
  induction s as [|c s IH]; simpl; [reflexivity|].
  destruct (JS.isWhiteSpace c); [exact IH|discriminate].
Qed.

Lemma trimStart_head (s : string) :
  onlyWhiteSpace s = false ->
  exists c t, JS.trimStart s = String c t /\ JS.isWhiteSpace c = false.
Proof.
  induction s as [|c s IH]; simpl; [discriminate|].
  destruct (JS.isWhiteSpace c) eqn:W; [exact IH|].
  intros _. now exists c, s.
Qed.

Lemma trimEnd_head (c : ascii) (t : string) :
  JS.isWhiteSpace c = false -> JS.trimEnd (String c t) <> "".
Proof.
  intros W. simpl. destruct (JS.trimEnd t); [rewrite W|]; discriminate.
Qed.

Lemma trim_blank (s : string) :
  String.eqb (JS.trim s) "" = onlyWhiteSpace s.
Proof.
  unfold JS.trim. destruct (onlyWhiteSpace s) eqn:B.
  - now rewrite (trimStart_blank _ B).
  - destruct (trimStart_head _ B) as (c & t & -> & W).
    apply String.eqb_neq. now apply trimEnd_head.
Qed.

(** C8, amended: [isValidImageUrl] rejects the strings that contain
    [readerarea.svg] or [data:image/svg] and those made of white space
    only (the empty string among them), and accepts every other string. *)
Theorem C8_isValidImageUrl_characterised (url : string) :
  GalaxyAction.isValidImageUrl url
  = negb (onlyWhiteSpace url)
    && negb (JS.includes url "readerarea.svg")
    && negb (JS.includes url "data:image/svg").
Proof.
  unfold GalaxyAction.isValidImageUrl. rewrite trim_blank.
  destruct url as [|c t]; [reflexivity|].
  reflexivity.
Qed.

(** C8 as stated fails: a single space is a non-empty string without
    either marker, and it is rejected. *)
Lemma C8_isValidImageUrl_counterexample :
  " " <> ""
  /\ JS.includes " " "readerarea.svg" = false
  /\ JS.includes " " "data:image/svg" = false
  /\ GalaxyAction.isValidImageUrl " " = false.
Proof. repeat split; try reflexivity; discriminate. Qed.

(** ** The weekly section *)




(** ** Content rating and status *)

Lemma existsb_eqb_In (x : string) (l : list string) :
  existsb (String.eqb x) l = true <-> In x l.
Proof.
  rewrite existsb_exists. split.
  - intros (y & Hy & E). apply String.eqb_eq in E. now subst.
  - intros H. exists x. split; [exact H|apply String.eqb_refl].
Qed.

Lemma existsb_eqb_In' (x : string) (l : list string) :
  existsb (fun y => String.eqb y x) l = true <-> In x l.
Proof.
  rewrite existsb_exists. split.
  - intros (y & Hy & E). apply String.eqb_eq in E. now subst.
  - intros H. exists x. split; [exact H|apply String.eqb_refl].
Qed.

(** The keywords of [l] that lie in [set], as a Boolean test. *)
Lemma hit_existsb (set keywords : list string) :
  existsb (fun g => existsb (String.eqb g) set) keywords = true
  <-> exists k, In k keywords /\ In k set.
Proof.
  rewrite existsb_exists. split; intros (k & Hk & H); exists k; split;
    try exact Hk; now apply existsb_eqb_In.
Qed.

Section RatingClaims.
Context {RT : Runtime}.

Lemma GA_rated (keywords : list string) :
  ratedBy galaxyAdult galaxyMature keywords (GalaxyAction.contentRatingOf keywords).
Proof.
  unfold ratedBy, GalaxyAction.contentRatingOf.
  fold galaxyAdult galaxyMature.
  pose proof (hit_existsb galaxyAdult keywords) as HA.
  pose proof (hit_existsb galaxyMature keywords) as HM.
  destruct (existsb _ keywords) eqn:EA.
  - assert (exists k, In k keywords /\ In k galaxyAdult) as A by now apply HA.
    repeat split; intros; try discriminate; try tauto.
  - assert (~ exists k, In k keywords /\ In k galaxyAdult) as A
        by (intros X; apply (proj2 HA) in X; discriminate).
    destruct (existsb (fun g => existsb (String.eqb g) galaxyMature) keywords) eqn:EM.
    + assert (exists k, In k keywords /\ In k galaxyMature) as M by now apply HM.
      repeat split; intros; try discriminate; try tauto.
    + assert (~ exists k, In k keywords /\ In k galaxyMature) as M
          by (intros X; apply (proj2 HM) in X; discriminate).
      repeat split; intros; try discriminate; try tauto.
Qed.

Lemma Ziz_rated (keywords : list string) :
  (forall k, In k keywords -> toLowerCase k = k) ->
  ratedBy Ziz.CONTENT_RATING_GENRES.ADULT [] keywords
    (Ziz.determineContentRating keywords).
Proof.
  intros Hk. unfold ratedBy, Ziz.determineContentRating.
  rewrite (map_ext_in toLowerCase (fun k => k) keywords Hk), map_id.
  assert (existsb (fun g => existsb (fun a => String.eqb a g)
                                    Ziz.CONTENT_RATING_GENRES.ADULT) keywords = true
          <-> exists k, In k keywords /\ In k Ziz.CONTENT_RATING_GENRES.ADULT) as HA.
  { rewrite existsb_exists. split; intros (k & H1 & H2); exists k; split;
      try exact H1; now apply existsb_eqb_In'. }
  assert (~ exists k : string, In k keywords /\ In k []) as M by now intros (k & _ & []).
  destruct (existsb _ keywords) eqn:EA.
  - assert (exists k, In k keywords /\ In k Ziz.CONTENT_RATING_GENRES.ADULT) as A
        by now apply HA.
    repeat split; intros; try discriminate; try tauto.
  - assert (~ exists k, In k keywords /\ In k Ziz.CONTENT_RATING_GENRES.ADULT) as A
        by (intros X; apply (proj2 HA) in X; discriminate).
    repeat split; intros; try discriminate; try tauto.
Qed.

Lemma Ziz_keywords_lower (doc : Ziz.DetailsDoc) (k : string) :
  In k (Ziz.genreKeywordsOf doc) -> exists t, k = toLowerCase t.
Proof.
  unfold Ziz.genreKeywordsOf. rewrite eachPush_yielded.
  intros H. apply in_map_iff in H as ((k' & tag) & <- & H).
  unfold yielded in H. apply in_flat_map in H as (text & _ & H).
  unfold Ziz.genreOf in H. destruct (negb _); [contradiction|].
  destruct H as [[= <- _]|[]]. now eexists.
Qed.

(** C1, amended: each parser rates by its own fixed table. GalaxyAction:
    [ADULT] iff an extracted genre keyword is one of adult, 18+, nsfw;
    [MATURE] iff none is and one is mature or ecchi; [EVERYONE] otherwise.
    Ziz: never [MATURE], its table has no mature set; and, lower-casing
    being idempotent, [ADULT] iff an extracted genre keyword is in
    [CONTENT_RATING_GENRES.ADULT], [EVERYONE] otherwise. On both sites two
    pages with the same extracted keywords get the same rating. *)
Theorem C1_content_rating_from_keywords :
  (forall (doc : GalaxyAction.DetailsDoc) (id : string) (source : Source),
      ratedBy galaxyAdult galaxyMature (GalaxyAction.genreKeywordsOf doc)
        (contentRating (mangaInfo (GalaxyAction.parseMangaDetails doc id source))))
  /\ (forall (doc : Ziz.DetailsDoc) (id : string) (source : Source),
         contentRating (mangaInfo (Ziz.parseMangaDetails doc id source)) <> MATURE)
  /\ ((forall s, toLowerCase (toLowerCase s) = toLowerCase s) ->
      forall (doc : Ziz.DetailsDoc) (id : string) (source : Source),
        ratedBy Ziz.CONTENT_RATING_GENRES.ADULT [] (Ziz.genreKeywordsOf doc)
          (contentRating (mangaInfo (Ziz.parseMangaDetails doc id source))))
  /\ (forall (doc doc' : GalaxyAction.DetailsDoc) (id id' : string) (source source' : Source),
         GalaxyAction.genreKeywordsOf doc = GalaxyAction.genreKeywordsOf doc' ->
         contentRating (mangaInfo (GalaxyAction.parseMangaDetails doc id source))
         = contentRating (mangaInfo (GalaxyAction.parseMangaDetails doc' id' source')))
  /\ (forall (doc doc' : Ziz.DetailsDoc) (id id' : string) (source source' : Source),
         Ziz.genreKeywordsOf doc = Ziz.genreKeywordsOf doc' ->
         contentRating (mangaInfo (Ziz.parseMangaDetails doc id source))
         = contentRating (mangaInfo (Ziz.parseMangaDetails doc' id' source'))).
Proof.
  split; [|split; [|split; [|split]]].
  - intros doc id source. apply GA_rated.
  - intros doc id source.
    cbn [Ziz.parseMangaDetails mangaInfo contentRating].
    unfold Ziz.determineContentRating. now destruct (existsb _ _).
  - intros idem doc id source.
    cbn [Ziz.parseMangaDetails mangaInfo contentRating].
    apply Ziz_rated. intros k Hk.
    destruct (Ziz_keywords_lower _ _ Hk) as (t & ->). apply idem.
  - intros doc doc' id id' source source' E.
    cbn [GalaxyAction.parseMangaDetails mangaInfo contentRating]. now rewrite E.
  - intros doc doc' id id' source source' E.
    cbn [Ziz.parseMangaDetails mangaInfo contentRating]. now rewrite E.
Qed.

End RatingClaims.

Lemma lowerUnit_idempotent (c : ascii) :
  Reference.lowerUnit (Reference.lowerUnit c) = Reference.lowerUnit c.
Proof. destruct c as [[] [] [] [] [] [] [] []]; reflexivity. Qed.

Lemma reference_lower_idempotent (s : string) :
  @toLowerCase Reference.runtime (@toLowerCase Reference.runtime s)
  = @toLowerCase Reference.runtime s.
Proof.
  cbn [toLowerCase Reference.runtime].
  induction s as [|c s IH]; [reflexivity|].
  cbn [Reference.mapUnits]. now rewrite lowerUnit_idempotent, IH.
Qed.

Lemma C1_content_rating_from_keywords_witness :
  (forall s, @toLowerCase Reference.runtime (@toLowerCase Reference.runtime s)
             = @toLowerCase Reference.runtime s)
  /\ ratedBy Ziz.CONTENT_RATING_GENRES.ADULT []
       (Ziz.genreKeywordsOf (RT := Reference.runtime) (zizPage "" "Harem"))
       (contentRating (mangaInfo
          (Ziz.parseMangaDetails (RT := Reference.runtime)
             (zizPage "" "Harem") "solo" Ziz.extension)))
  /\ contentRating (mangaInfo
       (Ziz.parseMangaDetails (RT := Reference.runtime)
          (zizPage "" "Harem") "solo" Ziz.extension)) = ADULT.
Proof.
  split; [exact reference_lower_idempotent|]. split; [|reflexivity].
  destruct (@C1_content_rating_from_keywords Reference.runtime) as (_ & _ & H & _).
  exact (H reference_lower_idempotent (zizPage "" "Harem") "solo" Ziz.extension).
Defined.

(** C1 as stated fails: no single adult and mature set rates the pages
    of both parsers. From the genre Adult both extract the keyword adult;
    GalaxyAction answers [ADULT] and Ziz [EVERYONE]. From the genre Mature
    GalaxyAction answers [MATURE] and Ziz [EVERYONE]. *)
Lemma C1_content_rating_from_keywords_counterexample :
  let galaxy doc :=
    contentRating (mangaInfo
      (GalaxyAction.parseMangaDetails (RT := Reference.runtime)
         doc "solo" GalaxyAction.extension)) in
  let ziz doc :=
    contentRating (mangaInfo
      (Ziz.parseMangaDetails (RT := Reference.runtime) doc "solo" Ziz.extension)) in
  GalaxyAction.genreKeywordsOf (RT := Reference.runtime) (galaxyPage "" "Adult")
  = ["adult"]
  /\ Ziz.genreKeywordsOf (RT := Reference.runtime) (zizPage "" "Adult") = ["adult"]
  /\ galaxy (galaxyPage "" "Adult") = ADULT
  /\ ziz (zizPage "" "Adult") = EVERYONE
  /\ galaxy (galaxyPage "" "Mature") = MATURE
  /\ ziz (zizPage "" "Mature") = EVERYONE
  /\ ~ exists adult mature,
         (forall doc, ratedBy adult mature
                        (GalaxyAction.genreKeywordsOf (RT := Reference.runtime) doc)
                        (galaxy doc))
         /\ (forall doc, ratedBy adult mature
                           (Ziz.genreKeywordsOf (RT := Reference.runtime) doc)
                           (ziz doc)).
Proof.
  intros galaxy ziz.
  assert (GalaxyAction.genreKeywordsOf (RT := Reference.runtime) (galaxyPage "" "Adult")
          = ["adult"]) as KA by reflexivity.
  assert (Ziz.genreKeywordsOf (RT := Reference.runtime) (zizPage "" "Adult")
          = ["adult"]) as KB by reflexivity.
  assert (galaxy (galaxyPage "" "Adult") = ADULT) as RA by reflexivity.
  assert (ziz (zizPage "" "Adult") = EVERYONE) as RB by reflexivity.
  repeat split; try reflexivity.
  intros (adult & mature & HA & HB).
  specialize (HA (galaxyPage "" "Adult")). specialize (HB (zizPage "" "Adult")).
  rewrite KA, RA in HA. rewrite KB, RB in HB.
  destruct HA as (HA & _). destruct HB as (HB & _).
  assert (EVERYONE = ADULT) as X by (apply HB, HA; reflexivity).
  discriminate X.
Qed.

Section StatusClaims.
Context {RT : Runtime}.

Lemma existsb_false_In (x : string) (l : list string) :
  ~ In x l -> existsb (String.eqb x) l = false.
Proof.
  intros H. destruct (existsb (String.eqb x) l) eqn:E; [|reflexivity].
  now apply existsb_eqb_In in E.
Qed.

Lemma existsb_false_In' (x : string) (l : list string) :
  ~ In x l -> existsb (fun y => String.eqb y x) l = false.
Proof.
  intros H. destruct (existsb (fun y => String.eqb y x) l) eqn:E; [|reflexivity].
  now apply existsb_eqb_In' in E.
Qed.

(** C4, amended. GalaxyAction: an absent status gives Ongoing; a text
    that, in lower case, lies in the Completed, Hiatus or Cancelled
    bucket gives the name of the bucket; any other text is returned with
    its first code unit in upper case and the rest as it is (there is no
    Ongoing bucket). Ziz: an absent status and a text that, in lower case,
    lies in the Ongoing bucket give Ongoing; a text in none of the four
    buckets is returned unchanged, without title-casing. *)
Theorem C4_status_normalised :
  (forall (doc : GalaxyAction.DetailsDoc) (id : string) (source : Source),
      let text := JS.trim (GalaxyAction.statusImptdt doc) in
      let result := status (mangaInfo (GalaxyAction.parseMangaDetails doc id source)) in
      (text = "" -> result = "Ongoing")
      /\ (text <> "" -> In (toLowerCase text) Ziz.STATUS_MAPPING.COMPLETED ->
          result = "Completed")
      /\ (text <> "" -> In (toLowerCase text) Ziz.STATUS_MAPPING.HIATUS ->
          result = "Hiatus")
      /\ (text <> "" -> In (toLowerCase text) Ziz.STATUS_MAPPING.CANCELLED ->
          result = "Cancelled")
      /\ (text <> "" ->
          ~ In (toLowerCase text) Ziz.STATUS_MAPPING.COMPLETED ->
          ~ In (toLowerCase text) Ziz.STATUS_MAPPING.HIATUS ->
          ~ In (toLowerCase text) Ziz.STATUS_MAPPING.CANCELLED ->
          result = toUpperCase (JS.charAt0 text) ++ JS.slice1 text))
  /\ (forall (doc : Ziz.DetailsDoc) (id : string) (source : Source),
         let text := JS.trim (Ziz.statusParagraph doc) in
         let result := status (mangaInfo (Ziz.parseMangaDetails doc id source)) in
         (text = "" -> result = "Ongoing")
         /\ (In (toLowerCase text) Ziz.STATUS_MAPPING.ONGOING -> result = "Ongoing")
         /\ (text <> "" -> unmapped (toLowerCase text) -> result = text)).
Proof.
  split.
  - intros doc id source text result. subst result.
    cbn [GalaxyAction.parseMangaDetails mangaInfo status]. fold text.
    unfold GalaxyAction.statusOf.
    change ["completed"; "finished"] with Ziz.STATUS_MAPPING.COMPLETED.
    change ["hiatus"; "on hold"] with Ziz.STATUS_MAPPING.HIATUS.
    change ["cancelled"; "dropped"] with Ziz.STATUS_MAPPING.CANCELLED.
    split; [intros ->; reflexivity|].
    assert (forall l, In (toLowerCase text) l ->
                      existsb (String.eqb (toLowerCase text)) l = true) as Y
      by (intros l; apply existsb_eqb_In).
    assert (forall x, In (toLowerCase text) Ziz.STATUS_MAPPING.COMPLETED ->
                      In (toLowerCase text) x ->
                      x = Ziz.STATUS_MAPPING.HIATUS \/ x = Ziz.STATUS_MAPPING.CANCELLED ->
                      False) as D1.
    { intros x H1 H2 [-> | ->]; cbn in H1, H2; intuition congruence. }
    assert (In (toLowerCase text) Ziz.STATUS_MAPPING.HIATUS ->
            In (toLowerCase text) Ziz.STATUS_MAPPING.CANCELLED -> False) as D2.
    { intros H1 H2; cbn in H1, H2; intuition congruence. }
    repeat split; intros Ht; apply JSFacts.truthy_true in Ht; rewrite Ht.
    + intros H. now rewrite (Y _ H).
    + intros H. rewrite (Y _ H).
      rewrite existsb_false_In; [reflexivity|].
      intros H'. exact (D1 _ H' H (or_introl eq_refl)).
    + intros H. rewrite (Y _ H).
      rewrite existsb_false_In
        by (intros H'; exact (D1 _ H' H (or_intror eq_refl))).
      rewrite existsb_false_In; [reflexivity|].
      intros H'. exact (D2 H' H).
    + intros H1 H2 H3. now rewrite !existsb_false_In.
  - intros doc id source text result. subst result.
    cbn [Ziz.parseMangaDetails mangaInfo status]. fold text.
    unfold Ziz.normalizeStatus.
    split; [intros ->; reflexivity|]. split.
    + intros H. destruct (JS.truthy text); [|reflexivity]. cbn [negb].
      now rewrite (proj2 (existsb_eqb_In' _ _) H).
    + intros Ht (H & _). apply JSFacts.truthy_true in Ht. rewrite Ht. cbn [negb].
      now rewrite existsb_false_In'.
Qed.

End StatusClaims.

(** ** The chapter lists *)

Module ChapterFacts.
Import JS JSFacts.

Lemma span_rest_head (f : ascii -> bool) (s : string) :
  match snd (span f s) with
  | EmptyString => True
  | String c _ => f c = false
  end.
Proof.
  induction s as [|c s IH]; simpl; [exact I|].
  destruct (f c) eqn:F; [|exact F].
  destruct (span f s) as [a b]. exact IH.
Qed.

Lemma pathOfAbsolute_path (href path : string) :
  GalaxyAction.pathOfAbsolute href = Some path ->
  truthy path = true /\ path <> "#".
Proof.
  unfold GalaxyAction.pathOfAbsolute.
  destruct (stripPrefix "http" href) as [r|]; [|discriminate].
  destruct (stripPrefix "://" _) as [r'|]; [|discriminate].
  pose proof (span_rest_head (fun c => negb (Ascii.eqb c "/")) r') as H.
  destruct (span _ r') as [host p]. cbn [snd] in H.
  destruct (truthy host); [|discriminate]. cbn [andb].
  destruct (truthy p) eqn:T; [|discriminate]. cbn [andb].
  destruct (negb _); [|discriminate].
  intros [= <-]. split; [exact T|].
  intros ->. discriminate H.
Qed.

Lemma galaxyKeeps_bad (obj : GalaxyAction.ChapterNode) :
  GalaxyAction.badHref (orEmpty (GalaxyAction.chapter_href obj))
  = negb (galaxyKeeps obj).
Proof.
  unfold GalaxyAction.badHref, galaxyKeeps. cbv zeta.
  destruct (truthy _), (startsWith _ _), (includes _ "{{"), (includes _ "}}");
    reflexivity.
Qed.

Lemma zizKeeps_bad (obj : Ziz.ChapterNode) :
  Ziz.badHref (orEmpty (Ziz.chapter_href obj)) = negb (zizKeeps obj).
Proof.
  unfold Ziz.badHref, zizKeeps. cbv zeta.
  destruct (truthy _), (startsWith _ _); reflexivity.
Qed.

(** The id of a kept entry passes the second test of the callback. *)
Lemma galaxy_id_passes (href : string) :
  truthy href = true -> startsWith href "#" = false ->
  negb (truthy (GalaxyAction.chapterIdOf href))
  || String.eqb (GalaxyAction.chapterIdOf href) "#" = false.
Proof.
  intros T H. unfold GalaxyAction.chapterIdOf.
  assert (href <> "#") as N by (intros ->; discriminate H).
  destruct (startsWith href "http").
  - destruct (GalaxyAction.pathOfAbsolute href) as [path|] eqn:P.
    + destruct (pathOfAbsolute_path _ P) as [T' N'].
      rewrite T'. now apply String.eqb_neq in N' as ->.
    + rewrite T. now apply String.eqb_neq in N as ->.
  - rewrite T. now apply String.eqb_neq in N as ->.
Qed.

Lemma ensureTrailingSlash_passes (url : string) :
  negb (truthy (Ziz.ensureTrailingSlash url))
  || String.eqb (Ziz.ensureTrailingSlash url) "#" = false.
Proof.
  assert (Ziz.ensureTrailingSlash url <> "" /\ Ziz.ensureTrailingSlash url <> "#")
    as [N1 N2].
  { unfold Ziz.ensureTrailingSlash. destruct (endsWith url "/") eqn:E.
    - split; intros ->; discriminate E.
    - destruct url as [|c [|d u]]; split; discriminate. }
  apply truthy_true in N1. apply String.eqb_neq in N2. now rewrite N1, N2.
Qed.

Section Galaxy.
Context {RT : Runtime}.
Variables (sm : SourceManga) (source : Source).

(** The callback, entry by entry. *)
Lemma galaxy_chapterOf (total i : nat) (obj : GalaxyAction.ChapterNode) (clk : Clock) :
  GalaxyAction.chapterOf sm source total i obj clk
  = if galaxyKeeps obj
    then let (t, clk') :=
           GalaxyAction.parseDate (trim (GalaxyAction.chapterdate obj)) clk in
         (Some (galaxyChapter sm source total i obj t), clk')
    else (None, clk).
Proof.
  unfold GalaxyAction.chapterOf. rewrite galaxyKeeps_bad.
  destruct (galaxyKeeps obj) eqn:K; cbn [negb]; [|reflexivity].
  destruct (GalaxyAction.parseDate _ clk) as [t clk'].
  rewrite galaxy_id_passes; [reflexivity| |].
  - unfold galaxyKeeps in K. cbv zeta in K.
    now destruct (truthy (orEmpty (GalaxyAction.chapter_href obj))).
  - unfold galaxyKeeps in K. cbv zeta in K.
    destruct (truthy _); [|discriminate].
    now destruct (startsWith _ "#").
Qed.

Lemma galaxy_each_cons (total i : nat) (obj : GalaxyAction.ChapterNode)
    (rest : list GalaxyAction.ChapterNode) (clk : Clock) :
  GalaxyAction.eachChapter sm source total i (obj :: rest) clk
  = if galaxyKeeps obj
    then let (t, clk') :=
           GalaxyAction.parseDate (trim (GalaxyAction.chapterdate obj)) clk in
         let (cs, clk'') := GalaxyAction.eachChapter sm source total (S i) rest clk' in
         (galaxyChapter sm source total i obj t :: cs, clk'')
    else GalaxyAction.eachChapter sm source total (S i) rest clk.
Proof.
  cbn [GalaxyAction.eachChapter]. rewrite galaxy_chapterOf.
  destruct (galaxyKeeps obj).
  - destruct (GalaxyAction.parseDate _ clk) as [t clk'].
    now destruct (GalaxyAction.eachChapter sm source total (S i) rest clk').
  - now destruct (GalaxyAction.eachChapter sm source total (S i) rest clk).
Qed.

Lemma galaxy_indices (total : nat) (nodes : list GalaxyAction.ChapterNode) :
  forall i clk,
    map sortingIndex (fst (GalaxyAction.eachChapter sm source total i nodes clk))
    = map (fun j => total - j) (keptPositions galaxyKeeps i nodes).
Proof.
  induction nodes as [|obj rest IH]; intros i clk; [reflexivity|].
  rewrite galaxy_each_cons. cbn [keptPositions].
  destruct (galaxyKeeps obj); [|apply IH].
  destruct (GalaxyAction.parseDate _ clk) as [t clk'].
  specialize (IH (S i) clk').
  destruct (GalaxyAction.eachChapter sm source total (S i) rest clk').
  cbn [fst map] in *. now rewrite IH.
Qed.

Lemma galaxy_ids (total : nat) (nodes : list GalaxyAction.ChapterNode) :
  forall i clk,
    map chapterId (fst (GalaxyAction.eachChapter sm source total i nodes clk))
    = map (fun obj => GalaxyAction.chapterIdOf
                        (orEmpty (GalaxyAction.chapter_href obj)))
          (filter galaxyKeeps nodes).
Proof.
  induction nodes as [|obj rest IH]; intros i clk; [reflexivity|].
  rewrite galaxy_each_cons. cbn [filter].
  destruct (galaxyKeeps obj); [|apply IH].
  destruct (GalaxyAction.parseDate _ clk) as [t clk'].
  specialize (IH (S i) clk').
  destruct (GalaxyAction.eachChapter sm source total (S i) rest clk').
  cbn [fst map] in *. now rewrite IH.
Qed.

Lemma galaxy_undated (total : nat) (nodes : list GalaxyAction.ChapterNode) :
  forall i clk1 clk2,
    map undated (fst (GalaxyAction.eachChapter sm source total i nodes clk1))
    = map undated (fst (GalaxyAction.eachChapter sm source total i nodes clk2)).
Proof.
  induction nodes as [|obj rest IH]; intros i clk1 clk2; [reflexivity|].
  rewrite !galaxy_each_cons.
  destruct (galaxyKeeps obj); [|apply IH].
  destruct (GalaxyAction.parseDate _ clk1) as [t1 clk1'].
  destruct (GalaxyAction.parseDate _ clk2) as [t2 clk2'].
  specialize (IH (S i) clk1' clk2').
  destruct (GalaxyAction.eachChapter sm source total (S i) rest clk1').
  destruct (GalaxyAction.eachChapter sm source total (S i) rest clk2').
  cbn [fst map] in *. now rewrite IH.
Qed.

Lemma newDate_sameReadings (clk1 clk2 : Clock) :
  sameReadings clk1 clk2 ->
  fst (newDate clk1) = fst (newDate clk2)
  /\ sameReadings (snd (newDate clk1)) (snd (newDate clk2)).
Proof. intros H. split; [apply H|intros n; apply H]. Qed.

Lemma parseDate_sameReadings (text : string) (clk1 clk2 : Clock) :
  sameReadings clk1 clk2 ->
  fst (GalaxyAction.parseDate text clk1) = fst (GalaxyAction.parseDate text clk2)
  /\ sameReadings (snd (GalaxyAction.parseDate text clk1))
                  (snd (GalaxyAction.parseDate text clk2)).
Proof.
  intros H. unfold GalaxyAction.parseDate.
  destruct (negb (truthy text)); [now apply newDate_sameReadings|].
  destruct (_ || _); [now apply newDate_sameReadings|].
  destruct (Date_parse _); [now split|now apply newDate_sameReadings].
Qed.

Lemma galaxy_sameReadings (total : nat) (nodes : list GalaxyAction.ChapterNode) :
  forall i clk1 clk2,
    sameReadings clk1 clk2 ->
    fst (GalaxyAction.eachChapter sm source total i nodes clk1)
    = fst (GalaxyAction.eachChapter sm source total i nodes clk2).
Proof.
  induction nodes as [|obj rest IH]; intros i clk1 clk2 H; [reflexivity|].
  rewrite !galaxy_each_cons.
  destruct (galaxyKeeps obj); [|now apply IH].
  destruct (parseDate_sameReadings (trim (GalaxyAction.chapterdate obj)) H) as [E H'].
  destruct (GalaxyAction.parseDate _ clk1) as [t1 clk1'].
  destruct (GalaxyAction.parseDate _ clk2) as [t2 clk2'].
  cbn [fst snd] in E, H'. subst t2.
  specialize (IH (S i) clk1' clk2' H').
  destruct (GalaxyAction.eachChapter sm source total (S i) rest clk1').
  destruct (GalaxyAction.eachChapter sm source total (S i) rest clk2').
  cbn [fst] in *. now rewrite IH.
Qed.

Lemma parseDate_dated (obj : GalaxyAction.ChapterNode) (clk : Clock) :
  galaxyDated obj ->
  exists t, GalaxyAction.parseDate (trim (GalaxyAction.chapterdate obj)) clk = (t, clk)
            /\ Date_parse (trim (trim (GalaxyAction.chapterdate obj))) = Some t.
Proof.
  intros (N & A & J & t & D). exists t. split; [|exact D].
  unfold GalaxyAction.parseDate.
  apply truthy_true in N. rewrite N. cbn [negb]. now rewrite A, J, D.
Qed.

Lemma galaxy_dated (total : nat) (nodes : list GalaxyAction.ChapterNode) :
  (forall obj, In obj nodes -> galaxyKeeps obj = true -> galaxyDated obj) ->
  forall i clk1 clk2,
    fst (GalaxyAction.eachChapter sm source total i nodes clk1)
    = fst (GalaxyAction.eachChapter sm source total i nodes clk2).
Proof.
  induction nodes as [|obj rest IH]; intros H i clk1 clk2; [reflexivity|].
  rewrite !galaxy_each_cons.
  assert (forall o, In o rest -> galaxyKeeps o = true -> galaxyDated o) as H'
    by (intros o Ho; apply H; now right).
  destruct (galaxyKeeps obj) eqn:K; [|now apply IH].
  destruct (parseDate_dated clk1 (H obj (or_introl eq_refl) K)) as (t1 & -> & D1).
  destruct (parseDate_dated clk2 (H obj (or_introl eq_refl) K)) as (t2 & -> & D2).
  assert (t1 = t2) as -> by congruence.
  specialize (IH H' (S i) clk1 clk2).
  destruct (GalaxyAction.eachChapter sm source total (S i) rest clk1).
  destruct (GalaxyAction.eachChapter sm source total (S i) rest clk2).
  cbn [fst] in *. now rewrite IH.
Qed.

End Galaxy.

(** *** Positions and indices *)

Lemma keptPositions_range {A : Type} (good : A -> bool) (nodes : list A) :
  forall i, Forall (fun j => i <= j < i + length nodes)%nat (keptPositions good i nodes).
Proof.
  induction nodes as [|a rest IH]; intros i; cbn [keptPositions]; [constructor|].
  assert (Forall (fun j => i <= j < i + length (a :: rest))%nat
                 (keptPositions good (S i) rest)) as T.
  { eapply Forall_impl; [|apply IH]. cbn [length]. intros j; cbn beta. lia. }
  destruct (good a); [|exact T].
  constructor; [cbn [length]; lia|exact T].
Qed.

Lemma keptPositions_increasing {A : Type} (good : A -> bool) (nodes : list A) :
  forall i, StronglySorted lt (keptPositions good i nodes).
Proof.
  induction nodes as [|a rest IH]; intros i; cbn [keptPositions]; [constructor|].
  destruct (good a); [|apply IH].
  constructor; [apply IH|].
  eapply Forall_impl; [|apply keptPositions_range]. intros j; cbn beta. lia.
Qed.

Lemma keptPositions_all {A : Type} (good : A -> bool) (nodes : list A) :
  forallb good nodes = true ->
  forall i, keptPositions good i nodes = seq i (length nodes).
Proof.
  induction nodes as [|a rest IH]; intros H i; [reflexivity|].
  cbn [forallb] in H. apply andb_true_iff in H as [Ha Hr].
  cbn [keptPositions length seq]. now rewrite Ha, (IH Hr).
Qed.

Lemma countdown_seq (n : nat) :
  forall i total, (i + n = total)%nat ->
    map (fun j => total - j)%nat (seq i n) = countdown n.
Proof.
  induction n as [|n IH]; intros i total E; [reflexivity|].
  cbn [seq map countdown]. f_equal; [lia|]. apply IH. lia.
Qed.

(** The indices of the positions kept, read in the order of the
    document, fall strictly; all lie between 1 and [total]. *)
Lemma indices_decreasing (total : nat) (positions : list nat) :
  StronglySorted lt positions ->
  Forall (fun j => j < total)%nat positions ->
  StronglySorted (fun a b => b < a)%nat (map (fun j => total - j)%nat positions)
  /\ Forall (fun k => 1 <= k <= total)%nat (map (fun j => total - j)%nat positions).
Proof.
  induction positions as [|p ps IH]; intros S B; [split; constructor|].
  apply StronglySorted_inv in S as [S Hp].
  apply Forall_cons_iff in B as [Bp B].
  destruct (IH S B) as [IH1 IH2]. cbn [map]. split.
  - constructor; [exact IH1|].
    apply Forall_map. rewrite Forall_forall in *. intros q Hq.
    specialize (Hp q Hq). specialize (B q Hq). lia.
  - constructor; [lia|exact IH2].
Qed.

Section ZizList.
Context {RT : Runtime}.
Variables (sm : SourceManga) (source : Source).

Lemma ziz_chapterOf (n : nat) (obj : Ziz.ChapterNode) (clk : Clock) :
  Ziz.chapterOf sm source n obj clk
  = if zizKeeps obj
    then let (t, clk') := zizDate obj clk in
         (Some (zizChapter sm source n obj t), clk')
    else (None, clk).
Proof.
  unfold Ziz.chapterOf, zizDate, zizChapter. rewrite zizKeeps_bad.
  destruct (zizKeeps obj); cbn [negb]; [|reflexivity]. cbv zeta.
  destruct (Ziz.extractChapterNumber _ _) as [num name].
  destruct (Ziz.parseRelativeDate _ clk) as [t clk'].
  unfold Ziz.chapterIdOf at 1 2. now rewrite ensureTrailingSlash_passes.
Qed.

Lemma ziz_each_cons (n : nat) (obj : Ziz.ChapterNode)
    (rest : list Ziz.ChapterNode) (clk : Clock) :
  Ziz.eachChapter sm source n (obj :: rest) clk
  = if zizKeeps obj
    then let (t, clk') := zizDate obj clk in
         let (cs, clk'') := Ziz.eachChapter sm source (S n) rest clk' in
         (zizChapter sm source n obj t :: cs, clk'')
    else Ziz.eachChapter sm source n rest clk.
Proof.
  cbn [Ziz.eachChapter]. rewrite ziz_chapterOf.
  destruct (zizKeeps obj); [|reflexivity].
  now destruct (zizDate obj clk) as [t clk'].
Qed.

Lemma ziz_ids (nodes : list Ziz.ChapterNode) :
  forall n clk,
    map chapterId (fst (Ziz.eachChapter sm source n nodes clk))
    = map (fun obj => Ziz.chapterIdOf (orEmpty (Ziz.chapter_href obj)))
          (filter zizKeeps nodes).
Proof.
  induction nodes as [|obj rest IH]; intros n clk; [reflexivity|].
  rewrite ziz_each_cons. cbn [filter].
  destruct (zizKeeps obj); [|apply IH].
  destruct (zizDate obj clk) as [t clk'].
  specialize (IH (S n) clk').
  destruct (Ziz.eachChapter sm source (S n) rest clk').
  cbn [fst map] in *. now rewrite IH.
Qed.

Lemma ziz_undated (nodes : list Ziz.ChapterNode) :
  forall n clk1 clk2,
    map undated (fst (Ziz.eachChapter sm source n nodes clk1))
    = map undated (fst (Ziz.eachChapter sm source n nodes clk2)).
Proof.
  induction nodes as [|obj rest IH]; intros n clk1 clk2; [reflexivity|].
  rewrite !ziz_each_cons.
  destruct (zizKeeps obj); [|apply IH].
  destruct (zizDate obj clk1) as [t1 clk1'].
  destruct (zizDate obj clk2) as [t2 clk2'].
  specialize (IH (S n) clk1' clk2').
  destruct (Ziz.eachChapter sm source (S n) rest clk1').
  destruct (Ziz.eachChapter sm source (S n) rest clk2').
  cbn [fst map] in *. now rewrite IH.
Qed.

Lemma zizDate_sameReadings (obj : Ziz.ChapterNode) (clk1 clk2 : Clock) :
  sameReadings clk1 clk2 ->
  fst (zizDate obj clk1) = fst (zizDate obj clk2)
  /\ sameReadings (snd (zizDate obj clk1)) (snd (zizDate obj clk2)).
Proof.
  intros H. unfold zizDate, Ziz.parseRelativeDate.
  destruct (negb (truthy _)); [now apply newDate_sameReadings|].
  destruct (Date_parse _); [now split|now apply newDate_sameReadings].
Qed.

Lemma ziz_sameReadings (nodes : list Ziz.ChapterNode) :
  forall n clk1 clk2,
    sameReadings clk1 clk2 ->
    fst (Ziz.eachChapter sm source n nodes clk1)
    = fst (Ziz.eachChapter sm source n nodes clk2).
Proof.
  induction nodes as [|obj rest IH]; intros n clk1 clk2 H; [reflexivity|].
  rewrite !ziz_each_cons.
  destruct (zizKeeps obj); [|now apply IH].
  destruct (zizDate_sameReadings obj H) as [E H'].
  destruct (zizDate obj clk1) as [t1 clk1'].
  destruct (zizDate obj clk2) as [t2 clk2'].
  cbn [fst snd] in E, H'. subst t2.
  specialize (IH (S n) clk1' clk2' H').
  destruct (Ziz.eachChapter sm source (S n) rest clk1').
  destruct (Ziz.eachChapter sm source (S n) rest clk2').
  cbn [fst] in *. now rewrite IH.
Qed.

(** Sorting and numbering. *)

Lemma insertSorted_perm (compare : Chapter -> Chapter -> comparison)
    (a : Chapter) (l : list Chapter) :
  Permutation (Ziz.insertSorted compare a l) (a :: l).
Proof.
  induction l as [|b l IH]; cbn [Ziz.insertSorted]; [reflexivity|].
  destruct (compare a b); try reflexivity.
  rewrite IH. apply perm_swap.
Qed.

Lemma sort_perm (compare : Chapter -> Chapter -> comparison) (l : list Chapter) :
  Permutation (Ziz.sort compare l) l.
Proof.
  induction l as [|a l IH]; cbn [Ziz.sort]; [reflexivity|].
  rewrite insertSorted_perm. now constructor.
Qed.

Lemma insertSorted_undated (a : Chapter) (l : list Chapter) :
  Ziz.insertSorted Ziz.byNumberDescending (undated a) (map undated l)
  = map undated (Ziz.insertSorted Ziz.byNumberDescending a l).
Proof.
  induction l as [|b l IH]; cbn [Ziz.insertSorted map]; [reflexivity|].
  change (Ziz.byNumberDescending (undated a) (undated b))
    with (Ziz.byNumberDescending a b).
  destruct (Ziz.byNumberDescending a b); try reflexivity.
  cbn [map]. now rewrite IH.
Qed.

Lemma sort_undated (l : list Chapter) :
  Ziz.sort Ziz.byNumberDescending (map undated l)
  = map undated (Ziz.sort Ziz.byNumberDescending l).
Proof.
  induction l as [|a l IH]; cbn [Ziz.sort map]; [reflexivity|].
  now rewrite IH, insertSorted_undated.
Qed.

Lemma reindex_undated (len : nat) (l : list Chapter) :
  forall i, Ziz.reindex len i (map undated l) = map undated (Ziz.reindex len i l).
Proof.
  induction l as [|a l IH]; intros i; cbn [Ziz.reindex map]; [reflexivity|].
  now rewrite IH.
Qed.

Lemma reindex_ids (len : nat) (l : list Chapter) :
  forall i, map chapterId (Ziz.reindex len i l) = map chapterId l.
Proof.
  induction l as [|a l IH]; intros i; cbn [Ziz.reindex map]; [reflexivity|].
  now rewrite IH.
Qed.

Lemma reindex_length (len : nat) (l : list Chapter) :
  forall i, length (Ziz.reindex len i l) = length l.
Proof.
  induction l as [|a l IH]; intros i; cbn [Ziz.reindex length]; [reflexivity|].
  now rewrite IH.
Qed.

Lemma reindex_indices (len : nat) (l : list Chapter) :
  forall i, (i + length l = len)%nat ->
    map sortingIndex (Ziz.reindex len i l) = countdown (length l).
Proof.
  induction l as [|a l IH]; intros i E; [reflexivity|].
  cbn [length] in *. cbn [Ziz.reindex map countdown].
  f_equal; [cbn; lia|]. apply IH. lia.
Qed.

End ZizList.

End ChapterFacts.

Lemma countdown_length (n : nat) : length (countdown n) = n.
Proof. induction n as [|n IH]; cbn [countdown length]; [reflexivity|now rewrite IH]. Qed.

Lemma filter_split_length {A : Type} (f : A -> bool) (l : list A) :
  (length (filter f l) + length (filter (fun a => negb (f a)) l) = length l)%nat.
Proof.
  induction l as [|a l IH]; [reflexivity|].
  cbn [filter length]. destruct (f a); cbn [negb length]; lia.
Qed.

(** *** What the chapters are dated with *)

Module ClockFacts.
Import JS JSFacts ChapterFacts.

Lemma stamped_shift (own : list (option Date)) (clk : Clock) :
  forall n, stamped own (fun k => clk (S k)) n = stamped own clk (S n).
Proof.
  induction own as [|[t|] rest IH]; intros n; cbn [stamped]; [reflexivity| |];
    now rewrite IH.
Qed.

Section Dates.
Context {RT : Runtime}.
Variables (sm : SourceManga) (source : Source).

Lemma galaxy_parseDate (obj : GalaxyAction.ChapterNode) (clk : Clock) :
  GalaxyAction.parseDate (trim (GalaxyAction.chapterdate obj)) clk
  = match galaxyOwnDate obj with
    | Some t => (t, clk)
    | None => newDate clk
    end.
Proof.
  unfold GalaxyAction.parseDate, galaxyOwnDate. cbv zeta.
  destruct (truthy (trim (GalaxyAction.chapterdate obj))); cbn [negb andb];
    [|reflexivity].
  destruct (includes _ "ago"); cbn [negb andb orb]; [reflexivity|].
  destruct (includes _ "just now"); cbn [negb]; reflexivity.
Qed.

Lemma galaxy_dates (total : nat) (nodes : list GalaxyAction.ChapterNode) :
  forall i clk,
    map publishDate (fst (GalaxyAction.eachChapter sm source total i nodes clk))
    = stamped (map galaxyOwnDate (filter galaxyKeeps nodes)) clk 0.
Proof.
  induction nodes as [|obj rest IH]; intros i clk; [reflexivity|].
  rewrite galaxy_each_cons. cbn [filter].
  destruct (galaxyKeeps obj); [|apply IH].
  rewrite galaxy_parseDate. cbn [map stamped].
  destruct (galaxyOwnDate obj) as [t|].
  - specialize (IH (S i) clk).
    destruct (GalaxyAction.eachChapter sm source total (S i) rest clk).
    cbn [fst map galaxyChapter publishDate] in *. now rewrite IH.
  - cbn [newDate]. specialize (IH (S i) (fun n => clk (S n))).
    destruct (GalaxyAction.eachChapter sm source total (S i) rest _).
    cbn [fst map galaxyChapter publishDate] in *.
    now rewrite IH, stamped_shift.
Qed.

Lemma ziz_parseDate (obj : Ziz.ChapterNode) (clk : Clock) :
  zizDate obj clk
  = match zizOwnDate obj with
    | Some t => (t, clk)
    | None => newDate clk
    end.
Proof.
  unfold zizDate, zizOwnDate, Ziz.parseRelativeDate. cbv zeta.
  destruct (truthy _); cbn [negb]; reflexivity.
Qed.

Lemma ziz_dates (nodes : list Ziz.ChapterNode) :
  forall n clk,
    map dated (fst (Ziz.eachChapter sm source n nodes clk))
    = combine (map (fun obj => Ziz.chapterIdOf (orEmpty (Ziz.chapter_href obj)))
                   (filter zizKeeps nodes))
              (stamped (map zizOwnDate (filter zizKeeps nodes)) clk 0).
Proof.
  induction nodes as [|obj rest IH]; intros n clk; [reflexivity|].
  rewrite ziz_each_cons. cbn [filter].
  destruct (zizKeeps obj); [|apply IH].
  rewrite ziz_parseDate. cbn [map stamped].
  destruct (zizOwnDate obj) as [t|].
  - specialize (IH (S n) clk).
    destruct (Ziz.eachChapter sm source (S n) rest clk).
    cbn [fst map combine] in *. now rewrite IH.
  - cbn [newDate]. specialize (IH (S n) (fun k => clk (S k))).
    destruct (Ziz.eachChapter sm source (S n) rest _).
    cbn [fst map combine] in *. now rewrite IH, stamped_shift.
Qed.

Lemma reindex_dated (len : nat) (l : list Chapter) :
  forall i, map dated (Ziz.reindex len i l) = map dated l.
Proof.
  induction l as [|a l IH]; intros i; cbn [Ziz.reindex map]; [reflexivity|].
  now rewrite IH.
Qed.

End Dates.

End ClockFacts.

Section ChapterClaims.
Context {RT : Runtime}.
Import ChapterFacts.

Lemma ziz_list (nodes : list Ziz.ChapterNode) (sm : SourceManga)
    (source : Source) (clk : Clock) :
  fst (Ziz.parseChapterList nodes sm source clk)
  = sortedAndNumbered (fst (Ziz.eachChapter sm source 0 nodes clk)).
Proof.
  unfold Ziz.parseChapterList.
  now destruct (Ziz.eachChapter sm source 0 nodes clk).
Qed.

Lemma sortedAndNumbered_undated (chapters : list Chapter) :
  map undated (sortedAndNumbered chapters) = sortedAndNumbered (map undated chapters).
Proof.
  unfold sortedAndNumbered. cbv zeta.
  rewrite sort_undated, reindex_undated. now rewrite length_map.
Qed.

(** C2, amended. Ziz: the values of [sortingIndex], in the order of the
    list returned, are count, ..., 1. GalaxyAction: the index of a kept
    entry is the number of all entry nodes less its position among them,
    dropped entries included; so the values are distinct, fall strictly
    along the list and lie between 1 and the number of entry nodes, and
    they are count, ..., 1 when no entry was dropped. *)
Theorem C2_sorting_indices (nodesA : list GalaxyAction.ChapterNode)
    (nodesB : list Ziz.ChapterNode) (sm : SourceManga) (source : Source)
    (clk : Clock) :
  let outA := fst (GalaxyAction.parseChapterList nodesA sm source clk) in
  let outB := fst (Ziz.parseChapterList nodesB sm source clk) in
  map sortingIndex outB = countdown (length outB)
  /\ map sortingIndex outA
     = map (fun j => length nodesA - j)%nat (keptPositions galaxyKeeps 0 nodesA)
  /\ StronglySorted (fun a b => b < a)%nat (map sortingIndex outA)
  /\ Forall (fun k => 1 <= k <= length nodesA)%nat (map sortingIndex outA)
  /\ (forallb galaxyKeeps nodesA = true ->
      map sortingIndex outA = countdown (length outA)).
Proof.
  intros outA outB.
  assert (map sortingIndex outA
          = map (fun j => length nodesA - j)%nat (keptPositions galaxyKeeps 0 nodesA))
    as EA by apply galaxy_indices.
  split; [|split; [exact EA|]].
  - subst outB. rewrite ziz_list. unfold sortedAndNumbered. cbv zeta.
    rewrite reindex_length. apply reindex_indices. reflexivity.
  - rewrite EA.
    destruct (@indices_decreasing (length nodesA) (keptPositions galaxyKeeps 0 nodesA))
      as [D B].
    + apply keptPositions_increasing.
    + eapply Forall_impl; [|apply keptPositions_range]. intros j; cbn beta. lia.
    + split; [exact D|]. split; [exact B|].
      intros K. rewrite <- EA.
      assert (map sortingIndex outA = countdown (length nodesA)) as C.
      { rewrite EA, (keptPositions_all _ _ K). now apply countdown_seq. }
      assert (length outA = length nodesA) as L.
      { rewrite <- (length_map sortingIndex outA), C. apply countdown_length. }
      now rewrite L.
Qed.

(** C3, amended. GalaxyAction drops the entries whose href is absent or
    empty, begins with a hash sign or holds one of the two placeholder
    marks, and keeps every other entry, in document order; among the
    dropped are all those the specification names. Ziz drops the entries
    whose href is absent or empty or begins with a hash sign and keeps
    every other entry, placeholder marks included. On both sites five
    entries of which one is dropped give four chapters. *)
Theorem C3_bad_hrefs_dropped (nodesA : list GalaxyAction.ChapterNode)
    (nodesB : list Ziz.ChapterNode) (sm : SourceManga) (source : Source)
    (clk : Clock) :
  let outA := fst (GalaxyAction.parseChapterList nodesA sm source clk) in
  let outB := fst (Ziz.parseChapterList nodesB sm source clk) in
  map chapterId outA
  = map (fun obj => GalaxyAction.chapterIdOf
                      (JS.orEmpty (GalaxyAction.chapter_href obj)))
        (filter galaxyKeeps nodesA)
  /\ Permutation
       (map chapterId outB)
       (map (fun obj => Ziz.chapterIdOf (JS.orEmpty (Ziz.chapter_href obj)))
            (filter zizKeeps nodesB))
  /\ (forall obj, specExcludes (GalaxyAction.chapter_href obj) = true ->
                  galaxyKeeps obj = false)
  /\ (forall obj, JS.orEmpty (Ziz.chapter_href obj) = ""
                  \/ JS.orEmpty (Ziz.chapter_href obj) = "#" ->
                  zizKeeps obj = false)
  /\ (length nodesA = 5%nat ->
      length (filter (fun obj => negb (galaxyKeeps obj)) nodesA) = 1%nat ->
      length outA = 4%nat)
  /\ (length nodesB = 5%nat ->
      length (filter (fun obj => negb (zizKeeps obj)) nodesB) = 1%nat ->
      length outB = 4%nat).
Proof.
  intros outA outB.
  assert (map chapterId outA
          = map (fun obj => GalaxyAction.chapterIdOf
                              (JS.orEmpty (GalaxyAction.chapter_href obj)))
                (filter galaxyKeeps nodesA)) as EA by apply galaxy_ids.
  assert (Permutation
            (map chapterId outB)
            (map (fun obj => Ziz.chapterIdOf (JS.orEmpty (Ziz.chapter_href obj)))
                 (filter zizKeeps nodesB))) as EB.
  { subst outB. rewrite ziz_list. unfold sortedAndNumbered. cbv zeta.
    rewrite reindex_ids, <- (ziz_ids sm source nodesB 0 clk).
    apply Permutation_map, sort_perm. }
  split; [exact EA|]. split; [exact EB|]. split; [|split; [|split]].
  - intros obj. unfold specExcludes, galaxyKeeps. cbv zeta.
    destruct (String.eqb_spec (JS.orEmpty (GalaxyAction.chapter_href obj)) "")
      as [->|_]; [reflexivity|].
    destruct (String.eqb_spec (JS.orEmpty (GalaxyAction.chapter_href obj)) "#")
      as [->|_]; [reflexivity|].
    cbn [orb]. intros H. apply orb_true_iff in H as [-> | ->];
      cbn [negb]; now rewrite ?andb_false_r.
  - intros obj H. unfold zizKeeps. cbv zeta. destruct H as [-> | ->]; reflexivity.
  - intros L D. pose proof (filter_split_length galaxyKeeps nodesA) as S.
    rewrite <- (length_map chapterId outA), EA, length_map. lia.
  - intros L D. pose proof (filter_split_length zizKeeps nodesB) as S.
    rewrite <- (length_map chapterId outB), (Permutation_length EB), length_map. lia.
Qed.

(** C5, amended: the output of [parseChapterList] is fixed by the
    document, the context and the readings of the clock. Two runs on the
    same document agree on every field but [publishDate] whatever the
    clock reads, and on GalaxyAction they agree on [publishDate] too when
    the date text of every kept entry is an absolute date that [Date]
    parses. The [publishDate] of a kept entry is the date of its text
    when the text has one, and otherwise the current time: the entries
    without a date of their own get the readings of the clock in turn,
    in document order. The other four operations take no clock: what
    they return is fixed by the parts of the document and of the context
    that they look at. *)
Theorem C5_chapter_lists_and_the_clock (nodesA : list GalaxyAction.ChapterNode)
    (nodesB : list Ziz.ChapterNode) (sm : SourceManga) (source : Source)
    (clk1 clk2 : Clock) :
  let outA clk := fst (GalaxyAction.parseChapterList nodesA sm source clk) in
  let outB clk := fst (Ziz.parseChapterList nodesB sm source clk) in
  (sameReadings clk1 clk2 -> outA clk1 = outA clk2 /\ outB clk1 = outB clk2)
  /\ map undated (outA clk1) = map undated (outA clk2)
  /\ map undated (outB clk1) = map undated (outB clk2)
  /\ ((forall obj, In obj nodesA -> galaxyKeeps obj = true -> galaxyDated obj) ->
      outA clk1 = outA clk2)
  /\ map publishDate (outA clk1)
     = stamped (map galaxyOwnDate (filter galaxyKeeps nodesA)) clk1 0
  /\ Permutation
       (map dated (outB clk1))
       (combine (map (fun obj => Ziz.chapterIdOf (JS.orEmpty (Ziz.chapter_href obj)))
                     (filter zizKeeps nodesB))
                (stamped (map zizOwnDate (filter zizKeeps nodesB)) clk1 0))
  /\ (forall (doc : GalaxyAction.DetailsDoc) (id : string) (s1 s2 : Source),
        domain s1 = domain s2 ->
        GalaxyAction.parseMangaDetails doc id s1
        = GalaxyAction.parseMangaDetails doc id s2)
  /\ (forall (doc : Ziz.DetailsDoc) (id : string) (s1 s2 : Source),
        domain s1 = domain s2 ->
        Ziz.parseMangaDetails doc id s1 = Ziz.parseMangaDetails doc id s2)
  /\ (forall (doc1 doc2 : GalaxyAction.ReaderDoc) (c1 c2 : Chapter),
        GalaxyAction.scripts doc1 = GalaxyAction.scripts doc2 ->
        chapterId c1 = chapterId c2 ->
        mangaId (sourceManga c1) = mangaId (sourceManga c2) ->
        GalaxyAction.parseChapterDetails doc1 c1
        = GalaxyAction.parseChapterDetails doc2 c2)
  /\ (forall (doc : Ziz.ReaderDoc) (c1 c2 : Chapter),
        chapterId c1 = chapterId c2 ->
        mangaId (sourceManga c1) = mangaId (sourceManga c2) ->
        Ziz.parseChapterDetails doc c1 = Ziz.parseChapterDetails doc c2)
  /\ (forall (doc1 doc2 : GalaxyAction.ListingDoc) (s1 s2 : Source)
             (section1 section2 : DiscoverSection),
        searchMangaSelector s1 = searchMangaSelector s2 ->
        doc1 (JS.or (searchMangaSelector s1) ".bsx")
        = doc2 (JS.or (searchMangaSelector s1) ".bsx") ->
        discover_type section1 = discover_type section2 ->
        GalaxyAction.parseSearchResults doc1 s1
        = GalaxyAction.parseSearchResults doc2 s2
        /\ GalaxyAction.parseDiscoverSections doc1 section1 s1
           = GalaxyAction.parseDiscoverSections doc2 section2 s2)
  /\ (forall (doc1 doc2 : Ziz.SearchDoc),
        Ziz.noResults doc1 = Ziz.noResults doc2 ->
        Ziz.searchResultsOf doc1 = Ziz.searchResultsOf doc2 ->
        Ziz.parseSearchResults doc1 = Ziz.parseSearchResults doc2)
  /\ (forall (doc : Ziz.HomeDoc) (section1 section2 : DiscoverSection),
        discover_id section1 = discover_id section2 ->
        Ziz.parseDiscoverSections doc section1
        = Ziz.parseDiscoverSections doc section2).
Proof.
  intros outA outB. split; [|split; [|split; [|split; [|split; [|split]]]]].
  - intros H. split.
    + now apply galaxy_sameReadings.
    + subst outB. cbv beta. rewrite !ziz_list. f_equal. now apply ziz_sameReadings.
  - apply galaxy_undated.
  - subst outB. cbv beta. rewrite !ziz_list, !sortedAndNumbered_undated.
    f_equal. apply ziz_undated.
  - intros H. now apply galaxy_dated.
  - apply ClockFacts.galaxy_dates.
  - subst outB. cbv beta. rewrite ziz_list. unfold sortedAndNumbered. cbv zeta.
    rewrite ClockFacts.reindex_dated,
      <- (ClockFacts.ziz_dates sm source nodesB 0 clk1).
    apply Permutation_map, sort_perm.
  - repeat split.
    + intros doc id s1 s2 E. unfold GalaxyAction.parseMangaDetails. now rewrite E.
    + intros doc id s1 s2 E. unfold Ziz.parseMangaDetails. now rewrite E.
    + intros doc1 doc2 c1 c2 E1 E2 E3.
      unfold GalaxyAction.parseChapterDetails, GalaxyAction.extractImagesFromScript.
      now rewrite E1, E2, E3.
    + intros doc c1 c2 E2 E3. unfold Ziz.parseChapterDetails. now rewrite E2, E3.
    + unfold GalaxyAction.parseSearchResults. now rewrite <- H, H0.
    + unfold GalaxyAction.parseDiscoverSections. rewrite <- H, H0.
      apply eachPush_ext. intros i obj. now rewrite H1.
    + intros doc1 doc2 E1 E2. unfold Ziz.parseSearchResults. now rewrite E1, E2.
    + intros doc section1 section2 E. unfold Ziz.parseDiscoverSections.
      now rewrite E.
Qed.

End ChapterClaims.

Lemma C2_sorting_indices_witness :
  let outA := fst (GalaxyAction.parseChapterList (RT := Reference.runtime)
                     galaxyFour sampleManga GalaxyAction.extension
                     (stoppedAt 0%Z)) in
  let outB := fst (Ziz.parseChapterList (RT := Reference.runtime)
                     zizFive sampleManga GalaxyAction.extension
                     (stoppedAt 0%Z)) in
  forallb galaxyKeeps galaxyFour = true
  /\ map sortingIndex outA = [4; 3; 2; 1]%nat
  /\ map sortingIndex outA = countdown (length outA)
  /\ length zizFive = 5%nat
  /\ map chapterId outB
     = ["/reader/manga/solo/5/"; "/reader/manga/solo/4/";
        "/reader/manga/solo/3/"; "/reader/manga/solo/1/"]
  /\ map sortingIndex outB = [4; 3; 2; 1]%nat.
Proof.
  pose proof (@C2_sorting_indices Reference.runtime galaxyFour zizFive
                sampleManga GalaxyAction.extension (stoppedAt 0%Z)) as H.
  cbv zeta in H. destruct H as (HB & _ & _ & _ & HA).
  split; [reflexivity|]. split; [exact (HA eq_refl)|].
  split; [exact (HA eq_refl)|]. split; [reflexivity|].
  split; [reflexivity|exact HB].
Defined.

(** C2 as stated fails on GalaxyAction: of three entries the second has a
    hash sign for href and is dropped; the two chapters returned have the
    indices 3 and 1, not 2 and 1. *)
Lemma C2_sorting_indices_counterexample :
  let out := fst (GalaxyAction.parseChapterList (RT := Reference.runtime)
                    galaxyThree sampleManga GalaxyAction.extension
                    (stoppedAt 0%Z)) in
  length out = 2%nat
  /\ map sortingIndex out = [3; 1]%nat
  /\ map sortingIndex out <> countdown (length out).
Proof.
  cbv zeta. split; [reflexivity|]. split; [reflexivity|].
  intros H. vm_compute in H. discriminate H.
Qed.

Lemma C3_bad_hrefs_dropped_witness :
  (length galaxyFive = 5%nat
   /\ length (filter (fun obj => negb (galaxyKeeps obj)) galaxyFive) = 1%nat
   /\ length (fst (GalaxyAction.parseChapterList (RT := Reference.runtime)
                     galaxyFive sampleManga GalaxyAction.extension
                     (stoppedAt 0%Z))) = 4%nat)
  /\ (length zizFive = 5%nat
      /\ length (filter (fun obj => negb (zizKeeps obj)) zizFive) = 1%nat
      /\ length (fst (Ziz.parseChapterList (RT := Reference.runtime)
                        zizFive sampleManga Ziz.extension
                        (stoppedAt 0%Z))) = 4%nat).
Proof.
  pose proof (@C3_bad_hrefs_dropped Reference.runtime galaxyFive zizFive
                sampleManga GalaxyAction.extension (stoppedAt 0%Z)) as HA.
  pose proof (@C3_bad_hrefs_dropped Reference.runtime galaxyFive zizFive
                sampleManga Ziz.extension (stoppedAt 0%Z)) as HB.
  cbv zeta in HA, HB.
  destruct HA as (_ & _ & _ & _ & HA & _). destruct HB as (_ & _ & _ & _ & _ & HB).
  split; (split; [reflexivity|split; [reflexivity|]]).
  - exact (HA eq_refl eq_refl).
  - exact (HB eq_refl eq_refl).
Defined.

(** C3 as stated fails. Ziz keeps an entry whose href holds a
    placeholder, which the specification excludes; GalaxyAction drops an
    entry whose href begins with a hash sign without being one, which the
    specification keeps. *)
Lemma C3_bad_hrefs_dropped_counterexample :
  specExcludes (Some "/reader/manga/solo/{{chapter}}/") = true
  /\ map chapterId
         (fst (Ziz.parseChapterList (RT := Reference.runtime) zizTemplate
                 sampleManga Ziz.extension (stoppedAt 0%Z)))
     = ["/reader/manga/solo/{{chapter}}/"]
  /\ specExcludes (Some "#comments") = false
  /\ fst (GalaxyAction.parseChapterList (RT := Reference.runtime) galaxyFragment
            sampleManga GalaxyAction.extension (stoppedAt 0%Z)) = [].
Proof. repeat split; reflexivity. Qed.

Lemma galaxyThree_dated (obj : GalaxyAction.ChapterNode) :
  In obj galaxyThree -> galaxyKeeps obj = true ->
  galaxyDated (RT := Reference.runtime) obj.
Proof.
  intros [<-|[<-|[<-|[]]]] K; try discriminate K;
    (split; [vm_compute; discriminate|]);
    (split; [reflexivity|]); (split; [reflexivity|]);
    eexists; vm_compute; reflexivity.
Qed.

Lemma C5_chapter_lists_and_the_clock_witness :
  let outA clk := fst (GalaxyAction.parseChapterList (RT := Reference.runtime)
                         galaxyThree sampleManga GalaxyAction.extension clk) in
  let mixed clk := fst (GalaxyAction.parseChapterList (RT := Reference.runtime)
                          galaxyMixed sampleManga GalaxyAction.extension clk) in
  let outB clk := fst (Ziz.parseChapterList (RT := Reference.runtime)
                         zizFive sampleManga GalaxyAction.extension clk) in
  sameReadings (stoppedAt 7%Z) (fun n => 7%Z)
  /\ outA (stoppedAt 7%Z) = outA (fun n => 7%Z)
  /\ outA (stoppedAt 1%Z) = outA (stoppedAt 2%Z)
  /\ map publishDate (mixed ticking) = [100; 86400000; 101]%Z
  /\ Permutation (map dated (outB ticking))
                 [ ("/reader/manga/solo/1/", 100%Z);
                   ("/reader/manga/solo/3/", 101%Z);
                   ("/reader/manga/solo/4/", 102%Z);
                   ("/reader/manga/solo/5/", 103%Z) ].
Proof.
  pose proof (@C5_chapter_lists_and_the_clock Reference.runtime galaxyThree
                zizRelative sampleManga GalaxyAction.extension
                (stoppedAt 7%Z) (fun n => 7%Z)) as H1.
  pose proof (@C5_chapter_lists_and_the_clock Reference.runtime galaxyThree
                zizRelative sampleManga GalaxyAction.extension
                (stoppedAt 1%Z) (stoppedAt 2%Z)) as H2.
  pose proof (@C5_chapter_lists_and_the_clock Reference.runtime galaxyMixed
                zizFive sampleManga GalaxyAction.extension
                ticking ticking) as H3.
  cbv zeta in H1, H2, H3.
  destruct H1 as (H1 & _). destruct H2 as (_ & _ & _ & H2 & _).
  destruct H3 as (_ & _ & _ & _ & H3 & H4 & _).
  assert (sameReadings (stoppedAt 7%Z) (fun n => 7%Z)) as S by (intros n; reflexivity).
  split; [exact S|]. split; [exact (proj1 (H1 S))|].
  split; [exact (H2 galaxyThree_dated)|].
  split; [exact H3|exact H4].
Defined.

(** C5 as stated fails: the same entry, whose date text is not an
    absolute date, read while the clock stands at 0 and while it stands at
    1, is dated 0 and 1; so on both sites. *)
Lemma C5_chapter_lists_and_the_clock_counterexample :
  let outA clk := fst (GalaxyAction.parseChapterList (RT := Reference.runtime)
                         galaxyRelative sampleManga GalaxyAction.extension clk) in
  let outB clk := fst (Ziz.parseChapterList (RT := Reference.runtime)
                         zizRelative sampleManga Ziz.extension clk) in
  map publishDate (outA (stoppedAt 0%Z)) = [0%Z]
  /\ map publishDate (outA (stoppedAt 1%Z)) = [1%Z]
  /\ outA (stoppedAt 0%Z) <> outA (stoppedAt 1%Z)
  /\ map publishDate (outB (stoppedAt 0%Z)) = [0%Z]
  /\ map publishDate (outB (stoppedAt 1%Z)) = [1%Z]
  /\ outB (stoppedAt 0%Z) <> outB (stoppedAt 1%Z).
Proof.
  cbv zeta. repeat split; try reflexivity;
    intros H; apply (f_equal (map publishDate)) in H; vm_compute in H; discriminate H.
Qed.

Lemma C4_status_normalised_witness :
  let galaxy st :=
    status (mangaInfo
      (GalaxyAction.parseMangaDetails (RT := Reference.runtime)
         (galaxyPage st "Action") "solo" GalaxyAction.extension)) in
  let ziz st :=
    status (mangaInfo
      (Ziz.parseMangaDetails (RT := Reference.runtime)
         (zizPage st "Action") "solo" Ziz.extension)) in
  galaxy "" = "Ongoing"
  /\ galaxy "Finished" = "Completed"
  /\ galaxy "On Hold" = "Hiatus"
  /\ galaxy "dropped" = "Cancelled"
  /\ galaxy "season end" = "Season end"
  /\ ziz "" = "Ongoing"
  /\ ziz "In Release" = "Ongoing"
  /\ ziz "Season end" = "Season end".
Proof.
  intros galaxy ziz.
  pose proof (@C4_status_normalised Reference.runtime) as [HA HB].
  assert (forall st, _) as A
    by exact (fun st => HA (galaxyPage st "Action") "solo" GalaxyAction.extension).
  assert (forall st, _) as B
    by exact (fun st => HB (zizPage st "Action") "solo" Ziz.extension).
  cbv zeta in A, B.
  split; [exact (proj1 (A "") eq_refl)|].
  split; [apply (A "Finished"); [vm_compute; discriminate|vm_compute; tauto]|].
  split; [apply (A "On Hold"); [vm_compute; discriminate|vm_compute; tauto]|].
  split; [apply (A "dropped"); [vm_compute; discriminate|vm_compute; tauto]|].
  split; [apply (A "season end"); vm_compute; intuition discriminate|].
  split; [exact (proj1 (B "") eq_refl)|].
  split; [apply (B "In Release"); vm_compute; tauto|].
  apply (B "Season end"); [vm_compute; discriminate|].
  repeat split; vm_compute; intuition discriminate.
Defined.

(** C4 as stated fails. Ziz returns a text of the Completed bucket and a
    text of no bucket as they are, neither mapped nor title-cased;
    GalaxyAction returns a text of the Ongoing bucket title-cased, not
    mapped to Ongoing. *)
Lemma C4_status_normalised_counterexample :
  let galaxy st :=
    status (mangaInfo
      (GalaxyAction.parseMangaDetails (RT := Reference.runtime)
         (galaxyPage st "Action") "solo" GalaxyAction.extension)) in
  let ziz st :=
    status (mangaInfo
      (Ziz.parseMangaDetails (RT := Reference.runtime)
         (zizPage st "Action") "solo" Ziz.extension)) in
  (In (@toLowerCase Reference.runtime "finished") Ziz.STATUS_MAPPING.COMPLETED
   /\ ziz "finished" = "finished" /\ ziz "finished" <> "Completed")
  /\ (unmapped (@toLowerCase Reference.runtime "axed")
      /\ ziz "axed" = "axed" /\ ziz "axed" <> "Axed")
  /\ (In (@toLowerCase Reference.runtime "publishing") Ziz.STATUS_MAPPING.ONGOING
      /\ galaxy "publishing" = "Publishing" /\ galaxy "publishing" <> "Ongoing").
Proof.
  cbv zeta. repeat split; try reflexivity; vm_compute; intuition discriminate.
Qed.

(** ** Images from the inline script *)

Module ScriptFacts.
Import JS JSFacts.

Lemma replaceChar_app (x y : ascii) (s t : string) :
  replaceChar x y (s ++ t) = replaceChar x y s ++ replaceChar x y t.
Proof. induction s as [|c s IH]; simpl; [reflexivity|now rewrite IH]. Qed.

Lemma replaceChar_none (x y : ascii) (s : string) :
  mem x s = false -> replaceChar x y s = s.
Proof.
  induction s as [|c s IH]; simpl; [reflexivity|].
  intros H. apply orb_false_iff in H as [Hc Hs]. now rewrite Hc, (IH Hs).
Qed.

Lemma replaceChar_quoted (q : ascii) (u : string) :
  q = SQ \/ q = DQ -> mem SQ u = false ->
  replaceChar SQ DQ (quoted q u) = quoted DQ u.
Proof.
  intros Hq Hu. unfold quoted. cbn [replaceChar].
  rewrite replaceChar_app, (replaceChar_none _ _ _ Hu). cbn [replaceChar].
  now destruct Hq as [-> | ->].
Qed.

Lemma ws_mem (g : string) (x : ascii) :
  onlyWhiteSpace g = true -> mem x g = true -> isWhiteSpace x = true.
Proof.
  induction g as [|c g IH]; cbn [onlyWhiteSpace mem]; [discriminate|].
  intros H M. apply andb_true_iff in H as [Hc Hg].
  apply orb_true_iff in M as [M|M]; [|now apply IH].
  apply Ascii.eqb_eq in M. now subst x.
Qed.

Lemma ws_none (g : string) (x : ascii) :
  onlyWhiteSpace g = true -> isWhiteSpace x = false -> mem x g = false.
Proof.
  intros H W. destruct (mem x g) eqn:M; [|reflexivity].
  now rewrite (ws_mem _ _ H M) in W.
Qed.

Lemma ws_last (t : string) :
  onlyWhiteSpace t = true -> t <> "" ->
  exists t' w, t = t' ++ String w ""
               /\ onlyWhiteSpace t' = true /\ isWhiteSpace w = true.
Proof.
  induction t as [|c t IH]; [congruence|].
  cbn [onlyWhiteSpace]. intros H _. apply andb_true_iff in H as [Hc Ht].
  destruct t as [|d t].
  - now exists "", c.
  - destruct (IH Ht) as (t' & w & E & H1 & H2); [discriminate|].
    exists (String c t'), w. rewrite E. cbn [append onlyWhiteSpace].
    now rewrite Hc, H1.
Qed.

Lemma replaceChar_joined (q : ascii) (gap : string) (urls : list string) :
  q = SQ \/ q = DQ -> onlyWhiteSpace gap = true -> Forall plainUrl urls ->
  replaceChar SQ DQ (joined q gap urls) = joined DQ gap urls.
Proof.
  intros Hq Hg H. induction H as [|u rest (_ & Hu & _) H IH]; [reflexivity|].
  destruct rest as [|v rest].
  - now apply replaceChar_quoted.
  - change (joined q gap (u :: v :: rest))
      with (quoted q u ++ "," ++ gap ++ joined q gap (v :: rest)).
    change (joined DQ gap (u :: v :: rest))
      with (quoted DQ u ++ "," ++ gap ++ joined DQ gap (v :: rest)).
    rewrite !replaceChar_app, IH, (replaceChar_quoted _ Hq Hu).
    now rewrite (replaceChar_none SQ DQ gap) by (now apply ws_none).
Qed.

Lemma replaceChar_array (q : ascii) (trailing : option string) (gap : string)
    (urls : list string) :
  q = SQ \/ q = DQ -> onlyWhiteSpace gap = true ->
  onlyWhiteSpace (orEmpty trailing) = true -> Forall plainUrl urls ->
  replaceChar SQ DQ (imageArray q trailing gap urls)
  = imageArray DQ trailing gap urls.
Proof.
  intros Hq Hg Ht H. unfold imageArray.
  destruct trailing as [tail|]; cbn [append replaceChar orEmpty] in *;
    rewrite !replaceChar_app, (@replaceChar_joined q gap urls Hq Hg H);
    [|reflexivity].
  cbn [replaceChar]. rewrite replaceChar_app.
  now rewrite (replaceChar_none SQ DQ tail) by (now apply ws_none).
Qed.

Lemma joined_no_bracket (gap : string) (urls : list string) :
  onlyWhiteSpace gap = true -> Forall plainUrl urls ->
  mem "]" (joined DQ gap urls) = false.
Proof.
  intros Hg H. induction H as [|u rest (_ & _ & Hu) H IH]; [reflexivity|].
  assert (mem "]" (quoted DQ u) = false) as Q.
  { unfold quoted. cbn [mem]. now rewrite mem_app, Hu. }
  destruct rest as [|v rest]; [exact Q|].
  change (joined DQ gap (u :: v :: rest))
    with (quoted DQ u ++ "," ++ gap ++ joined DQ gap (v :: rest)).
  rewrite !mem_app, Q, IH. now rewrite (@ws_none gap "]"%char Hg eq_refl).
Qed.

(** The text before the closing bracket of a well-formed array ends with
    the opening bracket or with a double quote. *)
Lemma array_body (gap : string) (urls : list string) :
  onlyWhiteSpace gap = true -> Forall plainUrl urls ->
  exists s c, "[" ++ joined DQ gap urls = s ++ String c ""
              /\ mem "]" s = false /\ (c = "["%char \/ c = DQ).
Proof.
  intros Hg H. destruct urls as [|u rest].
  - exists "", "["%char. repeat split. now left.
  - assert (exists s, joined DQ gap (u :: rest) = s ++ String DQ ""
                      /\ mem "]" s = false) as (s & E & M).
    { pose proof (@joined_no_bracket gap (u :: rest) Hg H) as N. revert N.
      clear H. revert u. induction rest as [|v rest IH]; intros u N.
      - exists (String DQ u). split; [reflexivity|].
        cbn [joined] in N. unfold quoted in N. cbn [mem] in *.
        rewrite mem_app in N. apply orb_false_iff in N as [N1 N2].
        apply orb_false_iff in N2 as [N2 _]. now rewrite N1, N2.
      - change (joined DQ gap (u :: v :: rest))
          with (quoted DQ u ++ "," ++ gap ++ joined DQ gap (v :: rest)) in *.
        rewrite !mem_app in N. apply orb_false_iff in N as [N1 N2].
        apply orb_false_iff in N2 as [_ N2].
        apply orb_false_iff in N2 as [N3 N2].
        destruct (IH v N2) as (s & E & M).
        exists (quoted DQ u ++ "," ++ gap ++ s). split.
        + now rewrite E, !append_assoc.
        + now rewrite !mem_app, N1, N3, M. }
    exists ("[" ++ s), DQ. repeat split.
    + now rewrite E.
    + exact M.
    + now right.
Qed.

Lemma replaceCommaBracket_end (s : string) (c : ascii) :
  mem "]" s = false -> c <> ","%char -> c <> "]"%char ->
  GalaxyAction.replaceCommaBracket (s ++ String c "]") = s ++ String c "]"
  /\ GalaxyAction.replaceCommaBracket (s ++ String c ",]") = s ++ String c "]".
Proof.
  intros Hs Hc1 Hc2.
  assert (Ascii.eqb c "," = false) as E1 by now apply Ascii.eqb_neq.
  assert (Ascii.eqb c "]" = false) as E2 by now apply Ascii.eqb_neq.
  induction s as [|a s IH].
  - cbn -[Ascii.eqb]. rewrite E1. cbn -[Ascii.eqb]. now split.
  - cbn [mem] in Hs. apply orb_false_iff in Hs as [Ha Hs].
    destruct (IH Hs) as [IH1 IH2].
    assert (forall t, exists d r, s ++ String c t = String d r
                                  /\ Ascii.eqb d "]" = false) as Hd.
    { intros t. destruct s as [|d s'].
      - now exists c, t.
      - exists d, (s' ++ String c t). split; [reflexivity|].
        cbn [mem] in Hs. now apply orb_false_iff in Hs as [Hs _]. }
    split.
    + destruct (Hd "]") as (d & r & E & D).
      cbn [append GalaxyAction.replaceCommaBracket]. rewrite E at 1.
      rewrite D, andb_false_r. now rewrite IH1.
    + destruct (Hd ",]") as (d & r & E & D).
      cbn [append GalaxyAction.replaceCommaBracket]. rewrite E at 1.
      rewrite D, andb_false_r. now rewrite IH2.
Qed.

Lemma replaceCommaSpaceBracket_end (s : string) (c : ascii) :
  mem "]" s = false -> c <> ","%char -> c <> "]"%char -> isWhiteSpace c = false ->
  forall pending,
    GalaxyAction.replaceCommaSpaceBracket pending (s ++ String c "]")
    = orEmpty pending ++ s ++ String c "]".
Proof.
  intros Hs Hc1 Hc2 W.
  assert (Ascii.eqb c "," = false) as E1 by now apply Ascii.eqb_neq.
  assert (Ascii.eqb c "]" = false) as E2 by now apply Ascii.eqb_neq.
  induction s as [|a s IH]; intros pending.
  - cbn -[Ascii.eqb isWhiteSpace]. destruct pending as [p|].
    + rewrite W, E2, E1. cbn -[Ascii.eqb isWhiteSpace]. reflexivity.
    + rewrite E1. reflexivity.
  - cbn [mem] in Hs. apply orb_false_iff in Hs as [Ha Hs].
    cbn [append GalaxyAction.replaceCommaSpaceBracket]. destruct pending as [p|].
    + destruct (isWhiteSpace a).
      * rewrite (IH Hs). cbn [orEmpty]. now rewrite append_assoc.
      * rewrite Ha. destruct (Ascii.eqb_spec a ",") as [->|_].
        -- now rewrite (IH Hs).
        -- now rewrite (IH Hs).
    + destruct (Ascii.eqb_spec a ",") as [->|_]; now rewrite (IH Hs).
Qed.

Lemma replaceCommaSpaceBracket_ws (tail : string) :
  onlyWhiteSpace tail = true ->
  forall p, GalaxyAction.replaceCommaSpaceBracket (Some p) (tail ++ "]") = "]".
Proof.
  induction tail as [|w tail IH]; intros H p.
  - reflexivity.
  - cbn [onlyWhiteSpace] in H. apply andb_true_iff in H as [Hw Ht].
    cbn [append GalaxyAction.replaceCommaSpaceBracket]. rewrite Hw. now apply IH.
Qed.

Lemma replaceCommaSpaceBracket_none (c : ascii) (t : string) :
  GalaxyAction.replaceCommaSpaceBracket None (String c t)
  = if Ascii.eqb c ","
    then GalaxyAction.replaceCommaSpaceBracket (Some ",") t
    else String c (GalaxyAction.replaceCommaSpaceBracket None t).
Proof. reflexivity. Qed.

Lemma replaceCommaSpaceBracket_some (p : string) (c : ascii) (t : string) :
  GalaxyAction.replaceCommaSpaceBracket (Some p) (String c t)
  = if isWhiteSpace c
    then GalaxyAction.replaceCommaSpaceBracket (Some (p ++ String c "")) t
    else if Ascii.eqb c "]"
    then String "]" (GalaxyAction.replaceCommaSpaceBracket None t)
    else if Ascii.eqb c ","
    then p ++ GalaxyAction.replaceCommaSpaceBracket (Some ",") t
    else p ++ String c (GalaxyAction.replaceCommaSpaceBracket None t).
Proof. reflexivity. Qed.

Lemma replaceCommaSpaceBracket_tail (s tail : string) (c : ascii) :
  mem "]" s = false ->
  onlyWhiteSpace tail = true -> c <> ","%char -> c <> "]"%char ->
  isWhiteSpace c = false ->
  forall pending,
    GalaxyAction.replaceCommaSpaceBracket pending
      (s ++ String c (String "," (tail ++ "]")))
    = orEmpty pending ++ s ++ String c "]".
Proof.
  intros Hs Ht Hc1 Hc2 W.
  assert (Ascii.eqb c "," = false) as E1 by now apply Ascii.eqb_neq.
  assert (Ascii.eqb c "]" = false) as E2 by now apply Ascii.eqb_neq.
  assert (GalaxyAction.replaceCommaSpaceBracket None (String "," (tail ++ "]"))
          = "]") as T.
  { rewrite replaceCommaSpaceBracket_none. cbn [Ascii.eqb Bool.eqb].
    now apply replaceCommaSpaceBracket_ws. }
  induction s as [|a s IH]; intros pending.
  - cbn [append]. destruct pending as [p|].
    + now rewrite replaceCommaSpaceBracket_some, W, E2, E1, T.
    + now rewrite replaceCommaSpaceBracket_none, E1, T.
  - cbn [mem] in Hs. apply orb_false_iff in Hs as [Ha Hs].
    cbn [append]. destruct pending as [p|].
    + rewrite replaceCommaSpaceBracket_some, Ha. destruct (isWhiteSpace a).
      * rewrite (IH Hs). cbn [orEmpty]. now rewrite append_assoc.
      * destruct (Ascii.eqb_spec a ",") as [->|_]; now rewrite (IH Hs).
    + rewrite replaceCommaSpaceBracket_none.
      destruct (Ascii.eqb_spec a ",") as [->|_]; now rewrite (IH Hs).
Qed.

(** Cleaning any of the forms gives the well-formed array with the same
    white space after its commas. *)
Lemma cleanArray_array (q : ascii) (trailing : option string) (gap : string)
    (urls : list string) :
  q = SQ \/ q = DQ -> onlyWhiteSpace gap = true ->
  onlyWhiteSpace (orEmpty trailing) = true -> Forall plainUrl urls ->
  GalaxyAction.cleanArray (imageArray q trailing gap urls)
  = imageArray DQ None gap urls.
Proof.
  intros Hq Hg Ht H. unfold GalaxyAction.cleanArray.
  rewrite (@replaceChar_array q trailing gap urls Hq Hg Ht H).
  destruct (@array_body gap urls Hg H) as (s & c & E & M & Hc).
  assert (c <> ","%char /\ c <> "]"%char /\ isWhiteSpace c = false) as (C1 & C2 & C3)
    by (destruct Hc as [-> | ->]; repeat split; discriminate).
  destruct (replaceCommaBracket_end s M C1 C2) as [R1 R2].
  assert (forall t, "[" ++ joined DQ gap urls ++ t = s ++ String c t) as B.
  { intros t. rewrite <- (append_assoc "[" (joined DQ gap urls)), E.
    now rewrite append_assoc. }
  assert (imageArray DQ None gap urls = s ++ String c "]") as F
    by (unfold imageArray; apply B).
  rewrite F. destruct trailing as [tail|].
  - assert (imageArray DQ (Some tail) gap urls
            = s ++ String c (String "," (tail ++ "]"))) as T.
    { unfold imageArray. rewrite B. now rewrite append_assoc. }
    rewrite T. cbn [orEmpty] in Ht. destruct tail as [|w tail].
    + change (String "," ("" ++ "]")) with ",]". rewrite R2.
      now rewrite (replaceCommaSpaceBracket_end s M C1 C2 C3 None).
    + destruct (@ws_last (String w tail) Ht) as (t' & w' & Et & Ht' & Hw'); [discriminate|].
      assert (GalaxyAction.replaceCommaBracket
                (s ++ String c (String "," (String w tail ++ "]")))
              = s ++ String c (String "," (String w tail ++ "]"))) as K.
      { rewrite Et.
        assert (s ++ String c (String "," ((t' ++ String w' "") ++ "]"))
                = (s ++ String c (String "," t')) ++ String w' "]") as ->
          by (rewrite !append_assoc; cbn [append]; now rewrite ?append_assoc).
        apply replaceCommaBracket_end.
        - rewrite mem_app, M. cbn [mem append].
          rewrite (@ws_none t' "]"%char Ht' eq_refl).
          now destruct Hc as [-> | ->].
        - intros ->. discriminate Hw'.
        - intros ->. discriminate Hw'. }
      rewrite K.
      now rewrite (@replaceCommaSpaceBracket_tail s (String w tail) c M Ht C1 C2 C3 None).
  - rewrite F, R1.
    now rewrite (replaceCommaSpaceBracket_end s M C1 C2 C3 None).
Qed.

Lemma extract_matched {RT : Runtime} (doc : GalaxyAction.ReaderDoc) :
  GalaxyAction.extractImagesFromScript doc
  = match matchedImages doc with
    | None => []
    | Some matched =>
        match JSON_parse (GalaxyAction.cleanArray matched) with
        | Some (JArray imageArray) =>
            eachPush (fun _ => GalaxyAction.validImage) 0 imageArray
        | Some _ => []
        | None => filter GalaxyAction.isValidImageUrl
                         (GalaxyAction.urlMatches None matched)
        end
    end.
Proof.
  unfold GalaxyAction.extractImagesFromScript, matchedImages.
  now destruct (find _ _).
Qed.

End ScriptFacts.

(** C9, amended: when the URLs hold no quote and no closing bracket, and
    the array of images in the script is written with single or double
    quotes, with or without a comma after its last element, and with
    white space after its commas, then, provided the array with the same
    URLs in double quotes, without that comma and with the same white
    space is valid JSON, [extractImagesFromScript] returns for it what it
    returns for that well-formed array; and when [JSON.parse] reads the
    well-formed array as the list of its URLs, both return those URLs
    that [isValidImageUrl] accepts, in order. *)
Theorem C9_malformed_array_same_images {RT : Runtime}
    (docM docW : GalaxyAction.ReaderDoc) (urls : list string)
    (singleQuotes : bool) (trailingComma : option string) (gap : string) :
  Forall plainUrl urls ->
  onlyWhiteSpace gap = true ->
  onlyWhiteSpace (JS.orEmpty trailingComma) = true ->
  matchedImages docM
  = Some (imageArray (if singleQuotes then SQ else DQ) trailingComma gap urls) ->
  matchedImages docW = Some (imageArray DQ None gap urls) ->
  JSON_parse (imageArray DQ None gap urls) <> None ->
  GalaxyAction.extractImagesFromScript docM
  = GalaxyAction.extractImagesFromScript docW
  /\ (JSON_parse (imageArray DQ None gap urls) = Some (JArray (map JString urls)) ->
      GalaxyAction.extractImagesFromScript docM
      = filter GalaxyAction.isValidImageUrl urls).
Proof.
  intros P G T M W J. rewrite !ScriptFacts.extract_matched, M, W.
  rewrite !ScriptFacts.cleanArray_array; try exact P; try exact G; try exact T;
    try reflexivity; try (now right);
    try (destruct singleQuotes; [now left|now right]).
  split.
  - destruct (JSON_parse (imageArray DQ None gap urls)); [reflexivity|congruence].
  - intros ->. rewrite eachPush_yielded. clear.
    induction urls as [|u rest IH]; [reflexivity|].
    unfold yielded in *. cbn [map flat_map filter GalaxyAction.validImage].
    rewrite IH. now destruct (GalaxyAction.isValidImageUrl u).
Qed.

Lemma sampleUrls_plain : Forall plainUrl sampleUrls.
Proof. repeat constructor. Qed.

Lemma C9_malformed_array_same_images_witness :
  Forall plainUrl sampleUrls
  /\ onlyWhiteSpace " " = true
  /\ imageArray SQ (Some " ") " " sampleUrls
     = "['https://cdn.example/solo/1.jpg', 'https://cdn.example/solo/2.jpg', ]"
  /\ GalaxyAction.extractImagesFromScript (RT := Reference.runtime)
       (readerPage (imageArray SQ (Some " ") " " sampleUrls))
     = GalaxyAction.extractImagesFromScript (RT := Reference.runtime)
         (readerPage (imageArray DQ None " " sampleUrls))
  /\ GalaxyAction.extractImagesFromScript (RT := Reference.runtime)
       (readerPage (imageArray SQ (Some " ") " " sampleUrls))
     = sampleUrls.
Proof.
  split; [exact sampleUrls_plain|]. split; [reflexivity|]. split; [reflexivity|].
  assert (@JSON_parse Reference.runtime (imageArray DQ None " " sampleUrls)
          = Some (JArray (map JString sampleUrls))) as J by reflexivity.
  assert (@JSON_parse Reference.runtime (imageArray DQ None " " sampleUrls) <> None)
    as N by (rewrite J; discriminate).
  destruct (@C9_malformed_array_same_images Reference.runtime
              (readerPage (imageArray SQ (Some " ") " " sampleUrls))
              (readerPage (imageArray DQ None " " sampleUrls))
              sampleUrls true (Some " ") " " sampleUrls_plain
              eq_refl eq_refl eq_refl eq_refl N) as [H1 H2].
  split; [exact H1|exact (H2 J)].
Defined.

(** C9 as stated fails: of two URLs the second holds brackets. The text
    taken for the array ends at the first closing bracket, so that
    [JSON.parse] throws on it; the fallback then reads the literals in
    double quotes of the text as it stands in the script, and finds the
    first URL in the well-formed array and nothing in the array written
    with single quotes. *)
Lemma C9_malformed_array_same_images_counterexample :
  let malformed := GalaxyAction.extractImagesFromScript (RT := Reference.runtime)
                     (readerPage (imageArray SQ None "" bracketUrls)) in
  let wellFormed := GalaxyAction.extractImagesFromScript (RT := Reference.runtime)
                      (readerPage (imageArray DQ None "" bracketUrls)) in
  imageArray SQ None "" bracketUrls
  = "['https://cdn.example/solo/1.jpg','https://cdn.example/solo/a[2].jpg']"
  /\ malformed = []
  /\ wellFormed = ["https://cdn.example/solo/1.jpg"]
  /\ malformed <> wellFormed.
Proof. cbv zeta. repeat split; try reflexivity. discriminate. Qed.

(** * Further properties of the extensions *)

Module RequestFacts.
Import JS JSFacts.

Lemma mangaPathMatch_none (s : string) :
  mem "/" s = false -> mangaPathMatch s = None.
Proof.
  induction s as [|c s IH]; [reflexivity|].
  simpl mem. intros H. apply orb_false_iff in H as [Hc Hs].
  cbn -[Ascii.eqb]. unfold Ziz.groupAfter.
  cbn -[Ascii.eqb]. rewrite Ascii.eqb_sym, Hc. now apply IH.
Qed.

Lemma mangaPathMatch_step (c : ascii) (s : string) :
  Ziz.groupAfter "/manga/" (String c s) = None ->
  mangaPathMatch (String c s) = mangaPathMatch s.
Proof. intros H. simpl. now rewrite H. Qed.

Lemma mangaPathMatch_here (s g : string) :
  Ziz.groupAfter "/manga/" s = Some g -> mangaPathMatch s = Some g.
Proof.
  intros H. destruct s; [cbv in H; discriminate|simpl; now rewrite H].
Qed.

Lemma groupAfter_manga (id rest : string) :
  truthy id = true -> mem "/" id = false -> pathRest rest = true ->
  Ziz.groupAfter "/manga/" ("/manga/" ++ id ++ rest) = Some id.
Proof.
  intros Ht Hs Hr. unfold Ziz.groupAfter.
  replace (stripPrefix "/manga/" ("/manga/" ++ id ++ rest))
    with (Some (id ++ rest)) by reflexivity.
  assert (forall d, mem d id = true -> negb (Ascii.eqb d "/") = true) as Hid.
  { intros d Hd. destruct (Ascii.eqb_spec d "/"); [subst; congruence|reflexivity]. }
  destruct rest as [|c rest].
  - rewrite append_empty_r, (span_whole _ _ Hid). cbn [fst]. now rewrite Ht.
  - cbn [pathRest] in Hr. apply Ascii.eqb_eq in Hr. subst c.
    rewrite (span_all _ _ rest "/" Hid) by reflexivity.
    cbn [fst]. now rewrite Ht.
Qed.

Lemma cleanIdOf_slug (id : string) :
  mem "/" id = false -> cleanIdOf id = id.
Proof.
  intros Hs. unfold cleanIdOf. rewrite (mangaPathMatch_none _ Hs).
  destruct (startsWith id "http"); [reflexivity|].
  destruct id as [|c id]; [reflexivity|].
  simpl in Hs. apply orb_false_iff in Hs as [Hc _].
  cbn -[Ascii.eqb]. now rewrite Ascii.eqb_sym, Hc.
Qed.

Lemma cleanIdOf_path (id : string) : cleanIdOf ("/manga/" ++ id) = id.
Proof. reflexivity. Qed.

Lemma mangaPathMatch_galaxy (id rest : string) :
  truthy id = true -> mem "/" id = false -> pathRest rest = true ->
  mangaPathMatch (GalaxyAction.DOMAIN ++ "/manga/" ++ id ++ rest) = Some id.
Proof.
  intros Ht Hs Hr. unfold GalaxyAction.DOMAIN. cbn [append].
  repeat (rewrite mangaPathMatch_step by reflexivity).
  apply mangaPathMatch_here. exact (groupAfter_manga id rest Ht Hs Hr).
Qed.

Lemma cleanIdOf_galaxy (id rest : string) :
  truthy id = true -> mem "/" id = false -> pathRest rest = true ->
  cleanIdOf (GalaxyAction.DOMAIN ++ "/manga/" ++ id ++ rest) = id.
Proof.
  intros Ht Hs Hr. unfold cleanIdOf.
  rewrite (mangaPathMatch_galaxy id rest Ht Hs Hr).
  now replace (startsWith _ "http") with true by reflexivity.
Qed.

Lemma mangaPathMatch_ziz (id rest : string) :
  truthy id = true -> mem "/" id = false -> pathRest rest = true ->
  mangaPathMatch (Ziz.DOMAIN ++ "/manga/" ++ id ++ rest) = Some id.
Proof.
  intros Ht Hs Hr. unfold Ziz.DOMAIN. cbn [append].
  repeat (rewrite mangaPathMatch_step by reflexivity).
  apply mangaPathMatch_here. exact (groupAfter_manga id rest Ht Hs Hr).
Qed.

Lemma cleanIdOf_ziz (id rest : string) :
  truthy id = true -> mem "/" id = false -> pathRest rest = true ->
  cleanIdOf (Ziz.DOMAIN ++ "/manga/" ++ id ++ rest) = id.
Proof.
  intros Ht Hs Hr. unfold cleanIdOf.
  rewrite (mangaPathMatch_ziz id rest Ht Hs Hr).
  now replace (startsWith _ "http") with true by reflexivity.
Qed.

End RequestFacts.

(** X1. [getMangaDetails] of both extensions takes a manga by its slug,
    by its path [/manga/slug] and by the address of its page on the
    site, in which the slug ends the address or is followed by a slash:
    the three forms give the same request and the same result, whose
    [mangaId] is the slug. In particular the share URL of a result leads
    back to it. *)
Theorem getMangaDetails_accepts_slug_path_and_address {RT : Runtime}
    (fetchA : string -> GalaxyAction.DetailsDoc)
    (fetchB : string -> Ziz.DetailsDoc) (id rest : string) :
  JS.truthy id = true -> JS.mem "/" id = false -> pathRest rest = true ->
  let galaxy := GalaxyActionExtension.getMangaDetails fetchA in
  let ziz := ZizExtension.getMangaDetails fetchB in
  (mangaId (galaxy id) = id
   /\ galaxy ("/manga/" ++ id) = galaxy id
   /\ galaxy (GalaxyAction.DOMAIN ++ "/manga/" ++ id ++ rest) = galaxy id
   /\ galaxy (shareUrl (mangaInfo (galaxy id))) = galaxy id)
  /\ (mangaId (ziz id) = id
      /\ ziz ("/manga/" ++ id) = ziz id
      /\ ziz (Ziz.DOMAIN ++ "/manga/" ++ id ++ rest) = ziz id
      /\ ziz (shareUrl (mangaInfo (ziz id))) = ziz id).
Proof.
  intros Ht Hs Hr galaxy ziz. subst galaxy ziz.
  unfold GalaxyActionExtension.getMangaDetails, ZizExtension.getMangaDetails.
  rewrite !RequestFacts.cleanIdOf_path.
  rewrite (RequestFacts.cleanIdOf_slug _ Hs).
  rewrite (RequestFacts.cleanIdOf_galaxy id rest Ht Hs Hr).
  rewrite (RequestFacts.cleanIdOf_ziz id rest Ht Hs Hr).
  repeat split.
  - cbn [shareUrl mangaInfo GalaxyAction.parseMangaDetails domain
         GalaxyAction.extension].
    pose proof (RequestFacts.cleanIdOf_galaxy id "" Ht Hs eq_refl) as E.
    rewrite JSFacts.append_empty_r in E. now rewrite E.
  - cbn [shareUrl mangaInfo Ziz.parseMangaDetails domain Ziz.extension].
    now rewrite (RequestFacts.cleanIdOf_ziz id "/" Ht Hs eq_refl).
Qed.

Lemma getMangaDetails_accepts_slug_path_and_address_witness :
  JS.truthy "solo-leveling" = true
  /\ JS.mem "/" "solo-leveling" = false
  /\ pathRest "/chapter-1/" = true
  /\ let galaxy := GalaxyActionExtension.getMangaDetails (RT := Reference.runtime)
                     (fun _ => blankGalaxyDetails) in
     galaxy "https://galaxyaction.net/manga/solo-leveling/chapter-1/"
     = galaxy "solo-leveling".
Proof.
  do 3 (split; [reflexivity|]).
  exact (proj1 (proj2 (proj2 (proj1
    (getMangaDetails_accepts_slug_path_and_address (RT := Reference.runtime)
       (fun _ => blankGalaxyDetails) (fun _ => blankZizDetails)
       "solo-leveling" "/chapter-1/" eq_refl eq_refl eq_refl))))).
Defined.

(** ** Search parameters *)

Module SearchFacts.
Import JS JSFacts.

Lemma orderValueOf_valid (validSorts : list string) (m : option SortOption)
    (query : SearchQuery) :
  In "" validSorts -> In (orderValueOf validSorts m query) validSorts.
Proof.
  intros H0. unfold orderValueOf.
  match goal with |- context [existsb (String.eqb ?v) validSorts] =>
    destruct (existsb (String.eqb v) validSorts) eqn:E end.
  - cbn [negb]. now apply existsb_eqb_In.
  - exact H0.
Qed.

Lemma orderValueOf_chosen (validSorts : list string) (m : SortOption)
    (query : SearchQuery) :
  truthy (sort_id m) = true -> In (sort_id m) validSorts ->
  orderValueOf validSorts (Some m) query = sort_id m.
Proof.
  intros Ht Hin. unfold orderValueOf. rewrite Ht.
  now rewrite (proj2 (existsb_eqb_In (sort_id m) validSorts) Hin).
Qed.

Lemma orderValueOf_requested (validSorts : list string)
    (m : option SortOption) (query : SearchQuery) :
  (In (requestedSort m query) validSorts ->
   orderValueOf validSorts m query = requestedSort m query)
  /\ (~ In (requestedSort m query) validSorts ->
      orderValueOf validSorts m query = "").
Proof.
  assert (forall a b, JS.or a (JS.or b "") = JS.or a b) as O.
  { intros a b. unfold JS.or. destruct (truthy a); [reflexivity|].
    destruct (truthy b) eqn:T; [reflexivity|]. now apply truthy_false in T. }
  assert (orderValueOf validSorts m query
          = if existsb (String.eqb (requestedSort m query)) validSorts
            then requestedSort m query else "") as E.
  { unfold orderValueOf, requestedSort. rewrite O.
    destruct m as [m|]; [destruct (truthy (sort_id m))|];
      now destruct (existsb _ validSorts). }
  rewrite E. split; intros H.
  - now rewrite (proj2 (existsb_eqb_In _ _) H).
  - now rewrite (existsb_false_In _ _ H).
Qed.

Lemma titled (p : string) (title : string) (enc : string -> string) :
  (if truthy title && negb (String.eqb (trim title) "")
   then [p ++ enc (trim title)] else [])
  = if onlyWhiteSpace title then [] else [p ++ enc (trim title)].
Proof.
  rewrite trim_blank. destruct (onlyWhiteSpace title) eqn:E.
  - cbn [negb]. now rewrite andb_false_r.
  - destruct title; [discriminate|reflexivity].
Qed.

Lemma prefix_app (p x : string) : String.prefix p (p ++ x) = true.
Proof.
  induction p as [|c p IH]; [now destruct x|].
  cbn [append String.prefix]. destruct (ascii_dec c c); [exact IH|congruence].
Qed.

Lemma existsb_map_false {A : Type} (f : string -> bool) (g : A -> string) (l : list A) :
  (forall a, f (g a) = false) -> existsb f (map g l) = false.
Proof.
  intros H. induction l as [|a l IH]; [reflexivity|].
  cbn [map existsb]. now rewrite H, IH.
Qed.

Lemma existsb_flat_map_false {A : Type} (f : string -> bool)
    (g : A -> list string) (l : list A) :
  (forall a, existsb f (g a) = false) -> existsb f (flat_map g l) = false.
Proof.
  intros H. induction l as [|a l IH]; [reflexivity|].
  cbn [flat_map]. now rewrite existsb_app, H, IH.
Qed.

End SearchFacts.

(** X2. The search parameters of both extensions end with the sorting
    parameter ([order=] on GalaxyAction, [sort=] on Ziz), which occurs
    nowhere else. Its value is always one of the valid sorting ids: the
    id that the search asks for when that id is valid, and the empty
    value when it is not; the id asked for is that of the sorting method
    when it is not empty. The title parameter ([s=], [q=]) is there
    exactly when the title is not blank. *)
Theorem search_parameters_sorted_by_a_valid_id
    (encodeURIComponent : string -> string) (query : SearchQuery)
    (sortingMethod : option SortOption) :
  (exists before value,
      GalaxyActionExtension.extractSearchParams encodeURIComponent query sortingMethod
      = app before ["order=" ++ encodeURIComponent value]
      /\ In value GalaxyActionExtension.CONSTANTS.VALID_SORTS
      /\ existsb (fun p => JS.startsWith p "order=") before = false
      /\ existsb (fun p => JS.startsWith p "s=") before
         = negb (onlyWhiteSpace (query_title query))
      /\ (forall m, sortingMethod = Some m -> sort_id m <> "" ->
          In (sort_id m) GalaxyActionExtension.CONSTANTS.VALID_SORTS ->
          value = sort_id m)
      /\ (In (requestedSort sortingMethod query)
             GalaxyActionExtension.CONSTANTS.VALID_SORTS ->
          value = requestedSort sortingMethod query)
      /\ (~ In (requestedSort sortingMethod query)
               GalaxyActionExtension.CONSTANTS.VALID_SORTS ->
          value = "")
      /\ (forall m, sortingMethod = Some m -> sort_id m <> "" ->
          requestedSort sortingMethod query = sort_id m))
  /\ (exists before value,
      ZizExtension.extractSearchParams encodeURIComponent query sortingMethod
      = app before ["sort=" ++ encodeURIComponent value]
      /\ In value ZizExtension.CONSTANTS.VALID_SORTS
      /\ existsb (fun p => JS.startsWith p "sort=") before = false
      /\ existsb (fun p => JS.startsWith p "q=") before
         = negb (onlyWhiteSpace (query_title query))
      /\ (forall m, sortingMethod = Some m -> sort_id m <> "" ->
          In (sort_id m) ZizExtension.CONSTANTS.VALID_SORTS ->
          value = sort_id m)
      /\ (In (requestedSort sortingMethod query)
             ZizExtension.CONSTANTS.VALID_SORTS ->
          value = requestedSort sortingMethod query)
      /\ (~ In (requestedSort sortingMethod query)
               ZizExtension.CONSTANTS.VALID_SORTS ->
          value = "")).
Proof.
  split.
  - unfold GalaxyActionExtension.extractSearchParams.
    rewrite SearchFacts.titled, app_assoc.
    eexists; eexists; split; [reflexivity|].
    assert (forall f, (forall x, f ("genre[]=" ++ x) = false) ->
                      (forall x, f ("status=" ++ x) = false) ->
                      (forall x, f ("type=" ++ x) = false) ->
              existsb f match query_filters query with
                        | Some filters =>
                            flat_map (GalaxyActionExtension.filterParams
                                        encodeURIComponent) filters
                        | None => []
                        end = false) as Hf.
    { intros f H1 H2 H3. destruct (query_filters query) as [filters|]; [|reflexivity].
      apply SearchFacts.existsb_flat_map_false. intros a.
      unfold GalaxyActionExtension.filterParams.
      destruct (filter_value a) as [entries|value].
      - destruct (String.eqb (filter_id a) "genre"); [|reflexivity].
        now apply SearchFacts.existsb_map_false.
      - destruct (String.eqb (filter_id a) "status" && JS.truthy value);
          [cbn [existsb]; now rewrite H2|].
        destruct (String.eqb (filter_id a) "type" && JS.truthy value);
          [cbn [existsb]; now rewrite H3|reflexivity]. }
    split; [apply SearchFacts.orderValueOf_valid; now left|].
    split; [|split; [|split; [|split; [|split]]]].
    + rewrite existsb_app, Hf by reflexivity.
      now destruct (onlyWhiteSpace (query_title query)).
    + rewrite existsb_app, Hf by reflexivity.
      destruct (onlyWhiteSpace (query_title query)); [reflexivity|].
      cbn [existsb orb negb]. unfold JS.startsWith.
      now rewrite SearchFacts.prefix_app.
    + intros m -> Hne Hin. apply SearchFacts.orderValueOf_chosen; [|exact Hin].
      now apply JSFacts.truthy_true.
    + apply SearchFacts.orderValueOf_requested.
    + apply SearchFacts.orderValueOf_requested.
    + intros m -> Hne. cbn [requestedSort].
      now rewrite (proj2 (JSFacts.truthy_true _) Hne).
  - unfold ZizExtension.extractSearchParams.
    rewrite SearchFacts.titled, app_assoc.
    eexists; eexists; split; [reflexivity|].
    assert (forall f, (forall x, f ("genre=" ++ x) = false) ->
              existsb f match query_filters query with
                        | Some filters =>
                            flat_map (ZizExtension.filterParams
                                        encodeURIComponent) filters
                        | None => []
                        end = false) as Hf.
    { intros f H1. destruct (query_filters query) as [filters|]; [|reflexivity].
      apply SearchFacts.existsb_flat_map_false. intros a.
      unfold ZizExtension.filterParams.
      destruct (filter_value a) as [entries|value]; [|reflexivity].
      destruct (String.eqb (filter_id a) "genre"); [|reflexivity].
      now apply SearchFacts.existsb_map_false. }
    split; [apply SearchFacts.orderValueOf_valid; now left|].
    split; [|split; [|split; [|split]]].
    + rewrite existsb_app, Hf by reflexivity.
      now destruct (onlyWhiteSpace (query_title query)).
    + rewrite existsb_app, Hf by reflexivity.
      destruct (onlyWhiteSpace (query_title query)); [reflexivity|].
      cbn [existsb orb negb]. unfold JS.startsWith.
      now rewrite SearchFacts.prefix_app.
    + intros m -> Hne Hin. apply SearchFacts.orderValueOf_chosen; [|exact Hin].
      now apply JSFacts.truthy_true.
    + apply SearchFacts.orderValueOf_requested.
    + apply SearchFacts.orderValueOf_requested.
Qed.

(** ** Caches of the extensions *)

Module CacheFacts.
Import JS JSFacts.

Section Caches.
Context {RT : Runtime}.

Lemma getSearchFilters_cached (fetch : string -> GalaxyActionExtension.FilterPage)
    (st : GalaxyActionExtension.FilterState) :
  GalaxyActionExtension.filterOptionsCache st <> None ->
  GalaxyActionExtension.getSearchFilters fetch st
  = (match GalaxyActionExtension.filterOptionsCache st with
     | Some cache =>
         GalaxyActionExtension.buildSearchFilters
           (GalaxyActionExtension.cached_genres cache)
           (GalaxyActionExtension.cached_status cache)
           (GalaxyActionExtension.cached_type cache)
     | None => []
     end, st).
Proof.
  unfold GalaxyActionExtension.getSearchFilters.
  now destruct (GalaxyActionExtension.filterOptionsCache st).
Qed.

Lemma getSearchFilters_fills (fetch : string -> GalaxyActionExtension.FilterPage)
    (st : GalaxyActionExtension.FilterState) :
  let out := GalaxyActionExtension.getSearchFilters fetch st in
  match GalaxyActionExtension.filterOptionsCache (snd out) with
  | Some cache =>
      fst out = GalaxyActionExtension.buildSearchFilters
                  (GalaxyActionExtension.cached_genres cache)
                  (GalaxyActionExtension.cached_status cache)
                  (GalaxyActionExtension.cached_type cache)
  | None => False
  end.
Proof.
  unfold GalaxyActionExtension.getSearchFilters.
  destruct (GalaxyActionExtension.filterOptionsCache st) as [cache|] eqn:E;
    cbn [fst snd GalaxyActionExtension.filterOptionsCache].
  - now rewrite E.
  - reflexivity.
Qed.

Lemma filterRuns_cached (fetches : list (string -> GalaxyActionExtension.FilterPage))
    (st : GalaxyActionExtension.FilterState)
    (cache : GalaxyActionExtension.FilterOptions) :
  GalaxyActionExtension.filterOptionsCache st = Some cache ->
  Forall (eq (GalaxyActionExtension.buildSearchFilters
                (GalaxyActionExtension.cached_genres cache)
                (GalaxyActionExtension.cached_status cache)
                (GalaxyActionExtension.cached_type cache)))
         (filterRuns fetches st).
Proof.
  intros E. induction fetches as [|fetch rest IH]; [constructor|].
  cbn [filterRuns]. rewrite getSearchFilters_cached by (rewrite E; discriminate).
  rewrite E. constructor; [reflexivity|exact IH].
Qed.

Lemma sortOptionOf_label (decodeURIComponent : string -> option string)
    (el : ZizExtension.LinkNode) (o : SortOption) :
  ZizExtension.sortOptionOf decodeURIComponent el = Some (Some o) ->
  sort_label o <> "".
Proof.
  unfold ZizExtension.sortOptionOf.
  match goal with |- match ?i with _ => _ end = _ -> _ => destruct i as [id|] end;
    [|discriminate].
  destruct (truthy (trim (ZizExtension.link_text el))) eqn:T; [|discriminate].
  destruct (negb _); [|discriminate].
  intros [= <-]. cbn [sort_label]. now apply truthy_true.
Qed.

Lemma eachSortOption_labels (decodeURIComponent : string -> option string)
    (els : list ZizExtension.LinkNode) :
  forall found,
    ZizExtension.eachSortOption decodeURIComponent els = Some found ->
    Forall (fun o => sort_label o <> "") found.
Proof.
  induction els as [|el rest IH]; cbn [ZizExtension.eachSortOption].
  - intros found [= <-]. constructor.
  - destruct (ZizExtension.sortOptionOf decodeURIComponent el) as [pushed|] eqn:P;
      [|discriminate].
    destruct (ZizExtension.eachSortOption decodeURIComponent rest) as [options|];
      [|discriminate].
    intros found [= <-]. specialize (IH _ eq_refl).
    destruct pushed as [o|]; [|exact IH].
    constructor; [exact (sortOptionOf_label _ _ P)|exact IH].
Qed.

Lemma fallback_labelled : labelled ZizExtension.FALLBACK_SORT_OPTIONS.
Proof. split; [discriminate|]. repeat constructor; discriminate. Qed.

Lemma default_labelled : labelled ZizExtension.DEFAULT_SORT_OPTIONS.
Proof. split; [discriminate|]. repeat constructor; discriminate. Qed.

Lemma getSortingOptions_labelled (decodeURIComponent : string -> option string)
    (fetch : string -> option (list ZizExtension.LinkNode))
    (cache : option (list SortOption)) :
  match cache with Some cached => labelled cached | None => True end ->
  let out := ZizExtension.getSortingOptions decodeURIComponent fetch cache in
  labelled (fst out)
  /\ match snd out with Some cached => labelled cached | None => True end.
Proof.
  unfold ZizExtension.getSortingOptions.
  destruct cache as [cached|]; [intros H; now split|intros _].
  destruct (fetch _) as [els|]; [|split; [exact default_labelled|exact I]].
  destruct (ZizExtension.eachSortOption decodeURIComponent els) as [found|] eqn:E;
    [|split; [exact default_labelled|exact I]].
  apply eachSortOption_labels in E.
  destruct found as [|o found]; cbn [fst snd].
  - split; exact fallback_labelled.
  - assert (labelled (o :: found)) by (split; [discriminate|exact E]). now split.
Qed.

Lemma sortOptionOf_throws (decodeURIComponent : string -> option string)
    (el : ZizExtension.LinkNode) :
  ZizExtension.sortOptionOf decodeURIComponent el = None
  <-> undecodable decodeURIComponent el = true.
Proof.
  unfold ZizExtension.sortOptionOf, undecodable. cbv zeta.
  destruct (includes _ "sort="); cbn [andb]; [|split; discriminate].
  destruct (ZizExtension.sortParamMatch _) as [g|]; [|split; discriminate].
  destruct (decodeURIComponent g); split; (discriminate || reflexivity).
Qed.

Lemma sortOptionOf_unlabelled (decodeURIComponent : string -> option string)
    (el : ZizExtension.LinkNode) :
  undecodable decodeURIComponent el = false -> unlabelled el = true ->
  ZizExtension.sortOptionOf decodeURIComponent el = Some None.
Proof.
  unfold ZizExtension.sortOptionOf, undecodable, unlabelled. cbv zeta.
  intros U L.
  assert (truthy (trim (ZizExtension.link_text el))
          && negb (String.eqb (trim (ZizExtension.link_text el)) "Sort By")
          = false) as E.
  { apply orb_true_iff in L as [L|L].
    - apply negb_true_iff in L. now rewrite L.
    - rewrite L. apply andb_false_r. }
  rewrite E.
  destruct (includes _ "sort="); cbn [andb] in U; [|reflexivity].
  destruct (ZizExtension.sortParamMatch _) as [g|]; [|reflexivity].
  destruct (decodeURIComponent g); [reflexivity|discriminate].
Qed.

Lemma eachSortOption_throws (decodeURIComponent : string -> option string)
    (els : list ZizExtension.LinkNode) :
  existsb (undecodable decodeURIComponent) els = true ->
  ZizExtension.eachSortOption decodeURIComponent els = None.
Proof.
  induction els as [|el rest IH]; cbn [existsb ZizExtension.eachSortOption];
    [discriminate|].
  destruct (undecodable decodeURIComponent el) eqn:U.
  - intros _. now rewrite (proj2 (sortOptionOf_throws _ _) U).
  - cbn [orb]. intros H. rewrite (IH H).
    now destruct (ZizExtension.sortOptionOf decodeURIComponent el).
Qed.

Lemma eachSortOption_unlabelled (decodeURIComponent : string -> option string)
    (els : list ZizExtension.LinkNode) :
  existsb (undecodable decodeURIComponent) els = false ->
  forallb unlabelled els = true ->
  ZizExtension.eachSortOption decodeURIComponent els = Some [].
Proof.
  induction els as [|el rest IH];
    cbn [existsb forallb ZizExtension.eachSortOption]; [reflexivity|].
  intros U L. apply orb_false_iff in U as [U1 U2].
  apply andb_true_iff in L as [L1 L2].
  now rewrite (sortOptionOf_unlabelled _ _ U1 L1), (IH U2 L2).
Qed.

End Caches.

Lemma trimEnd_cons (c : ascii) (t : string) :
  trimEnd (String c t)
  = match trimEnd t with
    | EmptyString => if isWhiteSpace c then EmptyString else String c EmptyString
    | r => String c r
    end.
Proof. reflexivity. Qed.

Lemma trimEnd_idempotent (s : string) : trimEnd (trimEnd s) = trimEnd s.
Proof.
  induction s as [|c s IH]; [reflexivity|].
  rewrite trimEnd_cons. destruct (trimEnd s) as [|d r] eqn:E.
  - destruct (isWhiteSpace c) eqn:W; [reflexivity|].
    rewrite trimEnd_cons. cbn [trimEnd]. now rewrite W.
  - rewrite trimEnd_cons, IH. reflexivity.
Qed.

Lemma trimEnd_first (c : ascii) (t : string) :
  isWhiteSpace c = false -> exists r, trimEnd (String c t) = String c r.
Proof.
  intros W. cbn [trimEnd]. destruct (trimEnd t) as [|d r].
  - rewrite W. now exists "".
  - now exists (String d r).
Qed.

Lemma trimStart_shape (s : string) :
  trimStart s = ""
  \/ exists c t, trimStart s = String c t /\ isWhiteSpace c = false.
Proof.
  induction s as [|c s IH]; [now left|].
  cbn [trimStart]. destruct (isWhiteSpace c) eqn:W; [exact IH|].
  right. now exists c, s.
Qed.

Lemma trim_idempotent (s : string) : trim (trim s) = trim s.
Proof.
  unfold trim. destruct (trimStart_shape s) as [E|(c & t & E & W)]; rewrite E.
  - reflexivity.
  - destruct (@trimEnd_first c t W) as [r Er]. rewrite Er at 1.
    cbn [trimStart]. rewrite W, <- Er. apply trimEnd_idempotent.
Qed.

End CacheFacts.

(** X3. [getSearchFilters] of GalaxyAction asks the site at most once:
    after a first call, every later call returns the filters of the
    first one, whatever the site answers by then. *)
Theorem search_filters_fetched_once {RT : Runtime}
    (first : string -> GalaxyActionExtension.FilterPage)
    (later : list (string -> GalaxyActionExtension.FilterPage))
    (st : GalaxyActionExtension.FilterState) :
  let out := GalaxyActionExtension.getSearchFilters first st in
  Forall (eq (fst out)) (filterRuns later (snd out)).
Proof.
  intros out. pose proof (CacheFacts.getSearchFilters_fills first st) as H.
  fold out in H. cbv zeta in H.
  destruct (GalaxyActionExtension.filterOptionsCache (snd out)) as [cache|] eqn:E;
    [|contradiction].
  rewrite H. now apply CacheFacts.filterRuns_cached.
Qed.

(** X4. [getSortingOptions] of Ziz never returns an empty list nor an
    option without label, in any sequence of calls on a fresh extension.
    On a fresh extension, when the request fails, or when
    [decodeURIComponent] throws on the parameter of a link, it returns
    the default options and caches nothing; when no link of the page
    gives an option it returns the fallback options and caches them.
    With options in the cache it returns those and asks nothing. *)
Theorem sorting_options_never_empty {RT : Runtime}
    (decodeURIComponent : string -> option string)
    (fetches : list (string -> option (list ZizExtension.LinkNode))) :
  Forall (fun options =>
            options <> [] /\ Forall (fun o => sort_label o <> "") options)
         (sortingRuns decodeURIComponent fetches None)
  /\ (forall fetch,
        fetch (Ziz.DOMAIN ++ "/mangas/") = None ->
        ZizExtension.getSortingOptions decodeURIComponent fetch None
        = (ZizExtension.DEFAULT_SORT_OPTIONS, None))
  /\ (forall fetch els,
        fetch (Ziz.DOMAIN ++ "/mangas/") = Some els ->
        existsb (undecodable decodeURIComponent) els = true ->
        ZizExtension.getSortingOptions decodeURIComponent fetch None
        = (ZizExtension.DEFAULT_SORT_OPTIONS, None))
  /\ (forall fetch els,
        fetch (Ziz.DOMAIN ++ "/mangas/") = Some els ->
        existsb (undecodable decodeURIComponent) els = false ->
        forallb unlabelled els = true ->
        ZizExtension.getSortingOptions decodeURIComponent fetch None
        = (ZizExtension.FALLBACK_SORT_OPTIONS,
           Some ZizExtension.FALLBACK_SORT_OPTIONS))
  /\ (forall fetch cached,
        ZizExtension.getSortingOptions decodeURIComponent fetch (Some cached)
        = (cached, Some cached)).
Proof.
  assert (forall cache,
            match cache with
            | Some cached => labelled cached
            | None => True
            end ->
            Forall labelled (sortingRuns decodeURIComponent fetches cache))
    as H.
  { induction fetches as [|fetch rest IH]; intros cache Hc; [constructor|].
    cbn [sortingRuns].
    pose proof (CacheFacts.getSortingOptions_labelled decodeURIComponent fetch
                  cache Hc) as Hout.
    cbv zeta in Hout.
    destruct (ZizExtension.getSortingOptions decodeURIComponent fetch cache)
      as [options cache'].
    destruct Hout as [H1 H2]. constructor; [exact H1|now apply IH]. }
  split; [exact (H None I)|].
  unfold ZizExtension.getSortingOptions.
  change (domain Ziz.extension) with Ziz.DOMAIN.
  repeat split.
  - intros fetch E. now rewrite E.
  - intros fetch els E U.
    now rewrite E, (CacheFacts.eachSortOption_throws _ _ U).
  - intros fetch els E U L.
    now rewrite E, (CacheFacts.eachSortOption_unlabelled _ _ U L).
Qed.

Lemma sorting_options_never_empty_witness :
  let decode s := if String.eqb s "%" then None else Some s in
  let broken := [ {| ZizExtension.link_href := Some "/mangas/?sort=%";
                     ZizExtension.link_text := "Most Recent" |} ] in
  let heading := [ {| ZizExtension.link_href := Some "/mangas/";
                      ZizExtension.link_text := " Sort By " |} ] in
  existsb (undecodable decode) broken = true
  /\ ZizExtension.getSortingOptions (RT := Reference.runtime) decode
       (fun _ => Some broken) None
     = (ZizExtension.DEFAULT_SORT_OPTIONS, None)
  /\ existsb (undecodable decode) heading = false
  /\ forallb unlabelled heading = true
  /\ ZizExtension.getSortingOptions (RT := Reference.runtime) decode
       (fun _ => Some heading) None
     = (ZizExtension.FALLBACK_SORT_OPTIONS,
        Some ZizExtension.FALLBACK_SORT_OPTIONS)
  /\ ZizExtension.getSortingOptions (RT := Reference.runtime) decode
       (fun _ => None) None
     = (ZizExtension.DEFAULT_SORT_OPTIONS, None).
Proof.
  intros decode broken heading.
  destruct (sorting_options_never_empty (RT := Reference.runtime) decode [])
    as (_ & H1 & H2 & H3 & _).
  split; [reflexivity|].
  split; [exact (H2 (fun _ => Some broken) broken eq_refl eq_refl)|].
  split; [reflexivity|]. split; [reflexivity|].
  split; [exact (H3 (fun _ => Some heading) heading eq_refl eq_refl eq_refl)|].
  exact (H1 (fun _ => None) eq_refl).
Defined.

(** X5. [injectCloudflareCookies] throws exactly when the value is blank,
    and then sets no cookie. Otherwise it sets one cookie more,
    [cf_clearance], whose value is the given one without the white space
    around it, is not empty, and expires 24 hours after the reading of
    the clock. *)
Theorem cf_clearance_cookie (cfClearanceValue : string)
    (jar : list GalaxyActionExtension.Cookie) (clk : Clock) :
  match fst (GalaxyActionExtension.injectCloudflareCookies cfClearanceValue jar clk) with
  | inl _ => onlyWhiteSpace cfClearanceValue = true
  | inr jar' =>
      onlyWhiteSpace cfClearanceValue = false
      /\ exists cookie,
           jar' = (jar ++ [cookie])%list
           /\ GalaxyActionExtension.cookie_name cookie = "cf_clearance"
           /\ GalaxyActionExtension.cookie_value cookie = JS.trim cfClearanceValue
           /\ GalaxyActionExtension.cookie_value cookie <> ""
           /\ JS.trim (GalaxyActionExtension.cookie_value cookie)
              = GalaxyActionExtension.cookie_value cookie
           /\ GalaxyActionExtension.cookie_expires cookie = (clk 0%nat + 86400000)%Z
  end.
Proof.
  unfold GalaxyActionExtension.injectCloudflareCookies.
  rewrite trim_blank.
  destruct (onlyWhiteSpace cfClearanceValue) eqn:E.
  - rewrite orb_true_r. reflexivity.
  - assert (JS.truthy cfClearanceValue = true) as T
      by (destruct cfClearanceValue; [discriminate|reflexivity]).
    rewrite T. cbn [negb orb newDate fst].
    split; [reflexivity|]. eexists. split; [reflexivity|].
    cbn [GalaxyActionExtension.cookie_name GalaxyActionExtension.cookie_value
         GalaxyActionExtension.cookie_expires].
    repeat split.
    + intros H. rewrite <- trim_blank, H in E. discriminate.
    + apply CacheFacts.trim_idempotent.
Qed.

(** ** Pages and listings of GalaxyAction *)

Module ListingFacts.
Import JS JSFacts.

Lemma yielded_Forall {A B : Type} (P : B -> Prop) (f : A -> option B) (nodes : list A) :
  (forall a b, f a = Some b -> P b) -> Forall P (yielded f nodes).
Proof.
  intros H. induction nodes as [|a rest IH]; [constructor|].
  unfold yielded. cbn [flat_map]. destruct (f a) as [b|] eqn:E.
  - constructor; [exact (H _ _ E)|exact IH].
  - exact IH.
Qed.

Lemma yielded_map {A B C : Type} (g : B -> C) (f : A -> option B) (nodes : list A) :
  map g (yielded f nodes) = yielded (fun a => option_map g (f a)) nodes.
Proof.
  induction nodes as [|a rest IH]; [reflexivity|].
  unfold yielded in *. cbn [flat_map]. rewrite map_app, IH.
  now destruct (f a).
Qed.

Lemma yielded_ext {A B : Type} (f g : A -> option B) (nodes : list A) :
  (forall a, f a = g a) -> yielded f nodes = yielded g nodes.
Proof.
  intros H. induction nodes as [|a rest IH]; [reflexivity|].
  unfold yielded in *. cbn [flat_map]. now rewrite H, IH.
Qed.

Lemma yielded_none {A B : Type} (f : A -> option B) (nodes : list A) :
  (forall a, f a = None) -> yielded f nodes = [].
Proof.
  intros H. induction nodes as [|a rest IH]; [reflexivity|].
  unfold yielded in *. cbn [flat_map]. now rewrite H, IH.
Qed.

Lemma find_none_all {A : Type} (f : A -> bool) (l : list A) :
  (forall a, In a l -> f a = false) -> find f l = None.
Proof.
  intros H. induction l as [|a l IH]; [reflexivity|].
  cbn [find]. rewrite (H a) by now left.
  apply IH. intros b Hb. apply H. now right.
Qed.

Section Cards.
Context {RT : Runtime}.

Lemma cardOf_id (obj : GalaxyAction.CardNode) (mangaId image title subtitle : string) :
  GalaxyAction.cardOf obj = Some (mangaId, image, title, subtitle) ->
  mangaId <> "" /\ mangaId <> "undefined" /\ mangaId <> "null"
  /\ mem "?" mangaId = false
  /\ GalaxyAction.idCleaner mangaId = mangaId.
Proof.
  unfold GalaxyAction.cardOf.
  destruct (negb _ || negb _); [discriminate|].
  set (id := GalaxyAction.idCleaner (orEmpty (GalaxyAction.card_href obj))).
  destruct (truthy id) eqn:T; [|discriminate]. cbn [negb orb].
  destruct (String.eqb id "undefined") eqn:U; [discriminate|]. cbn [orb].
  destruct (String.eqb id "null") eqn:N; [discriminate|].
  intros [= <- _ _ _].
  repeat split.
  - now apply truthy_true.
  - now apply String.eqb_neq.
  - now apply String.eqb_neq.
  - apply CleanerFacts.GA_no_query.
  - apply CleanerFacts.GA_idempotent.
Qed.

End Cards.

End ListingFacts.

(** X6. Every page that [parseChapterDetails] of GalaxyAction returns,
    and every image that [extractImagesFromReader] finds, is accepted by
    [isValidImageUrl], whatever the script holds and whatever
    [JSON.parse] makes of it: no page is blank, none is the placeholder
    [readerarea.svg], none an inline SVG. *)
Theorem galaxy_pages_are_valid_images {RT : Runtime}
    (doc : GalaxyAction.ReaderDoc) (chapter : Chapter) :
  Forall (fun url => GalaxyAction.isValidImageUrl url = true)
         (pages (GalaxyAction.parseChapterDetails doc chapter))
  /\ Forall (fun url => GalaxyAction.isValidImageUrl url = true)
            (GalaxyAction.extractImagesFromReader doc).
Proof.
  split.
  - cbn [pages GalaxyAction.parseChapterDetails].
    unfold GalaxyAction.extractImagesFromScript.
    destruct (find _ _) as [scriptContent|]; [|constructor].
    destruct (GalaxyAction.imagesRegex scriptContent) as [matched|]; [|constructor].
    destruct (JSON_parse _) as [[s|imageArray|]|]; try constructor.
    + rewrite eachPush_yielded. apply ListingFacts.yielded_Forall.
      intros [url|l|] b; cbn [GalaxyAction.validImage]; try discriminate.
      destruct (GalaxyAction.isValidImageUrl url) eqn:E; [|discriminate].
      now intros [= <-].
    + apply Forall_forall. intros url Hin. now apply filter_In in Hin.
  - unfold GalaxyAction.extractImagesFromReader.
    rewrite eachPush_yielded. apply ListingFacts.yielded_Forall.
    intros obj b.
    destruct (GalaxyAction.isValidImageUrl _) eqn:E; [|discriminate].
    now intros [= <-].
Qed.

(** X7. The images of the reader area are never used: when none of the
    scripts of the page of a chapter mentions [ts_reader.run],
    [getChapterDetails] of GalaxyAction returns no pages, whatever the
    reader area shows, since the array that [extractImagesFromScript]
    returns is truthy even when it is empty. *)
Theorem galaxy_reader_area_never_used {RT : Runtime}
    (fetch : string -> GalaxyAction.ReaderDoc) (chapter : Chapter) :
  (forall script,
     In script (GalaxyAction.scripts
                  (fetch (GalaxyAction.DOMAIN ++ chapterId chapter))) ->
     JS.includes (JS.orEmpty script) "ts_reader.run" = false) ->
  pages (GalaxyActionExtension.getChapterDetails fetch chapter) = [].
Proof.
  intros H. unfold GalaxyActionExtension.getChapterDetails.
  cbn [pages GalaxyAction.parseChapterDetails].
  unfold GalaxyAction.extractImagesFromScript.
  rewrite ListingFacts.find_none_all; [reflexivity|].
  intros s Hin. apply in_map_iff in Hin as (script & <- & Hin). now apply H.
Qed.

Lemma galaxy_reader_area_never_used_witness :
  (forall script,
     In script (GalaxyAction.scripts readerWithoutScript) ->
     JS.includes (JS.orEmpty script) "ts_reader.run" = false)
  /\ GalaxyAction.extractImagesFromReader readerWithoutScript
     = ["https://cdn.example/solo/1.jpg"]
  /\ pages (GalaxyActionExtension.getChapterDetails (RT := Reference.runtime)
              (fun _ => readerWithoutScript) sampleChapter) = [].
Proof.
  assert (forall script,
            In script (GalaxyAction.scripts readerWithoutScript) ->
            JS.includes (JS.orEmpty script) "ts_reader.run" = false) as H.
  { intros script [<-|[<-|[]]]; reflexivity. }
  split; [exact H|]. split; [reflexivity|].
  exact (galaxy_reader_area_never_used (RT := Reference.runtime)
           (fun _ => readerWithoutScript) sampleChapter H).
Defined.

(** X8. The ids of the search results of GalaxyAction are never empty,
    never [undefined] or [null], hold no question mark, and are left as
    they are by [idCleaner]; there are at most as many results as
    cards. *)
Theorem galaxy_search_ids_clean {RT : Runtime}
    (doc : GalaxyAction.ListingDoc) (source : Source) :
  let out := GalaxyAction.parseSearchResults doc source in
  Forall (fun item =>
            result_mangaId item <> ""
            /\ result_mangaId item <> "undefined"
            /\ result_mangaId item <> "null"
            /\ JS.mem "?" (result_mangaId item) = false
            /\ GalaxyAction.idCleaner (result_mangaId item) = result_mangaId item)
         out
  /\ (length out <= length (doc (JS.or (searchMangaSelector source) ".bsx")))%nat.
Proof.
  intros out. subst out. unfold GalaxyAction.parseSearchResults.
  rewrite eachPush_yielded. split; [|apply yielded_length].
  apply ListingFacts.yielded_Forall. intros obj item.
  destruct (GalaxyAction.cardOf obj) as [[[[mangaId image] title] subtitle]|] eqn:E;
    [|discriminate].
  intros [= <-]. cbn [result_mangaId]. exact (ListingFacts.cardOf_id _ E).
Qed.

(** X9. On a section of one of the three carousel types,
    [parseDiscoverSections] of GalaxyAction returns the cards that
    [parseSearchResults] returns for the same page: the same ids, images
    and titles in the same order. On a section of another type it
    returns nothing. *)
Theorem galaxy_discover_items_are_search_results {RT : Runtime}
    (doc : GalaxyAction.ListingDoc) (section : DiscoverSection) (source : Source) :
  let found := GalaxyAction.parseSearchResults doc source in
  let shown := GalaxyAction.parseDiscoverSections doc section source in
  if isCarousel (discover_type section)
  then map item_mangaId shown = map result_mangaId found
       /\ map item_imageUrl shown = map result_imageUrl found
       /\ map item_title shown = map result_title found
  else shown = [].
Proof.
  intros found shown. subst found shown.
  unfold GalaxyAction.parseSearchResults, GalaxyAction.parseDiscoverSections.
  rewrite !eachPush_yielded.
  destruct (discover_type section); cbn [isCarousel];
    try (apply ListingFacts.yielded_none; intros a;
         now destruct (GalaxyAction.cardOf a) as [[[[? ?] ?] ?]|]);
    rewrite !ListingFacts.yielded_map;
    repeat split; apply ListingFacts.yielded_ext; intros a;
    now destruct (GalaxyAction.cardOf a) as [[[[? ?] ?] ?]|].
Qed.

(** ** Chapters *)

Module NumberFacts.
Import JS JSFacts.

(** A text that begins with a digit. *)
Lemma span_digit_head (s d r : string) :
  span isDigit s = (d, r) -> truthy d = true ->
  exists c t, d = String c t /\ isDigit c = true.
Proof.
  destruct s as [|c s]; cbn [span]; [intros [= <- _]; discriminate|].
  destruct (isDigit c) eqn:D; [|intros [= <- _]; discriminate].
  destruct (span isDigit s) as [a b]. intros [= <- _] _. now exists c, a.
Qed.

Lemma numberAt_head (s g r : string) :
  GalaxyAction.numberAt s = Some (g, r) ->
  exists c t, g = String c t /\ isDigit c = true.
Proof.
  unfold GalaxyAction.numberAt.
  destruct (span isDigit s) as [d r1] eqn:E.
  destruct (truthy d) eqn:T; cbn [negb]; [|discriminate].
  destruct (span_digit_head _ E T) as (c & t & -> & D).
  destruct (match r1 with
            | String c0 t0 => if Ascii.eqb c0 "." then (".", t0) else ("", r1)
            | EmptyString => ("", r1)
            end) as [dot r2].
  destruct (match r2 with
            | String c0 t0 => if isDigit c0 then (String c0 "", t0) else ("", r2)
            | EmptyString => ("", r2)
            end) as [d2 r3].
  destruct (match r3 with
            | String c0 t0 =>
                if Ascii.eqb c0 "-" || Ascii.eqb c0 "_"
                then let (d3, r) := span isDigit t0 in
                     if truthy d3 then (String c0 d3, r) else ("", r3)
                else ("", r3)
            | EmptyString => ("", r3)
            end) as [tail r4].
  intros [= <- _]. cbn [append]. now eexists; eexists.
Qed.

Lemma lazyNumber_head (s g : string) :
  GalaxyAction.lazyNumber s = Some g ->
  exists c t, g = String c t /\ isDigit c = true.
Proof.
  induction s as [|c s IH]; cbn [GalaxyAction.lazyNumber].
  - destruct (GalaxyAction.numberAt "") as [[g' r]|] eqn:E; [|discriminate].
    intros [= <-]. exact (numberAt_head _ E).
  - destruct (GalaxyAction.numberAt (String c s)) as [[g' r]|] eqn:E.
    + intros [= <-]. exact (numberAt_head _ E).
    + destruct (isLineTerminator c); [discriminate|exact IH].
Qed.

Lemma chapNumAt_head (s : string) (m : string + string) :
  GalaxyAction.chapNumAt s = Some m ->
  exists c t, (m = inl (String c t) \/ m = inr (String c t)) /\ isDigit c = true.
Proof.
  unfold GalaxyAction.chapNumAt.
  destruct (match stripPrefix "chapter" s with
            | Some r => match GalaxyAction.numberAt r with
                        | Some (g, _) => Some g
                        | None => None
                        end
            | None => None
            end) as [g|] eqn:V1.
  - intros [= <-]. destruct (stripPrefix "chapter" s) as [r|]; [|discriminate].
    destruct (GalaxyAction.numberAt r) as [[g' r']|] eqn:E; [|discriminate].
    injection V1 as <-. destruct (numberAt_head _ E) as (c & t & -> & D).
    exists c, t. split; [now left|exact D].
  - destruct (match stripPrefix "ch" s with
              | Some r => GalaxyAction.lazyNumber r
              | None => None
              end) as [g|] eqn:V2.
    + intros [= <-]. destruct (stripPrefix "ch" s) as [r|]; [|discriminate].
      destruct (lazyNumber_head _ V2) as (c & t & -> & D).
      exists c, t. split; [now left|exact D].
    + destruct (GalaxyAction.numberAt s) as [[g [|x r]]|] eqn:E; try discriminate.
      intros [= <-]. destruct (numberAt_head _ E) as (c & t & -> & D).
      exists c, t. split; [now right|exact D].
Qed.

Lemma chapNumRegex_head (s : string) (m : string + string) :
  GalaxyAction.chapNumRegex s = Some m ->
  exists c t, (m = inl (String c t) \/ m = inr (String c t)) /\ isDigit c = true.
Proof.
  induction s as [|c s IH]; cbn [GalaxyAction.chapNumRegex].
  - destruct (GalaxyAction.chapNumAt "") as [m'|] eqn:E; [|discriminate].
    intros [= <-]. exact (chapNumAt_head _ E).
  - destruct (GalaxyAction.chapNumAt (String c s)) as [m'|] eqn:E.
    + intros [= <-]. exact (chapNumAt_head _ E).
    + exact IH.
Qed.

Lemma digit_kept (x y c : ascii) :
  isDigit c = true -> isDigit x = false ->
  (if Ascii.eqb c x then y else c) = c.
Proof.
  intros D X. destruct (Ascii.eqb_spec c x); [subst; congruence|reflexivity].
Qed.

End NumberFacts.

Module NumeralFacts.
Import JS JSFacts.

Lemma span_app (f : ascii -> bool) (s a b : string) :
  span f s = (a, b) -> s = a ++ b.
Proof.
  revert a b. induction s as [|c s IH]; intros a b; cbn [span].
  - now intros [= <- <-].
  - destruct (f c).
    + destruct (span f s) as [a' b']. intros [= <- <-].
      cbn [append]. now rewrite (IH a' b').
    + now intros [= <- <-].
Qed.

Lemma span_digits (s d r : string) :
  span isDigit s = (d, r) -> truthy d = true -> numeral d.
Proof.
  intros E T. split; [now apply truthy_true|].
  intros c Hc. pose proof (@span_fst_sat isDigit s c) as H.
  rewrite E in H. exact (proj1 (H Hc)).
Qed.

Lemma stripPrefix_app (p s r : string) :
  stripPrefix p s = Some r -> s = p ++ r.
Proof.
  revert s. induction p as [|a p IH]; intros s; cbn [stripPrefix].
  - now intros [= ->].
  - destruct s as [|b s]; [discriminate|].
    destruct (Ascii.eqb_spec a b) as [->|_]; [|discriminate].
    intros H. cbn [append]. now rewrite (IH _ H).
Qed.

Lemma numberAt_shape (s g r : string) :
  GalaxyAction.numberAt s = Some (g, r) -> s = g ++ r /\ chapterNumeral g.
Proof.
  unfold GalaxyAction.numberAt.
  destruct (span isDigit s) as [d r1] eqn:E.
  destruct (truthy d) eqn:T; cbn [negb]; [|discriminate].
  pose proof (span_digits _ E T) as Nd. apply span_app in E. subst s.
  assert (exists dot r2,
            (match r1 with
             | String c t => if Ascii.eqb c "." then (".", t) else ("", r1)
             | EmptyString => ("", r1)
             end) = (dot, r2)
            /\ r1 = dot ++ r2 /\ (dot = "" \/ dot = ".")) as (dot & r2 & -> & -> & Hdot).
  { destruct r1 as [|c t]; [now exists "", ""; repeat split; left|].
    destruct (Ascii.eqb_spec c ".") as [->|_].
    - exists ".", t. repeat split. now right.
    - exists "", (String c t). repeat split. now left. }
  assert (exists d2 r3,
            (match r2 with
             | String c t => if isDigit c then (String c "", t) else ("", r2)
             | EmptyString => ("", r2)
             end) = (d2, r3)
            /\ r2 = d2 ++ r3
            /\ (d2 = "" \/ exists c, d2 = String c "" /\ isDigit c = true))
    as (d2 & r3 & -> & -> & Hd2).
  { destruct r2 as [|c t]; [now exists "", ""; repeat split; left|].
    destruct (isDigit c) eqn:D.
    - exists (String c ""), t. repeat split. right. now exists c.
    - exists "", (String c t). repeat split. now left. }
  assert (exists tail r4,
            (match r3 with
             | String c t =>
                 if Ascii.eqb c "-" || Ascii.eqb c "_"
                 then let (d3, r) := span isDigit t in
                      if truthy d3 then (String c d3, r) else ("", r3)
                 else ("", r3)
             | EmptyString => ("", r3)
             end) = (tail, r4)
            /\ r3 = tail ++ r4
            /\ (tail = ""
                \/ exists sep d3, tail = String sep d3
                                  /\ (sep = "-"%char \/ sep = "_"%char)
                                  /\ numeral d3))
    as (tail & r4 & -> & -> & Htail).
  { destruct r3 as [|c t]; [now exists "", ""; repeat split; left|].
    destruct (Ascii.eqb c "-" || Ascii.eqb c "_") eqn:S.
    - destruct (span isDigit t) as [d3 rr] eqn:E3.
      destruct (truthy d3) eqn:T3.
      + exists (String c d3), rr. split; [reflexivity|]. split.
        * cbn [append]. now rewrite (span_app _ _ E3).
        * right. exists c, d3. split; [reflexivity|]. split.
          -- apply orb_true_iff in S as [S|S]; apply Ascii.eqb_eq in S; auto.
          -- exact (span_digits _ E3 T3).
      + exists "", (String c t). repeat split. now left.
    - exists "", (String c t). repeat split. now left. }
  intros [= <- <-]. split.
  - now rewrite !append_assoc.
  - now exists d, dot, d2, tail.
Qed.

Lemma lazyNumber_shape (s g : string) :
  GalaxyAction.lazyNumber s = Some g ->
  exists p r, s = p ++ g ++ r /\ chapterNumeral g.
Proof.
  induction s as [|c s IH]; cbn [GalaxyAction.lazyNumber].
  - destruct (GalaxyAction.numberAt "") as [[g' r]|] eqn:E; [|discriminate].
    intros [= <-]. destruct (numberAt_shape _ E) as [E1 E2]. now exists "", r.
  - destruct (GalaxyAction.numberAt (String c s)) as [[g' r]|] eqn:E.
    + intros [= <-]. destruct (numberAt_shape _ E) as [E1 E2]. now exists "", r.
    + destruct (isLineTerminator c); [discriminate|].
      intros H. destruct (IH H) as (p & r & -> & N). now exists (String c p), r.
Qed.

Lemma chapNumAt_shape (s : string) (m : string + string) :
  GalaxyAction.chapNumAt s = Some m ->
  match m with
  | inl g => exists p r, s = p ++ g ++ r /\ chapterNumeral g
  | inr g => s = g /\ chapterNumeral g
  end.
Proof.
  unfold GalaxyAction.chapNumAt.
  destruct (stripPrefix "chapter" s) as [r1|] eqn:P1.
  - destruct (GalaxyAction.numberAt r1) as [[g r]|] eqn:E.
    { intros [= <-]. destruct (numberAt_shape _ E) as [E1 E2].
      exists "chapter", r. split; [|exact E2].
      now rewrite (stripPrefix_app _ _ P1), E1. }
    destruct (stripPrefix "ch" s) as [r2|] eqn:P2.
    + destruct (GalaxyAction.lazyNumber r2) as [g|] eqn:L.
      * intros [= <-]. destruct (lazyNumber_shape _ L) as (p & r & E1 & E2).
        exists ("ch" ++ p), r. split; [|exact E2].
        rewrite (stripPrefix_app _ _ P2), E1. now rewrite !append_assoc.
      * destruct (GalaxyAction.numberAt s) as [[g [|x r]]|] eqn:E'; try discriminate.
        intros [= <-]. destruct (numberAt_shape _ E') as [E1 E2].
        split; [|exact E2]. now rewrite E1, append_empty_r.
    + destruct (GalaxyAction.numberAt s) as [[g [|x r]]|] eqn:E'; try discriminate.
      intros [= <-]. destruct (numberAt_shape _ E') as [E1 E2].
      split; [|exact E2]. now rewrite E1, append_empty_r.
  - destruct (stripPrefix "ch" s) as [r2|] eqn:P2.
    + destruct (GalaxyAction.lazyNumber r2) as [g|] eqn:L.
      * intros [= <-]. destruct (lazyNumber_shape _ L) as (p & r & E1 & E2).
        exists ("ch" ++ p), r. split; [|exact E2].
        rewrite (stripPrefix_app _ _ P2), E1. now rewrite !append_assoc.
      * destruct (GalaxyAction.numberAt s) as [[g [|x r]]|] eqn:E'; try discriminate.
        intros [= <-]. destruct (numberAt_shape _ E') as [E1 E2].
        split; [|exact E2]. now rewrite E1, append_empty_r.
    + destruct (GalaxyAction.numberAt s) as [[g [|x r]]|] eqn:E'; try discriminate.
      intros [= <-]. destruct (numberAt_shape _ E') as [E1 E2].
      split; [|exact E2]. now rewrite E1, append_empty_r.
Qed.

Lemma chapNumRegex_shape (s : string) (m : string + string) :
  GalaxyAction.chapNumRegex s = Some m ->
  exists before g after,
    s = before ++ g ++ after /\ chapterNumeral g
    /\ (m = inl g \/ (m = inr g /\ after = "")).
Proof.
  assert (forall s, GalaxyAction.chapNumAt s = Some m ->
            exists before g after,
              s = before ++ g ++ after /\ chapterNumeral g
              /\ (m = inl g \/ (m = inr g /\ after = ""))) as Here.
  { intros s' H. apply chapNumAt_shape in H. destruct m as [g|g].
    - destruct H as (p & r & E1 & E2). exists p, g, r. repeat split; auto.
    - destruct H as [E1 E2]. exists "", g, "". repeat split; auto.
      now rewrite append_empty_r. }
  induction s as [|c s IH]; cbn [GalaxyAction.chapNumRegex].
  - destruct (GalaxyAction.chapNumAt "") as [m'|] eqn:E; [|discriminate].
    intros [= <-]. now apply Here.
  - destruct (GalaxyAction.chapNumAt (String c s)) as [m'|] eqn:E.
    + intros [= <-]. now apply Here.
    + intros H. destruct (IH H) as (b & g & a & -> & N & M).
      exists (String c b), g, a. repeat split; auto.
Qed.

End NumeralFacts.

Module NumberSearch.
Import JS JSFacts.

Lemma numberAt_nondigit (c : ascii) (t : string) :
  isDigit c = false -> GalaxyAction.numberAt (String c t) = None.
Proof.
  intros D. unfold GalaxyAction.numberAt. cbn [span]. now rewrite D.
Qed.

Lemma numberAt_empty : GalaxyAction.numberAt "" = None.
Proof. reflexivity. Qed.

(** A text with no digit has no number. *)
Lemma numberAt_digitless (s : string) :
  (forall c, mem c s = true -> isDigit c = false) ->
  GalaxyAction.numberAt s = None.
Proof.
  intros H. destruct s as [|c t]; [reflexivity|].
  apply numberAt_nondigit. apply H. cbn [mem]. now rewrite Ascii.eqb_refl.
Qed.

Lemma lazyNumber_digitless (s : string) :
  (forall c, mem c s = true -> isDigit c = false) ->
  GalaxyAction.lazyNumber s = None.
Proof.
  induction s as [|c s IH]; intros H; cbn [GalaxyAction.lazyNumber].
  - reflexivity.
  - rewrite (@numberAt_digitless _ H).
    destruct (isLineTerminator c); [reflexivity|].
    apply IH. intros d Hd. apply H. cbn [mem]. now rewrite Hd, orb_true_r.
Qed.

Lemma chapNumAt_digitless (s : string) :
  (forall c, mem c s = true -> isDigit c = false) ->
  GalaxyAction.chapNumAt s = None.
Proof.
  intros H. unfold GalaxyAction.chapNumAt. rewrite (@numberAt_digitless _ H).
  destruct (stripPrefix "chapter" s) as [r1|] eqn:P1.
  - rewrite numberAt_digitless
      by (intros c Hc; apply H; exact (stripPrefix_mem _ _ _ P1 Hc)).
    destruct (stripPrefix "ch" s) as [r2|] eqn:P2; [|reflexivity].
    now rewrite lazyNumber_digitless
      by (intros c Hc; apply H; exact (stripPrefix_mem _ _ _ P2 Hc)).
  - destruct (stripPrefix "ch" s) as [r2|] eqn:P2; [|reflexivity].
    now rewrite lazyNumber_digitless
      by (intros c Hc; apply H; exact (stripPrefix_mem _ _ _ P2 Hc)).
Qed.

Lemma chapNumRegex_digitless (s : string) :
  (forall c, mem c s = true -> isDigit c = false) ->
  GalaxyAction.chapNumRegex s = None.
Proof.
  induction s as [|c s IH]; intros H; cbn [GalaxyAction.chapNumRegex].
  - reflexivity.
  - rewrite (@chapNumAt_digitless _ H).
    apply IH. intros d Hd. apply H. cbn [mem]. now rewrite Hd, orb_true_r.
Qed.

(** The number after a text without digits and line terminators. *)
Lemma lazyNumber_skip (x n g r : string) :
  plainText x -> GalaxyAction.numberAt n = Some (g, r) ->
  GalaxyAction.lazyNumber (x ++ n) = Some g.
Proof.
  intros Hx Hn. induction x as [|a x IH]; cbn [append].
  - destruct n as [|c n]; [discriminate Hn|].
    cbn [GalaxyAction.lazyNumber]. now rewrite Hn.
  - assert (isDigit a = false /\ isLineTerminator a = false) as [D L]
      by (apply Hx; cbn [mem]; now rewrite Ascii.eqb_refl).
    cbn [GalaxyAction.lazyNumber]. rewrite (@numberAt_nondigit _ _ D), L.
    apply IH. intros c Hc. apply Hx. cbn [mem]. now rewrite Hc, orb_true_r.
Qed.

(** What is left of a text that ends before a digit, after a literal
    without digits, ends before that digit too. *)
Lemma stripPrefix_before (lit x n r : string) (c : ascii) (t : string) :
  (forall d, mem d lit = true -> isDigit d = false) ->
  n = String c t -> isDigit c = true ->
  stripPrefix lit (x ++ n) = Some r ->
  exists x', r = x' ++ n /\ forall d, mem d x' = true -> mem d x = true.
Proof.
  intros Hlit -> D. revert x. induction lit as [|a lit IH]; intros x.
  - cbn [stripPrefix]. intros [= <-]. now exists x.
  - destruct x as [|b x]; cbn [append stripPrefix].
    + destruct (Ascii.eqb_spec a c) as [->|_]; [|discriminate].
      rewrite (Hlit c) in D; [discriminate|].
      cbn [mem]. now rewrite Ascii.eqb_refl.
    + destruct (Ascii.eqb a b); [|discriminate].
      intros H.
      assert (forall d, mem d lit = true -> isDigit d = false) as Hlit'
        by (intros d Hd; apply Hlit; cbn [mem]; now rewrite Hd, orb_true_r).
      destruct (IH Hlit' x H) as (x' & E & M).
      exists x'. split; [exact E|].
      intros d Hd. cbn [mem]. now rewrite (M d Hd), orb_true_r.
Qed.

Lemma numberAt_digit (n g r : string) :
  GalaxyAction.numberAt n = Some (g, r) ->
  exists c t, n = String c t /\ isDigit c = true.
Proof.
  destruct n as [|c t]; [discriminate|].
  destruct (isDigit c) eqn:D; [now exists c, t|].
  now rewrite (@numberAt_nondigit _ _ D).
Qed.

(** Before the first digit the expression finds nothing or, through its
    first alternative, the number at that digit. *)
Lemma chapNumAt_before (a : ascii) (x n g r : string) :
  plainText (String a x) -> GalaxyAction.numberAt n = Some (g, r) ->
  GalaxyAction.chapNumAt (String a x ++ n) = None
  \/ GalaxyAction.chapNumAt (String a x ++ n) = Some (inl g).
Proof.
  intros Hx Hn. destruct (@numberAt_digit _ _ _ Hn) as (c & t & En & D).
  assert (forall lit r',
            (forall d, mem d lit = true -> isDigit d = false) ->
            stripPrefix lit (String a x ++ n) = Some r' ->
            exists x', r' = x' ++ n /\ plainText x') as Hs.
  { intros lit r' Hlit P.
    destruct (@stripPrefix_before lit (String a x) n r' c t Hlit En D P) as (x' & E & M).
    exists x'. split; [exact E|]. intros d Hd. apply Hx. now apply M. }
  assert (GalaxyAction.numberAt (String a x ++ n) = None) as N0.
  { cbn [append]. apply numberAt_nondigit. apply Hx. cbn [mem]. now rewrite Ascii.eqb_refl. }
  assert (forall x', plainText x' ->
            GalaxyAction.numberAt (x' ++ n) = None
            \/ GalaxyAction.numberAt (x' ++ n) = Some (g, r)) as Hnum.
  { intros [|b x'] Hx'; [now right|left].
    cbn [append]. apply numberAt_nondigit. apply Hx'. cbn [mem]. now rewrite Ascii.eqb_refl. }
  unfold GalaxyAction.chapNumAt. rewrite N0.
  assert (match stripPrefix "ch" (String a x ++ n) with
          | Some r' => GalaxyAction.lazyNumber r'
          | None => None
          end = None
          \/ match stripPrefix "ch" (String a x ++ n) with
             | Some r' => GalaxyAction.lazyNumber r'
             | None => None
             end = Some g) as Hch.
  { destruct (stripPrefix "ch" (String a x ++ n)) as [r2|] eqn:P2; [|now left].
    destruct (Hs "ch" r2) as (x2 & -> & H2); [|exact P2|].
    - intros d Hd. cbn [mem] in Hd.
      repeat (apply orb_true_iff in Hd as [Hd|Hd];
              [apply Ascii.eqb_eq in Hd; now subst d|]).
      discriminate.
    - right. exact (@lazyNumber_skip _ _ _ _ H2 Hn). }
  destruct (stripPrefix "chapter" (String a x ++ n)) as [r1|] eqn:P1.
  - destruct (Hs "chapter" r1) as (x1 & -> & H1); [|exact P1|].
    + intros d Hd. cbn [mem] in Hd.
      repeat (apply orb_true_iff in Hd as [Hd|Hd];
              [apply Ascii.eqb_eq in Hd; now subst d|]).
      discriminate.
    + destruct (Hnum x1 H1) as [-> | ->]; [|now right].
      destruct Hch as [-> | ->]; [now left|now right].
  - destruct Hch as [-> | ->]; [now left|now right].
Qed.

(** After [ch] the expression finds the number at the first digit. *)
Lemma chapNumAt_ch (q n g r : string) :
  plainText q -> GalaxyAction.numberAt n = Some (g, r) ->
  GalaxyAction.chapNumAt ("ch" ++ q ++ n) = Some (inl g).
Proof.
  intros Hq Hn.
  assert (plainText ("ch" ++ q)) as Hx.
  { intros d Hd. cbn [append mem] in Hd.
    apply orb_true_iff in Hd as [Hd|Hd]; [apply Ascii.eqb_eq in Hd; now subst d|].
    apply orb_true_iff in Hd as [Hd|Hd]; [apply Ascii.eqb_eq in Hd; now subst d|].
    now apply Hq. }
  destruct (@chapNumAt_before "c" (String "h" q) n g r Hx Hn) as [E|E];
    [|exact E].
  exfalso. revert E. unfold GalaxyAction.chapNumAt.
  change (stripPrefix "ch" (String "c" (String "h" q) ++ n)) with (Some (q ++ n)).
  cbv iota beta. rewrite (@lazyNumber_skip _ _ _ _ Hq Hn).
  now destruct (match stripPrefix "chapter" _ with Some _ => _ | None => None end).
Qed.

Lemma plainText_app (x y : string) :
  plainText (x ++ y) <-> plainText x /\ plainText y.
Proof.
  unfold plainText. split.
  - intros H. split; intros c Hc; apply H; rewrite mem_app, Hc;
      [reflexivity|apply orb_true_r].
  - intros [H1 H2] c Hc. rewrite mem_app in Hc.
    apply orb_true_iff in Hc as [Hc|Hc]; auto.
Qed.

Lemma chapNumRegex_cons (a : ascii) (t : string) :
  GalaxyAction.chapNumRegex (String a t)
  = match GalaxyAction.chapNumAt (String a t) with
    | Some m => Some m
    | None => GalaxyAction.chapNumRegex t
    end.
Proof. reflexivity. Qed.

Lemma chapNumRegex_ch (p q n g r : string) :
  plainText p -> plainText q -> GalaxyAction.numberAt n = Some (g, r) ->
  GalaxyAction.chapNumRegex (p ++ "ch" ++ q ++ n) = Some (inl g).
Proof.
  intros Hp Hq Hn. induction p as [|a p IH].
  - change ("" ++ "ch" ++ q ++ n) with (String "c" (String "h" (q ++ n))).
    rewrite chapNumRegex_cons.
    change (String "c" (String "h" (q ++ n))) with ("ch" ++ q ++ n).
    now rewrite (@chapNumAt_ch _ _ _ _ Hq Hn).
  - assert (plainText p) as Hp'
      by (intros c Hc; apply Hp; cbn [mem]; now rewrite Hc, orb_true_r).
    change (String a p ++ "ch" ++ q ++ n) with (String a (p ++ "ch" ++ q ++ n)).
    rewrite chapNumRegex_cons.
    assert (String a (p ++ "ch" ++ q ++ n) = String a (p ++ "ch" ++ q) ++ n) as E
      by (cbn [append]; now rewrite !append_assoc).
    rewrite E.
    assert (plainText (String a (p ++ "ch" ++ q))) as Hx.
    { change (String a (p ++ "ch" ++ q)) with (String a p ++ "ch" ++ q).
      apply plainText_app. split; [exact Hp|].
      apply (plainText_app "ch" q). split; [|exact Hq].
      intros d Hd. cbn [mem] in Hd.
      apply orb_true_iff in Hd as [Hd|Hd]; [apply Ascii.eqb_eq in Hd; now subst d|].
      apply orb_true_iff in Hd as [Hd|Hd]; [apply Ascii.eqb_eq in Hd; now subst d|].
      discriminate. }
    destruct (@chapNumAt_before _ _ _ _ _ Hx Hn) as [-> | ->]; [|reflexivity].
    now apply IH.
Qed.

(** The number that stands at a numeral followed by nothing or by a
    slash, and at a numeral followed by a hyphen or an underscore and a
    second numeral. *)
Lemma numberAt_numeral (d rest : string) :
  numeral d -> pathRest rest = true ->
  GalaxyAction.numberAt (d ++ rest) = Some (d, rest).
Proof.
  intros [Hd1 Hd2] Hr. unfold GalaxyAction.numberAt.
  assert (span isDigit (d ++ rest) = (d, rest)) as ->.
  { destruct rest as [|c rest].
    - rewrite append_empty_r. now apply span_whole.
    - apply span_all; [exact Hd2|]. cbn [pathRest] in Hr.
      apply Ascii.eqb_eq in Hr. now subst c. }
  rewrite (proj2 (truthy_true d) Hd1). cbn [negb].
  destruct rest as [|c rest].
  - now rewrite !append_empty_r.
  - cbn [pathRest] in Hr. apply Ascii.eqb_eq in Hr. subst c.
    cbv -[append]. now rewrite !append_empty_r.
Qed.

Lemma numberAt_pair (d d3 rest : string) (sep : ascii) :
  numeral d -> numeral d3 -> sep = "-"%char \/ sep = "_"%char ->
  pathRest rest = true ->
  GalaxyAction.numberAt (d ++ String sep (d3 ++ rest))
  = Some (d ++ String sep d3, rest).
Proof.
  intros [Hd1 Hd2] [He1 He2] Hs Hr. unfold GalaxyAction.numberAt.
  assert (isDigit sep = false /\ Ascii.eqb sep "." = false
          /\ Ascii.eqb sep "-" || Ascii.eqb sep "_" = true) as (S1 & S2 & S3)
    by (destruct Hs as [-> | ->]; repeat split; reflexivity).
  rewrite (span_all isDigit d (d3 ++ rest) sep Hd2 S1).
  rewrite (proj2 (truthy_true d) Hd1). cbn [negb]. rewrite S2, S1, S3.
  assert (span isDigit (d3 ++ rest) = (d3, rest)) as ->.
  { destruct rest as [|c rest].
    - rewrite append_empty_r. now apply span_whole.
    - apply span_all; [exact He2|]. cbn [pathRest] in Hr.
      apply Ascii.eqb_eq in Hr. now subst c. }
  now rewrite (proj2 (truthy_true d3) He1).
Qed.

Lemma replaceChar_numeral (x y : ascii) (d : string) :
  numeral d -> isDigit x = false -> replaceChar x y d = d.
Proof.
  intros [_ H] X. apply ScriptFacts.replaceChar_none.
  destruct (mem x d) eqn:M; [|reflexivity]. now rewrite (H x M) in X.
Qed.

End NumberSearch.

Module NumberChecks.
Import JS JSFacts.

Lemma mem_forallb (f : ascii -> bool) (s : string) (c : ascii) :
  forallb f (list_ascii_of_string s) = true -> mem c s = true -> f c = true.
Proof.
  induction s as [|a s IH]; cbn [list_ascii_of_string forallb mem]; [discriminate|].
  intros H M. apply andb_true_iff in H as [Ha Hs].
  apply orb_true_iff in M as [M|M]; [|now apply IH].
  apply Ascii.eqb_eq in M. now subst c.
Qed.

Lemma plainText_check (s : string) :
  forallb (fun c => negb (isDigit c) && negb (isLineTerminator c))
          (list_ascii_of_string s) = true ->
  plainText s.
Proof.
  intros H c M. pose proof (mem_forallb _ _ _ H M) as F. cbv beta in F.
  apply andb_true_iff in F as [F1 F2].
  now apply negb_true_iff in F1, F2.
Qed.

Lemma numeral_check (s : string) :
  truthy s && forallb isDigit (list_ascii_of_string s) = true -> numeral s.
Proof.
  intros H. apply andb_true_iff in H as [H1 H2]. split.
  - now apply truthy_true.
  - intros c M. exact (mem_forallb _ _ _ H2 M).
Qed.

Lemma digitless_check (s : string) :
  forallb (fun c => negb (isDigit c)) (list_ascii_of_string s) = true ->
  forall c, mem c s = true -> isDigit c = false.
Proof.
  intros H c M. pose proof (mem_forallb _ _ _ H M) as F. cbv beta in F.
  now apply negb_true_iff in F.
Qed.

End NumberChecks.

(** X10. The text that [parseChapterList] of GalaxyAction hands to
    [parseFloat] for the chapter number begins with a digit. It is [0],
    or it is taken from a numeral that stands in the id: that numeral
    with its hyphen or underscore turned into a dot, or the numeral as it
    is when it ends the id. An id without digit gives [0]. When the
    letters [ch] stand before the first digit of the id, with no line
    terminator in between, and the numeral at that digit is followed by
    nothing or a slash, the text is that numeral; and for two numerals
    joined by a hyphen or an underscore it is the two joined by a dot. *)
Theorem galaxy_chapter_number_text_is_a_numeral_of_the_id (chapterId : string) :
  let text := GalaxyAction.chapNumText chapterId in
  (exists c t, text = String c t /\ JS.isDigit c = true)
  /\ (text = "0"
      \/ exists before g after,
           chapterId = before ++ g ++ after /\ chapterNumeral g
           /\ (text = JS.replaceChar "_" "." (JS.replaceChar "-" "." g)
               \/ (after = "" /\ text = g)))
  /\ ((forall c, JS.mem c chapterId = true -> JS.isDigit c = false) ->
      text = "0")
  /\ (forall p q d rest,
        chapterId = p ++ "ch" ++ q ++ d ++ rest ->
        plainText p -> plainText q -> numeral d -> pathRest rest = true ->
        text = d)
  /\ (forall p q d sep d3 rest,
        chapterId = p ++ "ch" ++ q ++ d ++ String sep (d3 ++ rest) ->
        plainText p -> plainText q -> numeral d -> numeral d3 ->
        sep = "-"%char \/ sep = "_"%char -> pathRest rest = true ->
        text = d ++ "." ++ d3).
Proof.
  intros text. subst text. unfold GalaxyAction.chapNumText.
  split; [|split; [|split; [|split]]].
  - destruct (GalaxyAction.chapNumRegex chapterId) as [m|] eqn:E.
    + destruct (NumberFacts.chapNumRegex_head _ E) as (c & t & [-> | ->] & D).
      * cbn [JS.replaceChar].
        rewrite (@NumberFacts.digit_kept "-" "." c D eq_refl).
        rewrite (@NumberFacts.digit_kept "_" "." c D eq_refl).
        now eexists; eexists.
      * now exists c, t.
    + now exists "0"%char, "".
  - destruct (GalaxyAction.chapNumRegex chapterId) as [m|] eqn:E; [|now left].
    right. destruct (NumeralFacts.chapNumRegex_shape _ E)
      as (before & g & after & E1 & N & [-> | [-> ->]]);
      exists before, g; eexists; (split; [exact E1|]); (split; [exact N|]).
    + now left.
    + now right.
  - intros H. now rewrite (@NumberSearch.chapNumRegex_digitless _ H).
  - intros p q d rest -> Hp Hq Hd Hr.
    rewrite (@NumberSearch.chapNumRegex_ch p q (d ++ rest) d rest Hp Hq
               (@NumberSearch.numberAt_numeral d rest Hd Hr)).
    rewrite (@NumberSearch.replaceChar_numeral "-" "." d Hd eq_refl).
    exact (@NumberSearch.replaceChar_numeral "_" "." d Hd eq_refl).
  - intros p q d sep d3 rest -> Hp Hq Hd Hd3 Hs Hr.
    rewrite (@NumberSearch.chapNumRegex_ch p q (d ++ String sep (d3 ++ rest))
               (d ++ String sep d3) rest Hp Hq
               (@NumberSearch.numberAt_pair d d3 rest sep Hd Hd3 Hs Hr)).
    rewrite !ScriptFacts.replaceChar_app. cbn [JS.replaceChar].
    rewrite !(@NumberSearch.replaceChar_numeral "-" "." _ Hd eq_refl).
    rewrite !(@NumberSearch.replaceChar_numeral "_" "." _ Hd eq_refl).
    rewrite !(@NumberSearch.replaceChar_numeral "-" "." _ Hd3 eq_refl).
    rewrite !(@NumberSearch.replaceChar_numeral "_" "." _ Hd3 eq_refl).
    now destruct Hs as [-> | ->].
Qed.

Lemma galaxy_chapter_number_text_is_a_numeral_of_the_id_witness :
  plainText "/solo-leveling-" /\ plainText "apter-"
  /\ numeral "12" /\ numeral "5" /\ pathRest "/" = true
  /\ GalaxyAction.chapNumText "/solo-leveling-chapter-12-5/" = "12.5"
  /\ GalaxyAction.chapNumText "/solo-leveling-chapter-12/" = "12"
  /\ GalaxyAction.chapNumText "/solo-leveling/" = "0".
Proof.
  assert (plainText "/solo-leveling-") as Hp
    by (apply NumberChecks.plainText_check; reflexivity).
  assert (plainText "apter-") as Hq
    by (apply NumberChecks.plainText_check; reflexivity).
  assert (numeral "12") as H12 by (apply NumberChecks.numeral_check; reflexivity).
  assert (numeral "5") as H5 by (apply NumberChecks.numeral_check; reflexivity).
  do 5 (split; [assumption || reflexivity|]).
  split; [|split].
  - destruct (galaxy_chapter_number_text_is_a_numeral_of_the_id
                "/solo-leveling-chapter-12-5/") as (_ & _ & _ & _ & H).
    exact (H "/solo-leveling-" "apter-" "12" "-"%char "5" "/" eq_refl Hp Hq H12 H5
             (or_introl eq_refl) eq_refl).
  - destruct (galaxy_chapter_number_text_is_a_numeral_of_the_id
                "/solo-leveling-chapter-12/") as (_ & _ & _ & H & _).
    exact (H "/solo-leveling-" "apter-" "12" "/" eq_refl Hp Hq H12 eq_refl).
  - destruct (galaxy_chapter_number_text_is_a_numeral_of_the_id
                "/solo-leveling/") as (_ & _ & H & _).
    apply H. now apply NumberChecks.digitless_check.
Defined.

Module LinkFacts.
Import JS JSFacts.

Lemma pathOfAbsolute_origin (secure : bool) (host path : string) :
  truthy host = true -> mem "/" host = false -> startsWith path "/" = true ->
  existsb isLineTerminator (list_ascii_of_string path) = false ->
  GalaxyAction.pathOfAbsolute (scheme secure ++ host ++ path) = Some path.
Proof.
  intros Th Hh Hp Hl.
  assert (exists p, path = String "/" p) as [p ->].
  { destruct path as [|c p]; [discriminate|].
    unfold startsWith in Hp. cbn [String.prefix] in Hp.
    destruct (ascii_dec "/" c); [subst; now exists p|discriminate]. }
  assert (span (fun c => negb (Ascii.eqb c "/")) (host ++ String "/" p)
          = (host, String "/" p)) as S.
  { apply span_all; [|reflexivity].
    intros d Hd. destruct (Ascii.eqb_spec d "/"); [subst; congruence|reflexivity]. }
  unfold GalaxyAction.pathOfAbsolute.
  destruct secure; cbn [scheme append stripPrefix Ascii.eqb Bool.eqb];
    rewrite S, Th, Hl; reflexivity.
Qed.

Lemma startsWith_scheme (secure : bool) (rest : string) :
  startsWith (scheme secure ++ rest) "http" = true.
Proof. destruct secure; now destruct rest. Qed.

Lemma sort_listed {RT : Runtime} (compare : Chapter -> Chapter -> comparison)
    (l : list Chapter) :
  Sorted (fun a b => compare a b <> Gt) l -> Ziz.sort compare l = l.
Proof.
  induction 1 as [|a l Hs IH Hd]; [reflexivity|].
  cbn [Ziz.sort]. rewrite IH.
  destruct Hd as [|b l' Hab]; [reflexivity|].
  cbn [Ziz.insertSorted]. now destruct (compare a b).
Qed.

End LinkFacts.

(** X11. When the link of a chapter is an absolute address, the id of
    the chapter is its path, without scheme and host, on GalaxyAction,
    and that path with a slash at its end on Ziz. *)
Theorem chapter_id_is_the_path_of_an_absolute_link (secure : bool) (host path : string) :
  JS.truthy host = true -> JS.mem "/" host = false ->
  JS.startsWith path "/" = true ->
  existsb JS.isLineTerminator (list_ascii_of_string path) = false ->
  GalaxyAction.chapterIdOf (scheme secure ++ host ++ path) = path
  /\ Ziz.chapterIdOf (scheme secure ++ host ++ path) = Ziz.ensureTrailingSlash path.
Proof.
  intros Th Hh Hp Hl. unfold GalaxyAction.chapterIdOf, Ziz.chapterIdOf.
  rewrite LinkFacts.startsWith_scheme.
  now rewrite (LinkFacts.pathOfAbsolute_origin secure host path Th Hh Hp Hl).
Qed.

Lemma chapter_id_is_the_path_of_an_absolute_link_witness :
  JS.truthy "zzizz.xyz" = true
  /\ JS.mem "/" "zzizz.xyz" = false
  /\ JS.startsWith "/reader/manga/solo/7" "/" = true
  /\ existsb JS.isLineTerminator (list_ascii_of_string "/reader/manga/solo/7") = false
  /\ GalaxyAction.chapterIdOf "https://zzizz.xyz/reader/manga/solo/7"
     = "/reader/manga/solo/7"
  /\ Ziz.chapterIdOf "https://zzizz.xyz/reader/manga/solo/7"
     = "/reader/manga/solo/7/".
Proof.
  do 4 (split; [reflexivity|]).
  exact (chapter_id_is_the_path_of_an_absolute_link true "zzizz.xyz"
           "/reader/manga/solo/7" eq_refl eq_refl eq_refl eq_refl).
Defined.

(** X12. When the chapters that [parseChapterList] of Ziz keeps are
    listed from the newest down, so that the comparator has nothing to
    move, the list returned has them in the order of the page, numbered
    from their count down to 1. *)
Theorem ziz_listed_order_kept {RT : Runtime} (nodes : list Ziz.ChapterNode)
    (sm : SourceManga) (source : Source) (clk : Clock) :
  let kept := fst (Ziz.eachChapter sm source 0 nodes clk) in
  let out := fst (Ziz.parseChapterList nodes sm source clk) in
  listedDescending kept ->
  map chapterId out = map chapterId kept
  /\ map chapNum out = map chapNum kept
  /\ map sortingIndex out = countdown (length kept).
Proof.
  intros kept out H. subst out. rewrite ziz_list. fold kept.
  unfold sortedAndNumbered. rewrite (@LinkFacts.sort_listed _ _ _ H).
  split; [apply ChapterFacts.reindex_ids|].
  split; [|now apply ChapterFacts.reindex_indices].
  generalize 0%nat (length kept). induction kept as [|a l IH]; [reflexivity|].
  intros i len. cbn [Ziz.reindex map Ziz.withSortingIndex chapNum].
  f_equal. apply IH. now inversion H.
Qed.

Lemma ziz_listed_order_kept_witness :
  let kept := fst (Ziz.eachChapter (RT := Reference.runtime) sampleManga
                     Ziz.extension 0 zizNewestFirst (stoppedAt 0%Z)) in
  let out := fst (Ziz.parseChapterList (RT := Reference.runtime) zizNewestFirst
                    sampleManga Ziz.extension (stoppedAt 0%Z)) in
  listedDescending kept
  /\ map chapterId out
     = ["/reader/manga/solo/12/"; "/reader/manga/solo/7/"; "/reader/manga/solo/7/"]
  /\ map sortingIndex out = [3; 2; 1]%nat.
Proof.
  assert (listedDescending
            (fst (Ziz.eachChapter (RT := Reference.runtime) sampleManga
                    Ziz.extension 0 zizNewestFirst (stoppedAt 0%Z)))) as H.
  { repeat constructor; discriminate. }
  split; [exact H|].
  pose proof (ziz_listed_order_kept (RT := Reference.runtime) zizNewestFirst
                sampleManga Ziz.extension (stoppedAt 0%Z) H) as (H1 & _ & H3).
  split; [exact H1|exact H3].
Defined.

(** ** The parser of Ziz *)

Module ZizFacts.
Import JS JSFacts.

Lemma startsWith_app (s t p : string) :
  startsWith s p = true -> startsWith (s ++ t) p = true.
Proof.
  unfold startsWith. revert s. induction p as [|c p IH]; intros s.
  - intros _. now destruct (s ++ t).
  - destruct s as [|d s]; [discriminate|].
    cbn [append String.prefix]. destruct (ascii_dec c d); [apply IH|discriminate].
Qed.

Lemma endsWith_slash (s : string) : endsWith (s ++ "/") "/" = true.
Proof.
  induction s as [|c s IH]; [reflexivity|].
  cbn [append endsWith]. rewrite IH. apply orb_true_r.
Qed.

Lemma buildFullUrl_absolute (relativeUrl domain : string) :
  absolute domain ->
  Ziz.buildFullUrl relativeUrl domain = "" \/ absolute (Ziz.buildFullUrl relativeUrl domain).
Proof.
  intros H. unfold Ziz.buildFullUrl.
  destruct (truthy relativeUrl); cbn [negb]; [|now left].
  destruct (startsWith relativeUrl "http") eqn:E; right; [exact E|].
  now apply startsWith_app.
Qed.

Lemma spacesDigits_numeral (s g : string) :
  Ziz.spacesDigits s = Some g -> numeral g.
Proof.
  unfold Ziz.spacesDigits.
  destruct (span isWhiteSpace s) as [ws r].
  pose proof (@span_fst_sat isDigit r) as H.
  destruct (span isDigit r) as [d r']. cbn [fst] in H.
  destruct (truthy ws); [|discriminate].
  destruct (truthy d) eqn:T; [|discriminate].
  intros [= <-]. split; [now apply truthy_true|].
  intros c Hc. exact (proj1 (H c Hc)).
Qed.

Lemma chapterNumberMatch_numeral (ignoreCase : bool) (s g : string) :
  Ziz.chapterNumberMatch ignoreCase s = Some g -> numeral g.
Proof.
  induction s as [|c s IH]; cbn [Ziz.chapterNumberMatch].
  - destruct (if ignoreCase then _ else _) as [r|]; [|discriminate].
    destruct (Ziz.spacesDigits r) as [g'|] eqn:E; [|discriminate].
    intros [= <-]. exact (spacesDigits_numeral _ E).
  - destruct (match (if ignoreCase then stripPrefixCI "chapter" (String c s)
                     else stripPrefix "Chapter" (String c s)) with
              | Some r => Ziz.spacesDigits r
              | None => None
              end) as [g'|] eqn:E; [|exact IH].
    intros [= <-].
    destruct (if ignoreCase then _ else _) as [r|]; [|discriminate].
    exact (spacesDigits_numeral _ E).
Qed.

Lemma readerUrlAt_numeral (s g : string) :
  match stripPrefixCI "reader/manga/" s with
  | Some r =>
      let (slug, r) := span (fun c => negb (Ascii.eqb c "/")) r in
      match r with
      | String _ r =>
          let (d, _) := span isDigit r in
          if truthy slug && truthy d then Some d else None
      | EmptyString => None
      end
  | None => None
  end = Some g -> numeral g.
Proof.
  destruct (stripPrefixCI "reader/manga/" s) as [r|]; [|discriminate].
  destruct (span _ r) as [slug [|x r']]; [discriminate|].
  pose proof (@span_fst_sat isDigit r') as H.
  destruct (span isDigit r') as [d r'']. cbn [fst] in H.
  destruct (truthy slug); [|discriminate]. cbn [andb].
  destruct (truthy d) eqn:T; [|discriminate].
  intros [= <-]. split; [now apply truthy_true|].
  intros c Hc. exact (proj1 (H c Hc)).
Qed.

Lemma readerUrlMatch_numeral (s g : string) :
  Ziz.readerUrlMatch s = Some g -> numeral g.
Proof.
  induction s as [|c s IH]; cbn [Ziz.readerUrlMatch].
  - intros H. apply (readerUrlAt_numeral ""). revert H.
    now destruct (match stripPrefixCI "reader/manga/" "" with
                  | Some r => _ | None => None end).
  - destruct (match stripPrefixCI "reader/manga/" (String c s) with
              | Some r => _ | None => None end) as [g'|] eqn:E; [|exact IH].
    intros [= <-]. exact (readerUrlAt_numeral _ E).
Qed.

Lemma replaceSpaces_none (r : ascii) (s : string) (c : ascii) :
  isWhiteSpace r = false ->
  forall inRun, mem c (replaceSpaces r inRun s) = true -> isWhiteSpace c = false.
Proof.
  intros Hr. induction s as [|d s IH]; intros inRun; cbn [replaceSpaces].
  - discriminate.
  - destruct (isWhiteSpace d) eqn:W.
    + destruct inRun; [apply IH|].
      cbn [mem]. intros H. apply orb_true_iff in H as [H|H]; [|exact (IH _ H)].
      apply Ascii.eqb_eq in H. now subst c.
    + cbn [mem]. intros H. apply orb_true_iff in H as [H|H]; [|exact (IH _ H)].
      apply Ascii.eqb_eq in H. now subst c.
Qed.

End ZizFacts.

(** X13. Every page that [parseChapterDetails] of Ziz returns is an
    absolute address that ends with a slash, whether the base of the
    page API comes from a script of the page or is the default one; and
    there are at most as many pages as canvases. *)
Theorem ziz_pages_are_absolute {RT : Runtime} (doc : Ziz.ReaderDoc)
    (chapter : Chapter) :
  let out := pages (Ziz.parseChapterDetails doc chapter) in
  Forall (fun url => absolute url /\ JS.endsWith url "/" = true) out
  /\ (length out <= length (Ziz.canvases doc))%nat.
Proof.
  intros out. subst out. cbn [pages Ziz.parseChapterDetails].
  destruct (Ziz.canvases doc) as [|canvas rest] eqn:E; [split; [constructor|apply Nat.le_refl]|].
  rewrite eachPush_yielded. split; [|apply yielded_length].
  apply ListingFacts.yielded_Forall. intros [pageId|] url; [|discriminate].
  destruct (JS.truthy pageId); [|discriminate].
  set (base := fold_left _ _ _).
  destruct (JS.startsWith base "http") eqn:B; intros [= <-]; split.
  - now apply ZizFacts.startsWith_app.
  - rewrite <- JSFacts.append_assoc. apply ZizFacts.endsWith_slash.
  - reflexivity.
  - rewrite <- !JSFacts.append_assoc. apply ZizFacts.endsWith_slash.
Qed.

(** X14. The images that the parser of Ziz returns are absolute or
    missing: the thumbnail of the manga details (for a source whose
    domain is absolute), the image of every search result and of every
    item of a discover section is the empty text or starts with
    [http]. *)
Theorem ziz_images_absolute_or_missing {RT : Runtime}
    (details : Ziz.DetailsDoc) (mangaId : string) (source : Source)
    (found : Ziz.SearchDoc) (home : Ziz.HomeDoc) (section : DiscoverSection) :
  absolute (domain source) ->
  let ok url := url = "" \/ absolute url in
  ok (thumbnailUrl (mangaInfo (Ziz.parseMangaDetails details mangaId source)))
  /\ Forall (fun item => ok (result_imageUrl item)) (Ziz.parseSearchResults found)
  /\ Forall (fun item => ok (item_imageUrl item))
            (Ziz.parseDiscoverSections home section).
Proof.
  intros Hd ok. subst ok. cbv beta.
  assert (forall nodes, Forall (fun item => item_imageUrl item = ""
                                           \/ absolute (item_imageUrl item))
                               (yielded Ziz.projectItemOf nodes)) as Hp.
  { intros nodes. apply ListingFacts.yielded_Forall. intros obj item.
    unfold Ziz.projectItemOf. destruct (negb _ || negb _); [discriminate|].
    intros [= <-]. cbn [item_imageUrl]. right.
    destruct (JS.startsWith (JS.orEmpty (Ziz.project_img obj)) "http") eqn:E;
      [exact E|reflexivity]. }
  split; [|split].
  - cbn [thumbnailUrl mangaInfo Ziz.parseMangaDetails].
    now apply ZizFacts.buildFullUrl_absolute.
  - unfold Ziz.parseSearchResults. destruct (Ziz.noResults found); [constructor|].
    rewrite eachPush_yielded. apply ListingFacts.yielded_Forall. intros obj item.
    destruct (negb _ || negb _); [discriminate|].
    intros [= <-]. cbn [result_imageUrl].
    now apply ZizFacts.buildFullUrl_absolute.
  - unfold Ziz.parseDiscoverSections.
    destruct (String.eqb _ "latest_updates").
    { rewrite eachPush_yielded. apply ListingFacts.yielded_Forall. intros obj item.
      unfold Ziz.updateItemOf. destruct (negb _ || negb _); [discriminate|].
      intros [= <-]. cbn [item_imageUrl].
      now apply ZizFacts.buildFullUrl_absolute. }
    destruct (String.eqb _ "latest_projects");
      [rewrite eachPush_yielded; apply Hp|].
    destruct (_ || _); [constructor|].
    rewrite eachPush_yielded; apply Hp.
Qed.

Lemma ziz_images_absolute_or_missing_witness :
  absolute (domain Ziz.extension)
  /\ Forall (fun item => result_imageUrl item = "" \/ absolute (result_imageUrl item))
            (Ziz.parseSearchResults (RT := Reference.runtime) queryAnchorSearch).
Proof.
  split; [reflexivity|].
  exact (proj1 (proj2
    (ziz_images_absolute_or_missing (RT := Reference.runtime) blankZizDetails
       "solo" Ziz.extension queryAnchorSearch
       {| Ziz.updatesGrid := []; Ziz.projectsGrid := []; Ziz.mangaItems := [] |}
       {| discover_id := "latest_updates"; discover_title := "Latest";
          discover_type := simpleCarousel |}
       eq_refl))).
Defined.

Module NameFacts.
Import JS JSFacts.

Lemma digit_not_space (c : ascii) : isDigit c = true -> isWhiteSpace c = false.
Proof.
  destruct c as [[] [] [] [] [] [] [] []]; intros H;
    first [reflexivity | discriminate H].
Qed.

Lemma stripPrefixCI_app (lit s r : string) :
  stripPrefixCI lit s = Some r -> exists w, s = w ++ r /\ folded w = lit.
Proof.
  revert s. induction lit as [|a lit IH]; intros s; cbn [stripPrefixCI].
  - intros [= ->]. now exists "".
  - destruct s as [|b s]; [discriminate|].
    destruct (Ascii.eqb_spec a (foldCase b)) as [->|_]; [|discriminate].
    intros H. destruct (IH _ H) as (w & -> & F). exists (String b w).
    split; [reflexivity|]. cbn [folded]. now rewrite F.
Qed.

Lemma stripPrefixCI_folded (w lit r : string) :
  folded w = lit -> stripPrefixCI lit (w ++ r) = Some r.
Proof.
  revert lit. induction w as [|b w IH]; intros lit; cbn [folded].
  - intros <-. reflexivity.
  - intros <-. cbn [append stripPrefixCI]. rewrite Ascii.eqb_refl. now apply IH.
Qed.

(** At a code unit other than the first letter of the literal, the
    literal does not start. *)
Lemma stripPrefixCI_other (a : ascii) (lit : string) (c : ascii) (t : string) :
  foldCase c <> a -> stripPrefixCI (String a lit) (String c t) = None.
Proof.
  intros H. cbn [stripPrefixCI].
  destruct (Ascii.eqb_spec a (foldCase c)) as [E|_]; [now symmetry in E|reflexivity].
Qed.

Lemma spacesDigits_part (s g : string) :
  Ziz.spacesDigits s = Some g -> exists b a, s = b ++ g ++ a.
Proof.
  unfold Ziz.spacesDigits.
  destruct (span isWhiteSpace s) as [ws r] eqn:E1.
  destruct (span isDigit r) as [d r'] eqn:E2.
  destruct (truthy ws && truthy d); [|discriminate].
  intros [= <-]. exists ws, r'.
  now rewrite (NumeralFacts.span_app _ _ E1), (NumeralFacts.span_app _ _ E2).
Qed.

Lemma spacesDigits_found (gap g after : string) :
  onlyWhiteSpace gap = true -> gap <> "" -> numeral g -> endsNumeral after = true ->
  Ziz.spacesDigits (gap ++ g ++ after) = Some g.
Proof.
  intros Hw Hne [Hg1 Hg2] Ha. unfold Ziz.spacesDigits.
  destruct g as [|c g]; [congruence|].
  assert (isDigit c = true) as D by (apply Hg2; cbn [mem]; now rewrite Ascii.eqb_refl).
  assert (span isWhiteSpace (gap ++ String c g ++ after)
          = (gap, String c g ++ after)) as ->.
  { cbn [append]. apply span_all; [|now apply digit_not_space].
    intros d Hd. exact (ScriptFacts.ws_mem _ _ Hw Hd). }
  assert (span isDigit (String c g ++ after) = (String c g, after)) as ->.
  { destruct after as [|e after].
    - rewrite append_empty_r. now apply span_whole.
    - apply span_all; [exact Hg2|]. cbn [endsNumeral] in Ha.
      now apply negb_true_iff in Ha. }
  rewrite (proj2 (truthy_true gap) Hne). reflexivity.
Qed.

Lemma chapterNumberMatch_cons (ignoreCase : bool) (c : ascii) (t : string) :
  Ziz.chapterNumberMatch ignoreCase (String c t)
  = match match (if ignoreCase then stripPrefixCI "chapter" (String c t)
                 else stripPrefix "Chapter" (String c t)) with
          | Some r => Ziz.spacesDigits r
          | None => None
          end with
    | Some g => Some g
    | None => Ziz.chapterNumberMatch ignoreCase t
    end.
Proof. reflexivity. Qed.

Lemma chapterNumberMatch_part (s g : string) :
  Ziz.chapterNumberMatch true s = Some g -> exists b a, s = b ++ g ++ a.
Proof.
  assert (forall s',
            match stripPrefixCI "chapter" s' with
            | Some r => Ziz.spacesDigits r
            | None => None
            end = Some g -> exists b a, s' = b ++ g ++ a) as Here.
  { intros s'. destruct (stripPrefixCI "chapter" s') as [r|] eqn:P; [|discriminate].
    intros H. destruct (stripPrefixCI_app _ _ P) as (w & -> & _).
    destruct (spacesDigits_part _ H) as (b & a & ->).
    exists (w ++ b), a. now rewrite !append_assoc. }
  induction s as [|c s IH].
  - cbn [Ziz.chapterNumberMatch]. intros H. apply Here.
    now destruct (match stripPrefixCI "chapter" "" with
                  | Some r => Ziz.spacesDigits r | None => None end).
  - rewrite chapterNumberMatch_cons.
    destruct (match stripPrefixCI "chapter" (String c s) with
              | Some r => Ziz.spacesDigits r | None => None end) as [g'|] eqn:E.
    + intros [= <-]. now apply Here.
    + intros H. destruct (IH H) as (b & a & ->). now exists (String c b), a.
Qed.

Lemma chapterNumberMatch_without (s : string) :
  without "c" s -> Ziz.chapterNumberMatch true s = None.
Proof.
  induction s as [|c s IH]; intros H; [reflexivity|].
  rewrite chapterNumberMatch_cons, stripPrefixCI_other.
  - apply IH. intros d Hd. apply H. cbn [mem]. now rewrite Hd, orb_true_r.
  - apply H. cbn [mem]. now rewrite Ascii.eqb_refl.
Qed.

Lemma chapterNumberMatch_found (before word gap g after : string) :
  without "c" before -> folded word = "chapter" ->
  onlyWhiteSpace gap = true -> gap <> "" -> numeral g -> endsNumeral after = true ->
  Ziz.chapterNumberMatch true (before ++ word ++ gap ++ g ++ after) = Some g.
Proof.
  intros Hb Hw Hg Hne Hn Ha. induction before as [|c before IH].
  - cbn [append].
    destruct word as [|a word]; [discriminate Hw|].
    cbn [append]. rewrite chapterNumberMatch_cons.
    change (String a (word ++ gap ++ g ++ after))
      with (String a word ++ gap ++ g ++ after).
    rewrite (@stripPrefixCI_folded (String a word) "chapter" (gap ++ g ++ after) Hw).
    now rewrite (@spacesDigits_found gap g after Hg Hne Hn Ha).
  - cbn [append]. rewrite chapterNumberMatch_cons, stripPrefixCI_other.
    + apply IH. intros d Hd. apply Hb. cbn [mem]. now rewrite Hd, orb_true_r.
    + apply Hb. cbn [mem]. now rewrite Ascii.eqb_refl.
Qed.

Lemma readerUrlMatch_cons (c : ascii) (t : string) :
  Ziz.readerUrlMatch (String c t)
  = match match stripPrefixCI "reader/manga/" (String c t) with
          | Some r =>
              let (slug, r) := span (fun c => negb (Ascii.eqb c "/")) r in
              match r with
              | String _ r =>
                  let (d, _) := span isDigit r in
                  if truthy slug && truthy d then Some d else None
              | EmptyString => None
              end
          | None => None
          end with
    | Some g => Some g
    | None => Ziz.readerUrlMatch t
    end.
Proof. reflexivity. Qed.

Lemma readerUrlAt_part (s g : string) :
  match stripPrefixCI "reader/manga/" s with
  | Some r =>
      let (slug, r) := span (fun c => negb (Ascii.eqb c "/")) r in
      match r with
      | String _ r =>
          let (d, _) := span isDigit r in
          if truthy slug && truthy d then Some d else None
      | EmptyString => None
      end
  | None => None
  end = Some g -> exists b a, s = b ++ g ++ a.
Proof.
  destruct (stripPrefixCI "reader/manga/" s) as [r|] eqn:P; [|discriminate].
  destruct (stripPrefixCI_app _ _ P) as (w & -> & _).
  destruct (span _ r) as [slug [|x r']] eqn:E1; [discriminate|].
  destruct (span isDigit r') as [d r''] eqn:E2.
  destruct (truthy slug && truthy d); [|discriminate].
  intros [= <-]. exists (w ++ slug ++ String x ""), r''.
  rewrite (NumeralFacts.span_app _ _ E1), (NumeralFacts.span_app _ _ E2).
  rewrite !append_assoc. reflexivity.
Qed.

Lemma readerUrlMatch_part (s g : string) :
  Ziz.readerUrlMatch s = Some g -> exists b a, s = b ++ g ++ a.
Proof.
  induction s as [|c s IH].
  - cbn [Ziz.readerUrlMatch]. intros H. apply (readerUrlAt_part "").
    revert H.
    now destruct (match stripPrefixCI "reader/manga/" "" with
                  | Some r => _ | None => None end).
  - rewrite readerUrlMatch_cons.
    destruct (match stripPrefixCI "reader/manga/" (String c s) with
              | Some r => _ | None => None end) as [g'|] eqn:E.
    + intros [= <-]. exact (readerUrlAt_part _ E).
    + intros H. destruct (IH H) as (b & a & ->). now exists (String c b), a.
Qed.

Lemma readerUrlMatch_without (s : string) :
  without "r" s -> Ziz.readerUrlMatch s = None.
Proof.
  induction s as [|c s IH]; intros H; [reflexivity|].
  rewrite readerUrlMatch_cons, stripPrefixCI_other.
  - apply IH. intros d Hd. apply H. cbn [mem]. now rewrite Hd, orb_true_r.
  - apply H. cbn [mem]. now rewrite Ascii.eqb_refl.
Qed.

Lemma readerUrlMatch_found (before word slug g after : string) :
  without "r" before -> folded word = "reader/manga/" ->
  slug <> "" -> mem "/" slug = false -> numeral g -> endsNumeral after = true ->
  Ziz.readerUrlMatch (before ++ word ++ slug ++ "/" ++ g ++ after) = Some g.
Proof.
  intros Hb Hw Hs1 Hs2 [Hg1 Hg2] Ha. induction before as [|c before IH].
  - cbn [append].
    destruct word as [|a word]; [discriminate Hw|].
    cbn [append]. rewrite readerUrlMatch_cons.
    change (String a (word ++ slug ++ String "/" (g ++ after)))
      with (String a word ++ slug ++ String "/" (g ++ after)).
    rewrite (@stripPrefixCI_folded (String a word) "reader/manga/"
               (slug ++ String "/" (g ++ after)) Hw).
    assert (span (fun c => negb (Ascii.eqb c "/")) (slug ++ String "/" (g ++ after))
            = (slug, String "/" (g ++ after))) as ->.
    { apply span_all; [|reflexivity]. intros d Hd.
      destruct (Ascii.eqb_spec d "/"); [subst; congruence|reflexivity]. }
    assert (span isDigit (g ++ after) = (g, after)) as ->.
    { destruct after as [|e after].
      - rewrite append_empty_r. now apply span_whole.
      - apply span_all; [exact Hg2|]. cbn [endsNumeral] in Ha.
        now apply negb_true_iff in Ha. }
    now rewrite (proj2 (truthy_true slug) Hs1), (proj2 (truthy_true g) Hg1).
  - cbn [append]. rewrite readerUrlMatch_cons, stripPrefixCI_other.
    + apply IH. intros d Hd. apply Hb. cbn [mem]. now rewrite Hd, orb_true_r.
    + apply Hb. cbn [mem]. now rewrite Ascii.eqb_refl.
Qed.

Lemma without_check (letter : ascii) (s : string) :
  forallb (fun c => negb (Ascii.eqb (foldCase c) letter))
          (list_ascii_of_string s) = true ->
  without letter s.
Proof.
  intros H c M. pose proof (NumberChecks.mem_forallb _ _ _ H M) as F.
  cbv beta in F. apply negb_true_iff in F. now apply Ascii.eqb_neq.
Qed.

End NameFacts.

(** X15. [extractChapterNumber] of Ziz gives a chapter either no name
    and the number 0, or the name [Chapter] followed by a numeral, with
    the number read from that numeral; the numeral is a part of the
    title or of the id. The title comes first: when the title holds the
    word chapter, in any case, then white space and a numeral, the name
    and the number are those of that numeral, whatever the id. When the
    title has no letter c, they are those of the numeral that follows
    the slug in the reader address of the id; and when moreover the id
    has no letter r, there is no name and the number is 0. *)
Theorem ziz_chapter_names_normalised {RT : Runtime} (chapterTitle chapterId : string) :
  let found := Ziz.extractChapterNumber chapterTitle chapterId in
  ((snd found = "" /\ fst found = num_of_Z 0)
   \/ exists g, numeral g
                /\ snd found = "Chapter " ++ g
                /\ fst found = Ziz.numberOrZero g
                /\ ((exists b a, chapterTitle = b ++ g ++ a)
                    \/ (exists b a, chapterId = b ++ g ++ a)))
  /\ (forall before word gap g after,
        chapterTitle = before ++ word ++ gap ++ g ++ after ->
        without "c" before -> folded word = "chapter" ->
        onlyWhiteSpace gap = true -> gap <> "" ->
        numeral g -> endsNumeral after = true ->
        found = (Ziz.numberOrZero g, "Chapter " ++ g))
  /\ (forall before word slug g after,
        without "c" chapterTitle ->
        chapterId = before ++ word ++ slug ++ "/" ++ g ++ after ->
        without "r" before -> folded word = "reader/manga/" ->
        slug <> "" -> JS.mem "/" slug = false ->
        numeral g -> endsNumeral after = true ->
        found = (Ziz.numberOrZero g, "Chapter " ++ g))
  /\ (without "c" chapterTitle -> without "r" chapterId ->
      found = (num_of_Z 0, "")).
Proof.
  cbv zeta. unfold Ziz.extractChapterNumber. split; [|split; [|split]].
  - destruct (Ziz.chapterNumberMatch true chapterTitle) as [g|] eqn:E.
    + right. exists g. split; [exact (ZizFacts.chapterNumberMatch_numeral _ _ E)|].
      repeat split. left. exact (NameFacts.chapterNumberMatch_part _ E).
    + destruct (Ziz.readerUrlMatch chapterId) as [g|] eqn:U.
      * right. exists g. split; [exact (ZizFacts.readerUrlMatch_numeral _ U)|].
        repeat split. right. exact (NameFacts.readerUrlMatch_part _ U).
      * left. now split.
  - intros before word gap g after -> Hb Hw Hg Hne Hn Ha.
    now rewrite (@NameFacts.chapterNumberMatch_found before word gap g after
                   Hb Hw Hg Hne Hn Ha).
  - intros before word slug g after Ht -> Hb Hw Hs1 Hs2 Hn Ha.
    rewrite (@NameFacts.chapterNumberMatch_without chapterTitle Ht).
    now rewrite (@NameFacts.readerUrlMatch_found before word slug g after
                   Hb Hw Hs1 Hs2 Hn Ha).
  - intros Ht Hi.
    rewrite (@NameFacts.chapterNumberMatch_without chapterTitle Ht).
    now rewrite (@NameFacts.readerUrlMatch_without chapterId Hi).
Qed.

Lemma ziz_chapter_names_normalised_witness :
  let found := Ziz.extractChapterNumber (RT := Reference.runtime) in
  folded "CHAPTER" = "chapter" /\ onlyWhiteSpace "  " = true
  /\ numeral "12" /\ numeral "7" /\ without "c" "Episode" /\ without "r" "/"
  /\ snd (found "Solo: CHAPTER  12 (end)" "/reader/manga/solo/7/") = "Chapter 12"
  /\ snd (found "Episode" "/reader/manga/solo/7/") = "Chapter 7"
  /\ snd (found "Episode" "/") = "".
Proof.
  cbv zeta.
  assert (numeral "12") as H12 by (apply NumberChecks.numeral_check; reflexivity).
  assert (numeral "7") as H7 by (apply NumberChecks.numeral_check; reflexivity).
  assert (without "c" "Episode") as He
    by (apply NameFacts.without_check; reflexivity).
  assert (without "c" "Solo: ") as Hs
    by (apply NameFacts.without_check; reflexivity).
  assert (without "r" "/") as Hr
    by (apply NameFacts.without_check; reflexivity).
  do 6 (split; [assumption || reflexivity|]).
  split; [|split].
  - destruct (ziz_chapter_names_normalised (RT := Reference.runtime)
                "Solo: CHAPTER  12 (end)" "/reader/manga/solo/7/")
      as (_ & H & _).
    rewrite (H "Solo: " "CHAPTER" "  " "12" " (end)" eq_refl Hs eq_refl eq_refl
               ltac:(discriminate) H12 eq_refl).
    reflexivity.
  - destruct (ziz_chapter_names_normalised (RT := Reference.runtime)
                "Episode" "/reader/manga/solo/7/")
      as (_ & _ & H & _).
    rewrite (H "/" "reader/manga/" "solo" "7" "/" He eq_refl Hr eq_refl
               ltac:(discriminate) eq_refl H7 eq_refl).
    reflexivity.
  - destruct (ziz_chapter_names_normalised (RT := Reference.runtime)
                "Episode" "/")
      as (_ & _ & _ & H).
    now rewrite (H He Hr).
Defined.

(** X16. The genre tags of the manga details. On GalaxyAction every tag
    has a title that is not empty and an id that is not empty and holds
    no question mark, and the tag [debug]/[DEBUG] never appears. On Ziz
    every tag has a title that is not empty and an id without white
    space. *)
Theorem genre_tags_well_formed {RT : Runtime}
    (docA : GalaxyAction.DetailsDoc) (docB : Ziz.DetailsDoc)
    (mangaId : string) (source : Source) :
  Forall (fun tag => tag_title tag <> "" /\ tag_id tag <> ""
                     /\ JS.mem "?" (tag_id tag) = false /\ tag <> debugTag)
         (genreTags (GalaxyAction.parseMangaDetails docA mangaId source))
  /\ Forall (fun tag => tag_title tag <> ""
                        /\ forall c, JS.mem c (tag_id tag) = true ->
                                     JS.isWhiteSpace c = false)
            (genreTags (Ziz.parseMangaDetails docB mangaId source)).
Proof.
  unfold genreTags.
  cbn [tagGroups mangaInfo GalaxyAction.parseMangaDetails Ziz.parseMangaDetails
       flat_map tags].
  rewrite !app_nil_r. split.
  - apply Forall_forall. intros tag Hin. apply filter_In in Hin as [Hin Hf].
    unfold GalaxyAction.genresOf in Hin. rewrite eachPush_yielded in Hin.
    apply in_map_iff in Hin as ([k tag'] & <- & Hin). cbn [snd] in *.
    assert (Forall (fun p : string * Tag =>
                      tag_title (snd p) <> "" /\ tag_id (snd p) <> ""
                      /\ JS.mem "?" (tag_id (snd p)) = false)
                   (yielded GalaxyAction.genreOf (GalaxyAction.mgen docA))) as H.
    { apply ListingFacts.yielded_Forall. intros obj p.
      unfold GalaxyAction.genreOf.
      destruct (JS.truthy (JS.trim (GalaxyAction.genre_text obj))) eqn:T1;
        [|discriminate].
      destruct (JS.truthy (GalaxyAction.idCleaner _)) eqn:T2; [|discriminate].
      intros [= <-]. cbn [snd tag_title tag_id].
      repeat split; try (now apply JSFacts.truthy_true).
      apply CleanerFacts.GA_no_query. }
    rewrite Forall_forall in H. destruct (H _ Hin) as (H1 & H2 & H3).
    cbn [snd] in *. repeat split; try assumption.
    intros ->. discriminate Hf.
  - unfold Ziz.genresOf. rewrite eachPush_yielded.
    apply Forall_forall. intros tag Hin.
    apply in_map_iff in Hin as ([k tag'] & <- & Hin). cbn [snd].
    assert (Forall (fun p : string * Tag =>
                      tag_title (snd p) <> ""
                      /\ forall c, JS.mem c (tag_id (snd p)) = true ->
                                   JS.isWhiteSpace c = false)
                   (yielded Ziz.genreOf (Ziz.genreSpans docB))) as H.
    { apply ListingFacts.yielded_Forall. intros text p.
      unfold Ziz.genreOf.
      destruct (JS.truthy (JS.trim text)) eqn:T1; [|discriminate].
      intros [= <-]. cbn [snd tag_title tag_id].
      split; [now apply JSFacts.truthy_true|].
      intros c. now apply ZizFacts.replaceSpaces_none. }
    rewrite Forall_forall in H. exact (H _ Hin).
Qed.

(** X17. The ids that the parser of Ziz gives to search results and to
    the items of a discover section are empty or slugs: they hold no
    slash and no question mark. *)
Theorem ziz_listing_ids_are_slugs_or_empty {RT : Runtime}
    (found : Ziz.SearchDoc) (home : Ziz.HomeDoc) (section : DiscoverSection) :
  Forall (fun item => result_mangaId item = "" \/ slug (result_mangaId item))
         (Ziz.parseSearchResults found)
  /\ Forall (fun item => item_mangaId item = "" \/ slug (item_mangaId item))
            (Ziz.parseDiscoverSections home section).
Proof.
  assert (forall nodes, Forall (fun item => item_mangaId item = ""
                                           \/ slug (item_mangaId item))
                               (yielded Ziz.projectItemOf nodes)) as Hp.
  { intros nodes. apply ListingFacts.yielded_Forall. intros obj item.
    unfold Ziz.projectItemOf. destruct (negb _ || negb _); [discriminate|].
    intros [= <-]. cbn [item_mangaId]. apply CleanerFacts.Ziz_shape. }
  split.
  - unfold Ziz.parseSearchResults. destruct (Ziz.noResults found); [constructor|].
    rewrite eachPush_yielded. apply ListingFacts.yielded_Forall. intros obj item.
    destruct (negb _ || negb _); [discriminate|].
    intros [= <-]. cbn [result_mangaId]. apply CleanerFacts.Ziz_shape.
  - unfold Ziz.parseDiscoverSections.
    destruct (String.eqb _ "latest_updates").
    { rewrite eachPush_yielded. apply ListingFacts.yielded_Forall. intros obj item.
      unfold Ziz.updateItemOf. destruct (negb _ || negb _); [discriminate|].
      intros [= <-]. cbn [item_mangaId]. apply CleanerFacts.Ziz_shape. }
    destruct (String.eqb _ "latest_projects");
      [rewrite eachPush_yielded; apply Hp|].
    destruct (_ || _); [constructor|].
    rewrite eachPush_yielded; apply Hp.
Qed.
